(** * neuro-mono: the stereo analysis and downmix pipeline

    A shallow embedding of [audio-utils.ts], [neural-network.ts],
    [converter.ts] and the facade of [index.ts], the properties the
    specification states about them, and further properties read off
    the code (numbered X1, X2, ...).  Module [Double] embeds the
    analysis and the weight mapper a second time, on binary64 numbers,
    to evaluate the code where rounding decides.

    Numbers.  A JavaScript number is modelled by [num]: a real, one of the
    two infinities, or NaN, with the IEEE-754 rules for the special values
    (0/0 = NaN, x/0 = an infinity, NaN is absorbing, every comparison with
    NaN is false).  Arithmetic on finite values is exact: rounding (of
    doubles, and of the 32-bit stores into a [Float32Array]) and the sign
    of zero are not modelled there.  Where the rounding decides a
    property, module [Double] computes with it.

    Arrays.  A [Float32Array] is a [list num]; reading past the end gives
    [undefined], which every arithmetic use turns into NaN, so an
    out-of-range read is NaN; a write past the end is dropped, as typed
    arrays do. *)

From Stdlib Require Import Reals Lra Lia List ZArith Bool PeanoNat.
From Stdlib Require Floats.
Import ListNotations.

Set Implicit Arguments.

(* ================================================================== *)
(** * JavaScript numbers *)
(* ================================================================== *)

Module JS.

Inductive num : Type :=
| NaN
| NegInf
| Fin (r : R)
| PosInf.

Coercion Fin : R >-> num.

Definition Rltb (x y : R) : bool := if Rlt_dec x y then true else false.
Definition Rleb (x y : R) : bool := if Rle_dec x y then true else false.
Definition Reqb (x y : R) : bool := if Req_dec_T x y then true else false.

(** The sign of a real, as a [comparison] with zero. *)
Definition Rsign (r : R) : comparison :=
  if Rltb 0 r then Gt else if Rltb r 0 then Lt else Eq.

(** The infinity of a given sign; a zero sign is the invalid operation. *)
Definition inf_of (c : comparison) : num :=
  match c with Gt => PosInf | Lt => NegInf | Eq => NaN end.

Definition add (x y : num) : num :=
  match x, y with
  | NaN, _ => NaN
  | _, NaN => NaN
  | Fin a, Fin b => Fin (a + b)
  | PosInf, NegInf => NaN
  | NegInf, PosInf => NaN
  | PosInf, _ => PosInf
  | _, PosInf => PosInf
  | NegInf, _ => NegInf
  | _, NegInf => NegInf
  end.

Definition opp (x : num) : num :=
  match x with
  | NaN => NaN
  | NegInf => PosInf
  | Fin a => Fin (- a)
  | PosInf => NegInf
  end.

Definition sub (x y : num) : num := add x (opp y).

Definition mul (x y : num) : num :=
  match x, y with
  | NaN, _ => NaN
  | _, NaN => NaN
  | Fin a, Fin b => Fin (a * b)
  | Fin a, PosInf => inf_of (Rsign a)
  | Fin a, NegInf => inf_of (CompOpp (Rsign a))
  | PosInf, Fin b => inf_of (Rsign b)
  | NegInf, Fin b => inf_of (CompOpp (Rsign b))
  | PosInf, PosInf => PosInf
  | NegInf, NegInf => PosInf
  | PosInf, NegInf => NegInf
  | NegInf, PosInf => NegInf
  end.

(** Division; a zero divisor is the positive zero. *)
Definition div (x y : num) : num :=
  match x, y with
  | NaN, _ => NaN
  | _, NaN => NaN
  | Fin a, Fin b => if Reqb b 0 then inf_of (Rsign a) else Fin (a / b)
  | Fin _, PosInf => Fin 0
  | Fin _, NegInf => Fin 0
  | PosInf, Fin b => if Rltb b 0 then NegInf else PosInf
  | NegInf, Fin b => if Rltb b 0 then PosInf else NegInf
  | _, _ => NaN
  end.

(** [x < y], [x <= y], [x > y], [x >= y], [x === y]. *)
Definition lt (x y : num) : bool :=
  match x, y with
  | NaN, _ => false
  | _, NaN => false
  | Fin a, Fin b => Rltb a b
  | NegInf, NegInf => false
  | NegInf, _ => true
  | _, NegInf => false
  | PosInf, _ => false
  | _, PosInf => true
  end.

Definition le (x y : num) : bool :=
  match x, y with
  | NaN, _ => false
  | _, NaN => false
  | Fin a, Fin b => Rleb a b
  | NegInf, _ => true
  | _, PosInf => true
  | _, NegInf => false
  | PosInf, _ => false
  end.

Definition gt (x y : num) : bool := lt y x.
Definition ge (x y : num) : bool := le y x.

Definition eqb (x y : num) : bool :=
  match x, y with
  | Fin a, Fin b => Reqb a b
  | PosInf, PosInf => true
  | NegInf, NegInf => true
  | _, _ => false
  end.

(** [Math.abs], [Math.sqrt], [Math.min], [Math.max], [Math.tanh],
    [Math.exp], [Math.cos], [Math.sin]. *)
Definition abs (x : num) : num :=
  match x with
  | NaN => NaN
  | NegInf => PosInf
  | Fin a => Fin (Rabs a)
  | PosInf => PosInf
  end.

Definition sqrt (x : num) : num :=
  match x with
  | NaN => NaN
  | NegInf => NaN
  | Fin a => if Rltb a 0 then NaN else Fin (R_sqrt.sqrt a)
  | PosInf => PosInf
  end.

Definition min (x y : num) : num :=
  match x, y with
  | NaN, _ => NaN
  | _, NaN => NaN
  | _, _ => if lt x y then x else y
  end.

Definition max (x y : num) : num :=
  match x, y with
  | NaN, _ => NaN
  | _, NaN => NaN
  | _, _ => if lt x y then y else x
  end.

Definition tanh (x : num) : num :=
  match x with
  | NaN => NaN
  | NegInf => Fin (-1)
  | Fin a => Fin (Rtrigo_def.tanh a)
  | PosInf => Fin 1
  end.

Definition exp (x : num) : num :=
  match x with
  | NaN => NaN
  | NegInf => Fin 0
  | Fin a => Fin (Rtrigo_def.exp a)
  | PosInf => PosInf
  end.

Definition cos (x : num) : num :=
  match x with
  | Fin a => Fin (Rtrigo_def.cos a)
  | _ => NaN
  end.

Definition sin (x : num) : num :=
  match x with
  | Fin a => Fin (Rtrigo_def.sin a)
  | _ => NaN
  end.

(** An array length or a loop counter used as a number. *)
Definition of_nat (n : nat) : num := Fin (INR n).
Definition of_Z (z : Z) : num := Fin (IZR z).

Definition is_fin (x : num) : Prop :=
  match x with Fin _ => True | _ => False end.

(** ** Typed arrays *)

Definition Float32Array : Type := list num.

(** [a[i]] *)
Definition get (a : Float32Array) (i : nat) : num := nth i a NaN.

(** [a[i] = v] *)
Fixpoint set (a : Float32Array) (i : nat) (v : num) : Float32Array :=
  match a, i with
  | [], _ => []
  | _ :: t, O => v :: t
  | h :: t, S j => h :: set t j v
  end.

(** [a.slice(start, stop)] *)
Definition slice (a : Float32Array) (start stop : nat) : Float32Array :=
  firstn (stop - start) (skipn start a).

(** [a.set(src, offset)], for a source that fits. *)
Definition set_array (a src : Float32Array) (offset : nat) : Float32Array :=
  firstn offset a ++ src ++ skipn (offset + length src) a.

(** ** Loops *)

(** [for (i = start; i < stop; i++) s = body s i] *)
Definition for_loop {S : Type} (start stop : nat) (body : S -> nat -> S)
  (s : S) : S :=
  fold_left body (seq start (stop - start)) s.

(** [for (i = start; i < stop; i += step) s = body s i]; the loop ends
    within [stop - start] rounds when [step] is positive. *)
Fixpoint for_step {S : Type} (fuel i stop step : nat) (body : S -> nat -> S)
  (s : S) : S :=
  match fuel with
  | O => s
  | Datatypes.S f =>
      if (i <? stop)%nat
      then for_step f (i + step) stop step body (body s i)
      else s
  end.

End JS.

Import JS.

Declare Scope num_scope.
Delimit Scope num_scope with num.
Bind Scope num_scope with num.
Infix "+" := add : num_scope.
Infix "-" := sub : num_scope.
Infix "*" := mul : num_scope.
Infix "/" := div : num_scope.
Notation "- x" := (opp x) : num_scope.
Infix "<?" := lt : num_scope.
Infix "<=?" := le : num_scope.
Infix ">?" := gt : num_scope.
Infix ">=?" := ge : num_scope.
Infix "=?" := eqb : num_scope.

Open Scope R_scope.
Open Scope num_scope.

(* ================================================================== *)
(** * types.ts *)
(* ================================================================== *)

(** [ConversionOptions]: every field is optional. *)
Record ConversionOptions : Type := {
  opt_preserveWidth : option num;
  opt_preserveRichness : option num;
  opt_volumeCompensation : option num;
  opt_sampleRate : option num;
  opt_quality : option num;
  opt_spectralAnalysis : option bool
}.

(** [Required<ConversionOptions>]; [sampleRate] stays nullable. *)
Record RequiredOptions : Type := {
  preserveWidth : num;
  preserveRichness : num;
  volumeCompensation : num;
  sampleRate : option num;
  quality : num;
  spectralAnalysis : bool
}.

Record AudioBuffer : Type := {
  left : Float32Array;
  right : Float32Array;
  bufferSampleRate : num
}.

Record FrequencyDistribution : Type := {
  low : num;
  mid : num;
  high : num
}.

Record StereoAnalysis : Type := {
  width : num;
  richness : num;
  rmsLevel : num;
  peakLevel : num;
  phaseCorrelation : num;
  frequencyDistribution : FrequencyDistribution
}.

Inductive Activation : Type := relu | act_tanh | sigmoid | linear.

Record NeuralLayer : Type := {
  weights : list Float32Array;
  biases : Float32Array;
  activation : Activation
}.

(** How a call ends: with a value, or with a thrown error. *)
Inductive JsError : Type := ValidationError | RangeError | TypeError.

Inductive completion (A : Type) : Type :=
| Normal (v : A)
| Throw (e : JsError).

Arguments Normal {A} v.
Arguments Throw {A} e.

(* ================================================================== *)
(** * audio-utils.ts *)
(* ================================================================== *)

Module AudioUtils.

(** The six accumulators of the loop of [analyzeStereo]. *)
Record StereoSums : Type := {
  widthSum : num;
  correlationSum : num;
  leftPowerSum : num;
  rightPowerSum : num;
  rmsSum : num;
  peakAcc : num
}.

Definition stereoSums0 : StereoSums :=
  {| widthSum := 0%R; correlationSum := 0%R; leftPowerSum := 0%R;
     rightPowerSum := 0%R; rmsSum := 0%R; peakAcc := 0%R |}.

Definition analyzeStep (l r : Float32Array) (s : StereoSums) (i : nat)
  : StereoSums :=
  let diff := abs (get l i - get r i) in
  let m := (get l i + get r i) / 2%R in
  let peak := max (abs (get l i)) (abs (get r i)) in
  {| widthSum := widthSum s + diff;
     correlationSum := correlationSum s + get l i * get r i;
     leftPowerSum := leftPowerSum s + get l i * get l i;
     rightPowerSum := rightPowerSum s + get r i * get r i;
     rmsSum := rmsSum s + m * m;
     peakAcc := if peak >? peakAcc s then peak else peakAcc s |}.

(** State of the loop of [calculateHarmonicContent]. *)
Definition harmonicStep (window : Float32Array) (s : num * nat) (i : nat)
  : num * nat :=
  let (energy, zcr) := s in
  (energy + get window i * get window i,
   if (0 <? i)%nat && (get window i * get window (i - 1) <? 0%R)
   then S zcr else zcr).

Definition calculateHarmonicContent (window : Float32Array) : num :=
  let (energy, zcr) :=
    for_loop 0 (length window) (harmonicStep window) (Fin 0, O) in
  let normalizedZcr := of_nat zcr / of_nat (length window) in
  let normalizedEnergy := sqrt (energy / of_nat (length window)) in
  normalizedZcr * normalizedEnergy * 10%R.

Definition richnessStep (l r : Float32Array) (harmonicSum : num) (i : nat)
  : num :=
  let lSlice := slice l i (i + 256) in
  let rSlice := slice r i (i + 256) in
  harmonicSum + calculateHarmonicContent lSlice
              + calculateHarmonicContent rSlice.

(** [Math.floor((length - windowSize) / (windowSize / 2)) * 2], on
    integers. *)
Definition numWindows (length : nat) : Z :=
  ((Z.of_nat length - 256) / 128 * 2)%Z.

(** The loop runs while [i < length - windowSize]; for a length below
    the window size the bound is negative in the source and 0 here, and
    no round runs either way. *)
Definition calculateRichness (buffer : AudioBuffer) : num :=
  let l := left buffer in
  let r := right buffer in
  let length := Nat.min (length l) (Z.to_nat 8192) in
  let harmonicSum :=
    for_step length 0 (length - 256) 128 (richnessStep l r) (Fin 0) in
  min 1%R (harmonicSum / of_Z (numWindows length)).

(** The three band energies of [analyzeFrequencyDistribution]. *)
Definition bandStep (l r : Float32Array) (s : num * num * num) (i : nat)
  : num * num * num :=
  let '(lowEnergy, midEnergy, highEnergy) := s in
  let lDiff := abs (get l i - get l (i - 1)) in
  let rDiff := abs (get r i - get r (i - 1)) in
  let diff := (lDiff + rDiff) / 2%R in
  if diff <? 0.1%R then
    (lowEnergy + (abs (get l i) + abs (get r i)), midEnergy, highEnergy)
  else if diff <? 0.3%R then
    (lowEnergy, midEnergy + (abs (get l i) + abs (get r i)), highEnergy)
  else
    (lowEnergy, midEnergy, highEnergy + (abs (get l i) + abs (get r i))).

Definition bandEnergies (buffer : AudioBuffer) : num * num * num :=
  let l := left buffer in
  let r := right buffer in
  let length := Nat.min (length l) (Z.to_nat 4096) in
  for_loop 1 length (bandStep l r) (Fin 0, Fin 0, Fin 0).

Definition analyzeFrequencyDistribution (buffer : AudioBuffer)
  : FrequencyDistribution :=
  let '(lowEnergy, midEnergy, highEnergy) := bandEnergies buffer in
  let total := lowEnergy + midEnergy + highEnergy in
  {| low := if total >? 0%R then lowEnergy / total else 0%R;
     mid := if total >? 0%R then midEnergy / total else 0%R;
     high := if total >? 0%R then highEnergy / total else 0%R |}.

Definition analyzeStereo (buffer : AudioBuffer) : StereoAnalysis :=
  let l := left buffer in
  let r := right buffer in
  let length := length l in
  let s := for_loop 0 length (analyzeStep l r) stereoSums0 in
  let width := min 1%R (widthSum s / of_nat length) in
  let rmsLevel := sqrt (rmsSum s / of_nat length) in
  let leftRMS := sqrt (leftPowerSum s / of_nat length) in
  let rightRMS := sqrt (rightPowerSum s / of_nat length) in
  let normalization := leftRMS * rightRMS in
  let phaseCorrelation :=
    if normalization >? 0%R
    then (correlationSum s / of_nat length) / normalization
    else 0%R in
  let richness := calculateRichness buffer in
  let frequencyDistribution := analyzeFrequencyDistribution buffer in
  {| width := width;
     richness := richness;
     rmsLevel := rmsLevel;
     peakLevel := peakAcc s;
     phaseCorrelation := phaseCorrelation;
     frequencyDistribution := frequencyDistribution |}.

Definition applyHannWindow (samples : Float32Array) : Float32Array :=
  let length := length samples in
  map (fun i =>
         let window :=
           0.5%R * (1%R - cos ((2%R * PI * of_nat i)
                               / (of_nat length - 1%R))) in
         get samples i * window)
      (seq 0 length).

Definition calculateRMS (samples : Float32Array) : num :=
  let sum :=
    for_loop 0 (length samples)
      (fun sum i => sum + get samples i * get samples i) (Fin 0) in
  sqrt (sum / of_nat (length samples)).

Definition normalize (samples : Float32Array) (targetRMS : num)
  : Float32Array :=
  let currentRMS := calculateRMS samples in
  if currentRMS =? 0%R then samples
  else
    let gain := targetRMS / currentRMS in
    map (fun i => max (-1)%R (min 1%R (get samples i * gain)))
        (seq 0 (length samples)).

(** One sample of [softClip]. *)
Definition softClipSample (x threshold : num) : num :=
  let absX := abs x in
  if absX <=? threshold then x
  else
    let sign : num := if x >=? 0%R then 1%R else (-1)%R in
    sign * (threshold
            + (1%R - threshold)
              * tanh ((absX - threshold) / (1%R - threshold))).

Definition softClip (samples : Float32Array) (threshold : num)
  : Float32Array :=
  map (fun i => softClipSample (get samples i) threshold)
      (seq 0 (length samples)).

End AudioUtils.

(* ================================================================== *)
(** * neural-network.ts *)
(* ================================================================== *)

(** [Math.random()] is the only effect of the program: the network draws
    its weights from it when it is constructed.  The generator is a
    sequence of reals in [0, 1) fixed by the environment, and the state
    threaded through the constructors is the number of draws made. *)
Module Rand.

Definition source : Type := nat -> R.

Definition M (A : Type) : Type := source -> nat -> A * nat.

Definition ret {A : Type} (a : A) : M A := fun _ n => (a, n).

Definition bind {A B : Type} (c : M A) (k : A -> M B) : M B :=
  fun rnd n => let (a, n') := c rnd n in k a rnd n'.

Definition random : M num := fun rnd n => (Fin (rnd n), S n).

(** [count] runs of [c], first to last. *)
Fixpoint repeatM {A : Type} (count : nat) (c : M A) : M (list A) :=
  match count with
  | O => ret []
  | S k => bind c (fun a => bind (repeatM k c) (fun l => ret (a :: l)))
  end.

(** The value computed from a fresh generator. *)
Definition run {A : Type} (c : M A) (rnd : source) : A := fst (c rnd O).

(** What [Math.random] promises. *)
Definition valid (rnd : source) : Prop := forall n, (0 <= rnd n < 1)%R.

End Rand.

Notation "x <- c ;; k" := (Rand.bind c (fun x => k))
  (at level 61, c at next level, right associativity).

Module NeuralNetwork.

Definition createLayer (inputSize outputSize : nat) (isOutput : bool)
  : Rand.M NeuralLayer :=
  let scale := sqrt (2%R / (of_nat inputSize + of_nat outputSize)) in
  weights <- Rand.repeatM outputSize
               (Rand.repeatM inputSize
                  (r <- Rand.random ;;
                   Rand.ret ((r * 2%R - 1%R) * scale))) ;;
  biases <- Rand.repeatM outputSize
              (r <- Rand.random ;;
               Rand.ret ((r * 2%R - 1%R) * 0.01%R)) ;;
  Rand.ret {| weights := weights;
              biases := biases;
              activation := if isOutput then linear else relu |}.

(** The loop of the constructor over consecutive pairs of [sizes]; the
    last pair makes the output layer. *)
Fixpoint createLayers (sizes : list nat) : Rand.M (list NeuralLayer) :=
  match sizes with
  | inputSize :: ((outputSize :: rest) as tl) =>
      layer <- createLayer inputSize outputSize
                 (match rest with [] => true | _ => false end) ;;
      layers <- createLayers tl ;;
      Rand.ret (layer :: layers)
  | _ => Rand.ret []
  end.

(** [new NeuralNetwork(inputSize, hiddenSizes, outputSize)] *)
Definition new (inputSize : nat) (hiddenSizes : list nat) (outputSize : nat)
  : Rand.M (list NeuralLayer) :=
  createLayers ([inputSize] ++ hiddenSizes ++ [outputSize]).

Definition activate (x : num) (a : Activation) : num :=
  match a with
  | relu => max 0%R x
  | act_tanh => tanh x
  | sigmoid => 1%R / (1%R + exp (- x))
  | linear => x
  end.

Definition forwardLayer (input : Float32Array) (layer : NeuralLayer)
  : Float32Array :=
  map (fun i =>
         let sum :=
           for_loop 0 (length input)
             (fun sum j => sum + get input j * get (nth i (weights layer) []) j)
             (get (biases layer) i) in
         activate sum (activation layer))
      (seq 0 (length (weights layer))).

Definition forward (layers : list NeuralLayer) (input : Float32Array)
  : Float32Array :=
  fold_left forwardLayer layers input.

(** [weights[i][j] *= 1.2] for [j < 5], in every layer. *)
Definition optimizeRow (row : Float32Array) : Float32Array :=
  map (fun j => if (j <? 5)%nat then get row j * 1.2%R else get row j)
      (seq 0 (length row)).

Definition optimizeForAudioPreservation (layers : list NeuralLayer)
  : list NeuralLayer :=
  map (fun layer =>
         {| weights := map optimizeRow (weights layer);
            biases := biases layer;
            activation := activation layer |})
      layers.

Definition createPretrainedAudioModel : Rand.M (list NeuralLayer) :=
  network <- new 8 [16%nat; 8%nat] 4 ;;
  Rand.ret (optimizeForAudioPreservation network).

End NeuralNetwork.

Module AudioFeatureProcessor.

(** The processor holds its network. *)
Definition new : Rand.M (list NeuralLayer) :=
  NeuralNetwork.createPretrainedAudioModel.

Definition processFeatures (network : list NeuralLayer)
  (features : Float32Array) : Float32Array :=
  let normalized :=
    map (fun i => max 0%R (min 1%R (get features i)))
        (seq 0 (length features)) in
  let weights := NeuralNetwork.forward network normalized in
  [ max 0.3%R (min 0.7%R (0.5%R + get weights 0 * 0.2%R));
    max 0.3%R (min 0.7%R (0.5%R + get weights 1 * 0.2%R));
    max 0%R (min 0.5%R (get weights 2));
    max 0%R (min 0.3%R (get weights 3)) ].

End AudioFeatureProcessor.

(* ================================================================== *)
(** * converter.ts *)
(* ================================================================== *)

Module StereoToMonoConverter.

Record t : Type := {
  options : RequiredOptions;
  processor : list NeuralLayer
}.

(** [a ?? b] *)
Definition nullish {A : Type} (a : option A) (b : A) : A :=
  match a with Some v => v | None => b end.

Definition defaults (o : ConversionOptions) : RequiredOptions :=
  {| preserveWidth := nullish (opt_preserveWidth o) 0.7%R;
     preserveRichness := nullish (opt_preserveRichness o) 0.8%R;
     volumeCompensation := nullish (opt_volumeCompensation o) 1.1%R;
     sampleRate := opt_sampleRate o;
     quality := nullish (opt_quality o) 0.8%R;
     spectralAnalysis := nullish (opt_spectralAnalysis o) true |}.

(** [new StereoToMonoConverter(options)] *)
Definition new (o : ConversionOptions) : Rand.M t :=
  p <- AudioFeatureProcessor.new ;;
  Rand.ret {| options := defaults o; processor := p |}.

Definition noOptions : ConversionOptions :=
  {| opt_preserveWidth := None; opt_preserveRichness := None;
     opt_volumeCompensation := None; opt_sampleRate := None;
     opt_quality := None; opt_spectralAnalysis := None |}.

Definition calculateMixingWeights (this : t) (analysis : StereoAnalysis)
  : Float32Array :=
  let features :=
    [ width analysis;
      richness analysis;
      rmsLevel analysis;
      peakLevel analysis;
      (phaseCorrelation analysis + 1%R) / 2%R;
      low (frequencyDistribution analysis);
      mid (frequencyDistribution analysis);
      high (frequencyDistribution analysis) ] in
  AudioFeatureProcessor.processFeatures (processor this) features.

Definition performIntelligentDownmix (this : t) (buffer : AudioBuffer)
  (analysis : StereoAnalysis) (weights : Float32Array) : Float32Array :=
  let l := left buffer in
  let r := right buffer in
  let length := length l in
  let leftWeight := get weights 0 in
  let rightWeight := get weights 1 in
  let sideGain := get weights 2 in
  map (fun i =>
         let m := get l i * leftWeight + get r i * rightWeight in
         if preserveWidth (options this) >? 0%R then
           let side :=
             (get l i - get r i) * sideGain * preserveWidth (options this) in
           m + side * 0.5%R
         else m)
      (seq 0 length).

(** One round of the windowing loop of [extractHarmonicContent].  The
    counter [i] advances by [windowSize / 2], a half-integer when
    [windowSize] is odd, so the loop runs on [i2 = 2 * i]; [slice] and
    [set] truncate their index arguments. *)
Definition windowStep (windowSize length : nat) (harmonic : Float32Array)
  (i2 : nat) : Float32Array :=
  let start := (i2 / 2)%nat in
  let stop := Nat.min ((i2 + 2 * windowSize) / 2) length in
  let windowed := AudioUtils.applyHannWindow (slice harmonic start stop) in
  set_array harmonic windowed start.

Definition extractHarmonicContent (buffer : AudioBuffer) : Float32Array :=
  let l := left buffer in
  let r := right buffer in
  let length := length l in
  let harmonic :=
    map (fun i => (get l i - get r i) * 0.5%R) (seq 0 length) in
  let windowSize := Nat.min 512 length in
  for_step (2 * length) 0 (2 * length) windowSize
    (windowStep windowSize length) harmonic.

Definition enhanceHighFrequencies (this : t) (samples : Float32Array)
  (highFreqRatio : num) : Float32Array :=
  let enhancementFactor :=
    1%R + highFreqRatio * 0.2%R * preserveRichness (options this) in
  for_loop 1 (length samples)
    (fun samples i =>
       let highFreq := (get samples i - get samples (i - 1)) * 0.5%R in
       set samples i (get samples i + highFreq * (enhancementFactor - 1%R)))
    samples.

Definition applyPreservationTechniques (this : t) (mono : Float32Array)
  (buffer : AudioBuffer) (analysis : StereoAnalysis) : Float32Array :=
  if preserveRichness (options this) =? 0%R then mono
  else
    let enhanced :=
      if spectralAnalysis (options this) && (richness analysis >? 0.3%R)
      then
        let harmonicEnhancement := extractHarmonicContent buffer in
        let richnessFactor :=
          preserveRichness (options this) * richness analysis in
        map (fun i =>
               get mono i
               + get harmonicEnhancement i * richnessFactor * 0.15%R)
            (seq 0 (length mono))
      else mono in
    if high (frequencyDistribution analysis) >? 0.2%R
    then enhanceHighFrequencies this enhanced
           (high (frequencyDistribution analysis))
    else enhanced.

Definition applyVolumeCompensation (this : t) (samples : Float32Array)
  (analysis : StereoAnalysis) : Float32Array :=
  let targetRMS := rmsLevel analysis * volumeCompensation (options this) in
  let widthCompensation := 1%R + width analysis * 0.15%R in
  let adjustedTarget := targetRMS * widthCompensation in
  AudioUtils.normalize samples adjustedTarget.

(** The body of [convert]; the source has no [throw] on this path. *)
Definition convertSamples (this : t) (buffer : AudioBuffer) : Float32Array :=
  let analysis := AudioUtils.analyzeStereo buffer in
  let mixingWeights := calculateMixingWeights this analysis in
  let mono := performIntelligentDownmix this buffer analysis mixingWeights in
  let enhanced := applyPreservationTechniques this mono buffer analysis in
  let compensated := applyVolumeCompensation this enhanced analysis in
  AudioUtils.softClip compensated 0.95%R.

Definition convert (this : t) (buffer : AudioBuffer)
  : completion Float32Array :=
  Normal (convertSamples this buffer).

Definition analyze (this : t) (buffer : AudioBuffer)
  : completion StereoAnalysis :=
  Normal (AudioUtils.analyzeStereo buffer).

Definition setOptions (this : t) (o : ConversionOptions) : t :=
  {| options :=
       {| preserveWidth :=
            nullish (opt_preserveWidth o) (preserveWidth (options this));
          preserveRichness :=
            nullish (opt_preserveRichness o)
              (preserveRichness (options this));
          volumeCompensation :=
            nullish (opt_volumeCompensation o)
              (volumeCompensation (options this));
          sampleRate :=
            match opt_sampleRate o with
            | Some v => Some v
            | None => sampleRate (options this)
            end;
          quality := nullish (opt_quality o) (quality (options this));
          spectralAnalysis :=
            nullish (opt_spectralAnalysis o)
              (spectralAnalysis (options this)) |};
     processor := processor this |}.

End StereoToMonoConverter.

(* ================================================================== *)
(** * converter.test.ts: the buffers and the width test *)
(* ================================================================== *)

Module Scenario.

(** [new Float32Array(n)] for both channels, at 44100 Hz. *)
Definition silent (n : nat) : AudioBuffer :=
  {| left := repeat (Fin 0) n;
     right := repeat (Fin 0) n;
     bufferSampleRate := 44100%R |}.

(** [left[i] = Math.sin(i * 0.1) * 0.5],
    [right[i] = Math.sin(i * 0.1 + Math.PI / 2) * 0.5], 1000 samples. *)
Definition quadrature : AudioBuffer :=
  {| left := map (fun i => sin (of_nat i * 0.1%R) * 0.5%R) (seq 0 1000);
     right :=
       map (fun i => sin (of_nat i * 0.1%R + Fin PI / 2%R) * 0.5%R)
           (seq 0 1000);
     bufferSampleRate := 44100%R |}.

Definition withWidth (w : R) : ConversionOptions :=
  {| opt_preserveWidth := Some (Fin w); opt_preserveRichness := None;
     opt_volumeCompensation := None; opt_sampleRate := None;
     opt_quality := None; opt_spectralAnalysis := None |}.

(** [diff += Math.abs(mono1[i] - mono2[i])] over [mono1]. *)
Definition summedDifference (mono1 mono2 : Float32Array) : num :=
  for_loop 0 (length mono1)
    (fun diff i => diff + abs (get mono1 i - get mono2 i)) (Fin 0).

(** 'should respect preserveWidth option': two converters, built one
    after the other, convert the same buffer; the test expects the
    returned difference to be greater than 0.5. *)
Definition preserveWidthTest (buffer : AudioBuffer) : Rand.M num :=
  converter1 <- StereoToMonoConverter.new (withWidth 0) ;;
  converter2 <- StereoToMonoConverter.new (withWidth 1) ;;
  Rand.ret
    (summedDifference
       (StereoToMonoConverter.convertSamples converter1 buffer)
       (StereoToMonoConverter.convertSamples converter2 buffer)).

(** Two samples per channel, the channels different. *)
Definition short : AudioBuffer :=
  {| left := [Fin (1 / 2); Fin (- (1 / 2))];
     right := [Fin (1 / 4); Fin 0];
     bufferSampleRate := 44100%R |}.

(** A generator whose every draw is 0.5. *)
Definition half : Rand.source := fun _ => (1 / 2)%R.

End Scenario.

(* ================================================================== *)
(** * The vocabulary of the specification *)
(* ================================================================== *)

Module Spec.

(** A sample of a valid buffer: finite, in [-1, 1]. *)
Definition valid_sample (x : num) : Prop :=
  exists r : R, x = Fin r /\ (-1 <= r <= 1)%R.

(** A valid buffer: channels of equal length, at least one sample, every
    sample valid. *)
Definition valid_buffer (b : AudioBuffer) : Prop :=
  length (left b) = length (right b) /\
  (1 <= length (left b))%nat /\
  Forall valid_sample (left b) /\
  Forall valid_sample (right b).

(** The sum of [f 0 .. f (n - 1)]. *)
Fixpoint Rsum (f : nat -> R) (n : nat) : R :=
  match n with
  | O => 0%R
  | S k => (Rsum f k + f k)%R
  end.

(** The real value of a finite number (0 otherwise). *)
Definition val (x : num) : R :=
  match x with Fin r => r | _ => 0%R end.

(** mean(X * Y) and rms(X) over the first [n] samples. *)
Definition meanProduct (x y : Float32Array) (n : nat) : R :=
  (Rsum (fun i => val (get x i) * val (get y i)) n / INR n)%R.

Definition rms (x : Float32Array) (n : nat) : R :=
  R_sqrt.sqrt (meanProduct x x n).

(** [v] clamped to [lo, hi]. *)
Definition clamp (lo hi v : R) : R := Rmax lo (Rmin hi v).

(** Mixing weights within their documented ranges. *)
Definition mix_weights_ok (w : Float32Array) : Prop :=
  exists w0 w1 w2 w3 : R,
    w = [Fin w0; Fin w1; Fin w2; Fin w3] /\
    (0.3 <= w0 <= 0.7)%R /\ (0.3 <= w1 <= 0.7)%R /\
    (0 <= w2 <= 0.5)%R /\ (0 <= w3 <= 0.3)%R.

(** sign(x), as [Math.sign]. *)
Definition sign (x : num) : num :=
  match x with
  | NaN => NaN
  | NegInf => Fin (-1)
  | Fin r => if Rltb 0 r then Fin 1 else if Rltb r 0 then Fin (-1) else Fin 0
  | PosInf => Fin 1
  end.

(** The soft-clip formula of the specification. *)
Definition softClipFormula (x threshold : num) : num :=
  sign x * (threshold
            + (1%R - threshold)
              * tanh ((abs x - threshold) / (1%R - threshold))).

End Spec.

(* ================================================================== *)
(** * Shapes of networks and arrays *)
(* ================================================================== *)

Module Shape.

(** A layer with [outputSize] neurons of [inputSize] finite weights each
    and a finite bias each. *)
Definition layer_ok (inputSize outputSize : nat) (layer : NeuralLayer)
  : Prop :=
  length (weights layer) = outputSize /\
  length (biases layer) = outputSize /\
  Forall (fun row => length row = inputSize /\ Forall is_fin row)
         (weights layer) /\
  Forall is_fin (biases layer).

(** A chain of layers from [inputSize] inputs to [outputSize] outputs. *)
Fixpoint net_ok (inputSize : nat) (layers : list NeuralLayer)
  (outputSize : nat) : Prop :=
  match layers with
  | [] => inputSize = outputSize
  | layer :: rest =>
      exists hidden : nat,
        (0 < hidden)%nat /\
        layer_ok inputSize hidden layer /\
        net_ok hidden rest outputSize
  end.

(** The layer of [inputSize] by [outputSize] zero weights and zero
    biases, and the network made of three of them. *)
Definition zeroLayer (inputSize outputSize : nat) (a : Activation)
  : NeuralLayer :=
  {| weights := repeat (repeat (Fin 0) inputSize) outputSize;
     biases := repeat (Fin 0) outputSize;
     activation := a |}.

Definition zeroNet : list NeuralLayer :=
  [zeroLayer 8 16 relu; zeroLayer 16 8 relu; zeroLayer 8 4 linear].

(** An array with a NaN in it. *)
Definition has_NaN (a : Float32Array) : Prop :=
  exists j : nat, (j < length a)%nat /\ get a j = NaN.

End Shape.

(* ================================================================== *)
(** * audio-utils.ts: resampling *)
(* ================================================================== *)

Module Resampler.

(** [Math.floor] *)
Definition floor (x : num) : num :=
  match x with
  | Fin r => Fin (IZR (Int_part r))
  | _ => x
  end.

(** The integer a finite number is truncated to (towards zero). *)
Definition truncZ (r : R) : Z :=
  if Rltb r 0 then (- Int_part (- r))%Z else Int_part r.

(** The length [new Float32Array(x)] allocates: NaN counts as 0, a
    fraction is dropped, and a negative or infinite length is a
    RangeError ([None]).  The allocation limit of the engine is not
    modelled. *)
Definition toIndex (x : num) : option nat :=
  match x with
  | NaN => Some O
  | Fin r =>
      if (truncZ r <? 0)%Z || (9007199254740991 <? truncZ r)%Z
      then None
      else Some (Z.to_nat (truncZ r))
  | _ => None
  end.

(** [a[x]] for a number [x]: the element when [x] is an integer within
    the array, [undefined] (NaN in arithmetic) otherwise. *)
Definition item (a : Float32Array) (x : num) : num :=
  match x with
  | Fin r =>
      if Reqb (IZR (Int_part r)) r && (0 <=? Int_part r)%Z
      then nth (Z.to_nat (Int_part r)) a NaN
      else NaN
  | _ => NaN
  end.

Definition resample (samples : Float32Array)
  (sourceSampleRate targetSampleRate : num) : completion Float32Array :=
  if sourceSampleRate =? targetSampleRate then Normal samples
  else
    let ratio := sourceSampleRate / targetSampleRate in
    let outputLength := floor (of_nat (length samples) / ratio) in
    match toIndex outputLength with
    | None => Throw RangeError
    | Some n =>
        Normal
          (map (fun i =>
                  let sourceIndex := of_nat i * ratio in
                  let index0 := floor sourceIndex in
                  let index1 :=
                    min (index0 + 1%R) (of_nat (length samples) - 1%R) in
                  let fraction := sourceIndex - index0 in
                  item samples index0 * (1%R - fraction)
                  + item samples index1 * fraction)
               (seq 0 n))
    end.

End Resampler.

(* ================================================================== *)
(** * index.ts: the fluent facade *)
(* ================================================================== *)

(** An options object is modelled with its keys absent ([None]) or set:
    a key explicitly set to [undefined] or [null] is not modelled, except
    by the [sampleRate] setter, whose [null] is [None]. *)
Module NeuroMono.

Record t : Type := {
  options : ConversionOptions;
  converter : option StereoToMonoConverter.t
}.

(** [new NeuroMono()] *)
Definition new : t :=
  {| options := StereoToMonoConverter.noOptions; converter := None |}.

Definition preserveWidth (this : t) (level : num) : t :=
  {| options :=
       {| opt_preserveWidth := Some (max 0%R (min 1%R level));
          opt_preserveRichness := opt_preserveRichness (options this);
          opt_volumeCompensation := opt_volumeCompensation (options this);
          opt_sampleRate := opt_sampleRate (options this);
          opt_quality := opt_quality (options this);
          opt_spectralAnalysis := opt_spectralAnalysis (options this) |};
     converter := converter this |}.

Definition preserveRichness (this : t) (level : num) : t :=
  {| options :=
       {| opt_preserveWidth := opt_preserveWidth (options this);
          opt_preserveRichness := Some (max 0%R (min 1%R level));
          opt_volumeCompensation := opt_volumeCompensation (options this);
          opt_sampleRate := opt_sampleRate (options this);
          opt_quality := opt_quality (options this);
          opt_spectralAnalysis := opt_spectralAnalysis (options this) |};
     converter := converter this |}.

Definition volumeCompensation (this : t) (factor : num) : t :=
  {| options :=
       {| opt_preserveWidth := opt_preserveWidth (options this);
          opt_preserveRichness := opt_preserveRichness (options this);
          opt_volumeCompensation := Some (max 0.5%R (min 2%R factor));
          opt_sampleRate := opt_sampleRate (options this);
          opt_quality := opt_quality (options this);
          opt_spectralAnalysis := opt_spectralAnalysis (options this) |};
     converter := converter this |}.

Definition quality (this : t) (level : num) : t :=
  {| options :=
       {| opt_preserveWidth := opt_preserveWidth (options this);
          opt_preserveRichness := opt_preserveRichness (options this);
          opt_volumeCompensation := opt_volumeCompensation (options this);
          opt_sampleRate := opt_sampleRate (options this);
          opt_quality := Some (max 0%R (min 1%R level));
          opt_spectralAnalysis := opt_spectralAnalysis (options this) |};
     converter := converter this |}.

Definition spectralAnalysis (this : t) (enabled : bool) : t :=
  {| options :=
       {| opt_preserveWidth := opt_preserveWidth (options this);
          opt_preserveRichness := opt_preserveRichness (options this);
          opt_volumeCompensation := opt_volumeCompensation (options this);
          opt_sampleRate := opt_sampleRate (options this);
          opt_quality := opt_quality (options this);
          opt_spectralAnalysis := Some enabled |};
     converter := converter this |}.

(** [sampleRate(rate)], [rate] a number or [null]. *)
Definition sampleRate (this : t) (rate : option num) : t :=
  {| options :=
       {| opt_preserveWidth := opt_preserveWidth (options this);
          opt_preserveRichness := opt_preserveRichness (options this);
          opt_volumeCompensation := opt_volumeCompensation (options this);
          opt_sampleRate := rate;
          opt_quality := opt_quality (options this);
          opt_spectralAnalysis := opt_spectralAnalysis (options this) |};
     converter := converter this |}.

(** [if (!this.converter) this.converter = new StereoToMonoConverter(...)] *)
Definition ensureConverter (this : t)
  : Rand.M (StereoToMonoConverter.t * t) :=
  match converter this with
  | Some c => Rand.ret (c, this)
  | None =>
      c <- StereoToMonoConverter.new (options this) ;;
      Rand.ret (c, {| options := options this; converter := Some c |})
  end.

(** The truth value of a number: 0 and NaN are false. *)
Definition truthy (x : num) : bool :=
  match x with
  | NaN => false
  | Fin r => negb (Reqb r 0)
  | _ => true
  end.

(** The buffer [convert] hands to the converter. *)
Definition processedBuffer (this : t) (buffer : AudioBuffer)
  : completion AudioBuffer :=
  match opt_sampleRate (options this) with
  | Some rate =>
      if truthy rate && negb (rate =? bufferSampleRate buffer) then
        match Resampler.resample (left buffer) (bufferSampleRate buffer)
                rate with
        | Throw e => Throw e
        | Normal l =>
            match Resampler.resample (right buffer)
                    (bufferSampleRate buffer) rate with
            | Throw e => Throw e
            | Normal r =>
                Normal {| left := l; right := r; bufferSampleRate := rate |}
            end
        end
      else Normal buffer
  | None => Normal buffer
  end.

Definition convert (this : t) (buffer : AudioBuffer)
  : Rand.M (completion Float32Array * t) :=
  p <- ensureConverter this ;;
  Rand.ret
    (match processedBuffer (snd p) buffer with
     | Throw e => Throw e
     | Normal b => StereoToMonoConverter.convert (fst p) b
     end,
     snd p).

Definition analyze (this : t) (buffer : AudioBuffer)
  : Rand.M (completion StereoAnalysis * t) :=
  p <- ensureConverter this ;;
  Rand.ret (StereoToMonoConverter.analyze (fst p) buffer, snd p).

(** [{ ...a, ...b }] *)
Definition merge (a b : ConversionOptions) : ConversionOptions :=
  let pick {A : Type} (x y : option A) : option A :=
    match y with Some v => Some v | None => x end in
  {| opt_preserveWidth := pick (opt_preserveWidth a) (opt_preserveWidth b);
     opt_preserveRichness :=
       pick (opt_preserveRichness a) (opt_preserveRichness b);
     opt_volumeCompensation :=
       pick (opt_volumeCompensation a) (opt_volumeCompensation b);
     opt_sampleRate := pick (opt_sampleRate a) (opt_sampleRate b);
     opt_quality := pick (opt_quality a) (opt_quality b);
     opt_spectralAnalysis :=
       pick (opt_spectralAnalysis a) (opt_spectralAnalysis b) |}.

Definition setOptions (this : t) (o : ConversionOptions) : t :=
  {| options := merge (options this) o;
     converter :=
       match converter this with
       | Some c => Some (StereoToMonoConverter.setOptions c o)
       | None => None
       end |}.

Definition getOptions (this : t) : ConversionOptions := options this.

(** [createConverter(options?)] *)
Definition createConverter (o : option ConversionOptions) : t :=
  match o with
  | Some o => setOptions new o
  | None => new
  end.

(** The quick functions [convert(buffer, options?)] and
    [analyze(buffer)]. *)
Definition quickConvert (buffer : AudioBuffer)
  (o : option ConversionOptions) : Rand.M (completion Float32Array) :=
  p <- convert (createConverter o) buffer ;;
  Rand.ret (fst p).

Definition quickAnalyze (buffer : AudioBuffer)
  : Rand.M (completion StereoAnalysis) :=
  p <- analyze (createConverter None) buffer ;;
  Rand.ret (fst p).

End NeuroMono.

(* ================================================================== *)
(** * Further inputs *)
(* ================================================================== *)

Module Example.

(** A buffer whose two channels hold the same samples. *)
Definition dual (x : Float32Array) (rate : num) : AudioBuffer :=
  {| left := x; right := x; bufferSampleRate := rate |}.

(** A converter with the default options over a given network. *)
Definition converterOver (network : list NeuralLayer)
  : StereoToMonoConverter.t :=
  {| StereoToMonoConverter.options :=
       StereoToMonoConverter.defaults StereoToMonoConverter.noOptions;
     StereoToMonoConverter.processor := network |}.

(** A facade whose converter has been created already. *)
Definition started : NeuroMono.t :=
  {| NeuroMono.options := StereoToMonoConverter.noOptions;
     NeuroMono.converter := Some (converterOver Shape.zeroNet) |}.

(** The buffer with further samples appended to the right channel. *)
Definition padRight (b : AudioBuffer) (extra : Float32Array) : AudioBuffer :=
  {| left := left b;
     right := right b ++ extra;
     bufferSampleRate := bufferSampleRate b |}.

(** Options that ask for a target sample rate only. *)
Definition withRate (rate : num) : ConversionOptions :=
  {| opt_preserveWidth := None; opt_preserveRichness := None;
     opt_volumeCompensation := None; opt_sampleRate := Some rate;
     opt_quality := None; opt_spectralAnalysis := None |}.

End Example.

(* ================================================================== *)
(** * Magnitudes of weights *)
(* ================================================================== *)

Module Range.

(** A finite number of magnitude at most [m]. *)
Definition bounded (m : R) (x : num) : Prop :=
  exists r : R, x = Fin r /\ (Rabs r <= m)%R.

(** A layer whose weights have magnitude at most 0.5 and whose biases
    have magnitude at most 0.01. *)
Definition layer_bounded (layer : NeuralLayer) : Prop :=
  Forall (Forall (bounded 0.5)) (weights layer) /\
  Forall (bounded 0.01) (biases layer).

(** An option that is absent, or set to a finite number within
    [lo, hi]. *)
Definition within (lo hi : R) (x : option num) : Prop :=
  match x with
  | None => True
  | Some v => exists r : R, v = Fin r /\ (lo <= r <= hi)%R
  end.

(** Options within the ranges the setters of the facade keep them in. *)
Definition options_ok (o : ConversionOptions) : Prop :=
  within 0 1 (opt_preserveWidth o) /\
  within 0 1 (opt_preserveRichness o) /\
  within 0.5 2 (opt_volumeCompensation o).

End Range.

(* ================================================================== *)
(** * The analysis and the weight mapper on binary64 numbers *)
(* ================================================================== *)

(** The embedding above computes on exact reals.  This one computes on
    the primitive binary64 numbers, with the rounding of every operation
    and of every store into a [Float32Array].  It covers the code that
    calls no transcendental function: the whole of [analyzeStereo] and
    the network behind [processFeatures] ([Math.tanh] and [Math.exp] are
    reached by no layer the constructor builds).  It is used to evaluate
    the code at concrete inputs. *)
Module Double.

Import PrimFloat.
Set Warnings "-inexact-float".
Local Open Scope float_scope.

(** [Math.fround]: what a [Float32Array] keeps of a number stored into
    it, the nearest binary32 number (ties to even, overflow to an
    infinity). *)
Definition fround (x : float) : float :=
  match FloatOps.Prim2SF x with
  | SpecFloat.S754_finite s m e =>
      FloatOps.SF2Prim (SpecFloat.binary_round 24 128 s m e)
  | _ => x
  end.

Definition Float32Array : Type := list float.

(** [new Float32Array([x0, x1, ...])] *)
Definition Float32Array_of (values : list float) : Float32Array :=
  map fround values.

(** [a[i]]; [undefined] is NaN in arithmetic. *)
Definition get (a : Float32Array) (i : nat) : float := nth i a nan.

(** [a.slice(start, stop)] *)
Definition slice (a : Float32Array) (start stop : nat) : Float32Array :=
  firstn (stop - start) (skipn start a).

(** An integer used as a number. *)
Definition of_Z (z : Z) : float :=
  if (z <? 0)%Z then - of_uint63 (Uint63.of_Z (- z))
  else of_uint63 (Uint63.of_Z z).

Definition of_nat (n : nat) : float := of_Z (Z.of_nat n).

Definition is_negative_zero (x : float) : bool :=
  (x =? 0) && (1 / x <? 0).

(** [Math.min] and [Math.max]: NaN when an argument is NaN, and -0 is
    below +0. *)
Definition min (x y : float) : float :=
  if is_nan x || is_nan y then nan
  else if x <? y then x
  else if y <? x then y
  else if is_negative_zero x then x else y.

Definition max (x y : float) : float :=
  if is_nan x || is_nan y then nan
  else if x <? y then y
  else if y <? x then x
  else if is_negative_zero x then y else x.

Record AudioBuffer : Type := {
  left : Float32Array;
  right : Float32Array;
  bufferSampleRate : float
}.

Record FrequencyDistribution : Type := {
  low : float;
  mid : float;
  high : float
}.

Record StereoAnalysis : Type := {
  width : float;
  richness : float;
  rmsLevel : float;
  peakLevel : float;
  phaseCorrelation : float;
  frequencyDistribution : FrequencyDistribution
}.

Module AudioUtils.

Record StereoSums : Type := {
  widthSum : float;
  correlationSum : float;
  leftPowerSum : float;
  rightPowerSum : float;
  rmsSum : float;
  peakAcc : float
}.

Definition stereoSums0 : StereoSums :=
  {| widthSum := 0; correlationSum := 0; leftPowerSum := 0;
     rightPowerSum := 0; rmsSum := 0; peakAcc := 0 |}.

Definition analyzeStep (l r : Float32Array) (s : StereoSums) (i : nat)
  : StereoSums :=
  let diff := PrimFloat.abs (get l i - get r i) in
  let m := (get l i + get r i) / 2 in
  let peak := max (PrimFloat.abs (get l i)) (PrimFloat.abs (get r i)) in
  {| widthSum := widthSum s + diff;
     correlationSum := correlationSum s + get l i * get r i;
     leftPowerSum := leftPowerSum s + get l i * get l i;
     rightPowerSum := rightPowerSum s + get r i * get r i;
     rmsSum := rmsSum s + m * m;
     peakAcc := if peakAcc s <? peak then peak else peakAcc s |}.

Definition harmonicStep (window : Float32Array) (s : float * nat) (i : nat)
  : float * nat :=
  let (energy, zcr) := s in
  (energy + get window i * get window i,
   if (0 <? i)%nat && (get window i * get window (i - 1) <? 0)
   then S zcr else zcr).

Definition calculateHarmonicContent (window : Float32Array) : float :=
  let (energy, zcr) :=
    for_loop 0 (length window) (harmonicStep window) (0, O) in
  let normalizedZcr := of_nat zcr / of_nat (length window) in
  let normalizedEnergy :=
    PrimFloat.sqrt (energy / of_nat (length window)) in
  normalizedZcr * normalizedEnergy * 10.

Definition richnessStep (l r : Float32Array) (harmonicSum : float) (i : nat)
  : float :=
  let lSlice := slice l i (i + 256) in
  let rSlice := slice r i (i + 256) in
  harmonicSum + calculateHarmonicContent lSlice
              + calculateHarmonicContent rSlice.

(** [Math.floor((length - windowSize) / (windowSize / 2)) * 2], on
    integers. *)
Definition numWindows (length : nat) : Z :=
  ((Z.of_nat length - 256) / 128 * 2)%Z.

(** The loop runs while [i < length - windowSize]; below the window
    size the bound is negative in the source and 0 here, and no round
    runs either way. *)
Definition calculateRichness (buffer : AudioBuffer) : float :=
  let l := left buffer in
  let r := right buffer in
  let length := Nat.min (length l) (Z.to_nat 8192) in
  let harmonicSum :=
    for_step length 0 (length - 256) 128 (richnessStep l r) 0 in
  min 1 (harmonicSum / of_Z (numWindows length)).

Definition bandStep (l r : Float32Array) (s : float * float * float)
  (i : nat) : float * float * float :=
  let '(lowEnergy, midEnergy, highEnergy) := s in
  let lDiff := PrimFloat.abs (get l i - get l (i - 1)) in
  let rDiff := PrimFloat.abs (get r i - get r (i - 1)) in
  let diff := (lDiff + rDiff) / 2 in
  let energy := PrimFloat.abs (get l i) + PrimFloat.abs (get r i) in
  if diff <? 0.1 then (lowEnergy + energy, midEnergy, highEnergy)
  else if diff <? 0.3 then (lowEnergy, midEnergy + energy, highEnergy)
  else (lowEnergy, midEnergy, highEnergy + energy).

Definition analyzeFrequencyDistribution (buffer : AudioBuffer)
  : FrequencyDistribution :=
  let l := left buffer in
  let r := right buffer in
  let length := Nat.min (length l) (Z.to_nat 4096) in
  let '(lowEnergy, midEnergy, highEnergy) :=
    for_loop 1 length (bandStep l r) (0, 0, 0) in
  let total := lowEnergy + midEnergy + highEnergy in
  {| low := if 0 <? total then lowEnergy / total else 0;
     mid := if 0 <? total then midEnergy / total else 0;
     high := if 0 <? total then highEnergy / total else 0 |}.

Definition analyzeStereo (buffer : AudioBuffer) : StereoAnalysis :=
  let l := left buffer in
  let r := right buffer in
  let length := length l in
  let s := for_loop 0 length (analyzeStep l r) stereoSums0 in
  let width := min 1 (widthSum s / of_nat length) in
  let rmsLevel := PrimFloat.sqrt (rmsSum s / of_nat length) in
  let leftRMS := PrimFloat.sqrt (leftPowerSum s / of_nat length) in
  let rightRMS := PrimFloat.sqrt (rightPowerSum s / of_nat length) in
  let normalization := leftRMS * rightRMS in
  let phaseCorrelation :=
    if 0 <? normalization
    then (correlationSum s / of_nat length) / normalization
    else 0 in
  let richness := calculateRichness buffer in
  let frequencyDistribution := analyzeFrequencyDistribution buffer in
  {| width := width;
     richness := richness;
     rmsLevel := rmsLevel;
     peakLevel := peakAcc s;
     phaseCorrelation := phaseCorrelation;
     frequencyDistribution := frequencyDistribution |}.

End AudioUtils.

(** [Math.random], a draw per call. *)
Module Rand.

Definition source : Type := nat -> float.

Definition M (A : Type) : Type := source -> nat -> A * nat.

Definition ret {A : Type} (a : A) : M A := fun _ n => (a, n).

Definition bind {A B : Type} (c : M A) (k : A -> M B) : M B :=
  fun rnd n => let (a, n') := c rnd n in k a rnd n'.

Definition random : M float := fun rnd n => (rnd n, S n).

Fixpoint repeatM {A : Type} (count : nat) (c : M A) : M (list A) :=
  match count with
  | O => ret []
  | S k => bind c (fun a => bind (repeatM k c) (fun l => ret (a :: l)))
  end.

End Rand.

(** The two activations the constructor assigns. *)
Inductive Activation : Type := relu | linear.

Record NeuralLayer : Type := {
  weights : list Float32Array;
  biases : Float32Array;
  activation : Activation
}.

Module NeuralNetwork.

Definition createLayer (inputSize outputSize : nat) (isOutput : bool)
  : Rand.M NeuralLayer :=
  let scale :=
    PrimFloat.sqrt (2 / (of_nat inputSize + of_nat outputSize)) in
  Rand.bind
    (Rand.repeatM outputSize
       (Rand.repeatM inputSize
          (Rand.bind Rand.random
             (fun r => Rand.ret (fround ((r * 2 - 1) * scale))))))
    (fun weights =>
       Rand.bind
         (Rand.repeatM outputSize
            (Rand.bind Rand.random
               (fun r => Rand.ret (fround ((r * 2 - 1) * 0.01)))))
         (fun biases =>
            Rand.ret {| weights := weights;
                        biases := biases;
                        activation :=
                          if isOutput then linear else relu |})).

Fixpoint createLayers (sizes : list nat) : Rand.M (list NeuralLayer) :=
  match sizes with
  | inputSize :: ((outputSize :: rest) as tl) =>
      Rand.bind
        (createLayer inputSize outputSize
           (match rest with [] => true | _ => false end))
        (fun layer =>
           Rand.bind (createLayers tl)
             (fun layers => Rand.ret (layer :: layers)))
  | _ => Rand.ret []
  end.

Definition new (inputSize : nat) (hiddenSizes : list nat) (outputSize : nat)
  : Rand.M (list NeuralLayer) :=
  createLayers ([inputSize] ++ hiddenSizes ++ [outputSize]).

Definition activate (x : float) (a : Activation) : float :=
  match a with
  | relu => max 0 x
  | linear => x
  end.

Definition forwardLayer (input : Float32Array) (layer : NeuralLayer)
  : Float32Array :=
  map (fun i =>
         let sum :=
           for_loop 0 (length input)
             (fun sum j => sum + get input j * get (nth i (weights layer) []) j)
             (get (biases layer) i) in
         fround (activate sum (activation layer)))
      (seq 0 (length (weights layer))).

Definition forward (layers : list NeuralLayer) (input : Float32Array)
  : Float32Array :=
  fold_left forwardLayer layers input.

Definition optimizeRow (row : Float32Array) : Float32Array :=
  map (fun j => if (j <? 5)%nat then fround (get row j * 1.2) else get row j)
      (seq 0 (length row)).

Definition optimizeForAudioPreservation (layers : list NeuralLayer)
  : list NeuralLayer :=
  map (fun layer =>
         {| weights := map optimizeRow (weights layer);
            biases := biases layer;
            activation := activation layer |})
      layers.

Definition createPretrainedAudioModel : Rand.M (list NeuralLayer) :=
  Rand.bind (new 8 [16%nat; 8%nat] 4)
    (fun network => Rand.ret (optimizeForAudioPreservation network)).

End NeuralNetwork.

Module AudioFeatureProcessor.

Definition new : Rand.M (list NeuralLayer) :=
  NeuralNetwork.createPretrainedAudioModel.

Definition processFeatures (network : list NeuralLayer)
  (features : Float32Array) : Float32Array :=
  let normalized :=
    map (fun i => fround (max 0 (min 1 (get features i))))
        (seq 0 (length features)) in
  let weights := NeuralNetwork.forward network normalized in
  [ fround (max 0.3 (min 0.7 (0.5 + get weights 0 * 0.2)));
    fround (max 0.3 (min 0.7 (0.5 + get weights 1 * 0.2)));
    fround (max 0 (min 0.5 (get weights 2)));
    fround (max 0 (min 0.3 (get weights 3))) ].

End AudioFeatureProcessor.

(** Concrete inputs. *)
Module Scenario.

(** Three samples, the same on both channels. *)
Definition unison : AudioBuffer :=
  {| left := Float32Array_of [0.5; 0.5; 0.25];
     right := Float32Array_of [0.5; 0.5; 0.25];
     bufferSampleRate := 44100 |}.

(** The same samples, the right channel inverted. *)
Definition inverted : AudioBuffer :=
  {| left := Float32Array_of [0.5; 0.5; 0.25];
     right := Float32Array_of [-0.5; -0.5; -0.25];
     bufferSampleRate := 44100 |}.

(** The feature vector of a buffer whose richness is NaN (256 samples of
    silence): width, richness, rmsLevel, peakLevel, (phaseCorrelation +
    1) / 2, low, mid, high. *)
Definition undefinedRichness : Float32Array :=
  Float32Array_of [0; nan; 0; 0; 0.5; 0; 0; 0].

(** A feature vector with every entry at its upper bound. *)
Definition saturated : Float32Array :=
  Float32Array_of [1; 1; 1; 1; 1; 1; 1; 1].

(** A generator whose every draw is the given number. *)
Definition constant (draw : float) : Rand.source := fun _ => draw.

End Scenario.

End Double.

(* ================================================================== *)
(** * Facts about numbers, arrays and loops *)
(* ================================================================== *)

Unset Implicit Arguments.

Section Decisions.

Variables a b : R.

Lemma Rltb_true : (a < b)%R -> Rltb a b = true.
Proof. unfold Rltb; destruct (Rlt_dec a b); intuition. Qed.

Lemma Rltb_false : (b <= a)%R -> Rltb a b = false.
Proof. unfold Rltb; destruct (Rlt_dec a b); intuition lra. Qed.

Lemma Rleb_true : (a <= b)%R -> Rleb a b = true.
Proof. unfold Rleb; destruct (Rle_dec a b); intuition. Qed.

Lemma Rleb_false : (b < a)%R -> Rleb a b = false.
Proof. unfold Rleb; destruct (Rle_dec a b); intuition lra. Qed.

Lemma Reqb_true : a = b -> Reqb a b = true.
Proof. unfold Reqb; destruct (Req_dec_T a b); intuition. Qed.

Lemma Reqb_false : a <> b -> Reqb a b = false.
Proof. unfold Reqb; destruct (Req_dec_T a b); intuition. Qed.

Lemma Rltb_spec : reflect (a < b)%R (Rltb a b).
Proof. unfold Rltb; destruct (Rlt_dec a b); constructor; assumption. Qed.

Lemma Rleb_spec : reflect (a <= b)%R (Rleb a b).
Proof. unfold Rleb; destruct (Rle_dec a b); constructor; assumption. Qed.

Lemma Reqb_spec : reflect (a = b) (Reqb a b).
Proof. unfold Reqb; destruct (Req_dec_T a b); constructor; assumption. Qed.

End Decisions.

(** Settle the tests on reals in the goal by linear arithmetic. *)
Ltac Rtests :=
  repeat first
    [ rewrite Rltb_true by lra
    | rewrite Rltb_false by lra
    | rewrite Rleb_true by lra
    | rewrite Rleb_false by lra
    | rewrite Reqb_true by lra
    | rewrite Reqb_false by lra ].

Lemma Rsign_0 : Rsign 0 = Eq.
Proof. unfold Rsign; Rtests; reflexivity. Qed.

Lemma add_NaN_r (x : num) : x + NaN = NaN.
Proof. destruct x; reflexivity. Qed.

Lemma mul_NaN_r (x : num) : x * NaN = NaN.
Proof. destruct x; reflexivity. Qed.

Lemma min_NaN_r (x : num) : min x NaN = NaN.
Proof. destruct x; reflexivity. Qed.

Lemma max_NaN_r (x : num) : max x NaN = NaN.
Proof. destruct x; reflexivity. Qed.

Lemma mul_fin_0 (x : num) : is_fin x -> x * Fin 0 = Fin 0.
Proof. destruct x; simpl; try tauto; intros _; f_equal; lra. Qed.

Lemma mul_0_fin (x : num) : is_fin x -> Fin 0 * x = Fin 0.
Proof. destruct x; simpl; try tauto; intros _; f_equal; lra. Qed.

Lemma is_fin_add (x y : num) : is_fin x -> is_fin y -> is_fin (x + y).
Proof. destruct x, y; simpl; tauto. Qed.

Lemma is_fin_sub (x y : num) : is_fin x -> is_fin y -> is_fin (x - y).
Proof. destruct x, y; simpl; tauto. Qed.

Lemma is_fin_mul (x y : num) : is_fin x -> is_fin y -> is_fin (x * y).
Proof. destruct x, y; simpl; tauto. Qed.

Lemma is_fin_max (x y : num) : is_fin x -> is_fin y -> is_fin (max x y).
Proof.
  destruct x, y; simpl; try tauto; intros _ _.
  destruct (Rltb r r0); exact I.
Qed.

Lemma is_fin_min (x y : num) : is_fin x -> is_fin y -> is_fin (min x y).
Proof.
  destruct x, y; simpl; try tauto; intros _ _.
  destruct (Rltb r r0); exact I.
Qed.

Lemma is_fin_inv (x : num) : is_fin x -> exists r, x = Fin r.
Proof. destruct x; simpl; try tauto; eauto. Qed.

(** Clamping a number that is not NaN gives the clamped real. *)
Lemma clamp_not_NaN (lo hi : R) (x : num) :
  (lo <= hi)%R -> x <> NaN ->
  exists c : R, max lo (min hi x) = Fin c /\ (lo <= c <= hi)%R.
Proof.
  intros Hle Hx. destruct x as [| | r |]; try congruence.
  - exists lo. simpl. Rtests. simpl. Rtests. split; [reflexivity | lra].
  - simpl. destruct (Rltb_spec hi r).
    + simpl. destruct (Rltb_spec lo hi).
      * exists hi. split; [reflexivity | lra].
      * exists lo. split; [reflexivity | lra].
    + simpl. destruct (Rltb_spec lo r).
      * exists r. split; [reflexivity | lra].
      * exists lo. split; [reflexivity | lra].
  - simpl. destruct (Rltb_spec lo hi).
    + exists hi. split; [reflexivity | lra].
    + exists lo. split; [reflexivity | lra].
Qed.

Lemma clamp_fin (lo hi r : R) :
  max lo (min hi (Fin r)) = Fin (Spec.clamp lo hi r).
Proof.
  unfold Spec.clamp. simpl. destruct (Rltb_spec hi r).
  - simpl. rewrite (Rmin_left hi r) by lra.
    destruct (Rltb_spec lo hi).
    + rewrite Rmax_right by lra. reflexivity.
    + rewrite Rmax_left by lra. reflexivity.
  - simpl. rewrite (Rmin_right hi r) by lra.
    destruct (Rltb_spec lo r).
    + rewrite Rmax_right by lra. reflexivity.
    + rewrite Rmax_left by lra. reflexivity.
Qed.

(** ** Arrays *)

Lemma get_repeat (x : num) (n i : nat) :
  (i < n)%nat -> get (repeat x n) i = x.
Proof.
  unfold get. revert i. induction n; intros i Hi; [lia |].
  destruct i; simpl; [reflexivity | apply IHn; lia].
Qed.

Lemma get_map_seq (f : nat -> num) (n i : nat) :
  (i < n)%nat -> get (map f (seq 0 n)) i = f i.
Proof.
  intros Hi. unfold get.
  rewrite (nth_indep _ NaN (f O)) by (rewrite length_map, length_seq; lia).
  rewrite (map_nth f (seq 0 n) O i), seq_nth by lia. reflexivity.
Qed.

Lemma length_set (a : Float32Array) (i : nat) (v : num) :
  length (set a i v) = length a.
Proof.
  revert i; induction a; intros [|i]; simpl; auto.
Qed.

Lemma map_seq_const (x : num) (f : nat -> num) (n : nat) :
  (forall i, (i < n)%nat -> f i = x) -> map f (seq 0 n) = repeat x n.
Proof.
  intros H. apply nth_ext with (d := NaN) (d' := NaN).
  - rewrite length_map, length_seq, repeat_length. reflexivity.
  - intros i Hi. rewrite length_map, length_seq in Hi.
    fold (get (map f (seq 0 n)) i). fold (get (repeat x n) i).
    rewrite get_map_seq, get_repeat by lia. auto.
Qed.

(** ** Loops *)

Lemma for_loop_S {S : Type} (stop : nat) (body : S -> nat -> S) (s : S)
  (start : nat) :
  (start <= stop)%nat ->
  for_loop start (Datatypes.S stop) body s
  = body (for_loop start stop body s) stop.
Proof.
  intros H. unfold for_loop.
  replace (Datatypes.S stop - start)%nat with (Datatypes.S (stop - start))
    by lia.
  rewrite seq_S, fold_left_app. simpl.
  replace (start + (stop - start))%nat with stop by lia. reflexivity.
Qed.

Lemma for_loop_nil {S : Type} (start stop : nat) (body : S -> nat -> S)
  (s : S) :
  (stop <= start)%nat -> for_loop start stop body s = s.
Proof.
  intros H. unfold for_loop.
  replace (stop - start)%nat with O by lia. reflexivity.
Qed.

(** An invariant kept by every round holds when the loop ends. *)
Lemma for_loop_inv {S : Type} (P : nat -> S -> Prop) (start stop : nat)
  (body : S -> nat -> S) (s : S) :
  (start <= stop)%nat ->
  P start s ->
  (forall i x, (start <= i < stop)%nat -> P i x ->
               P (Datatypes.S i) (body x i)) ->
  P stop (for_loop start stop body s).
Proof.
  intros Hle H0 Hstep. induction stop.
  - replace start with O in * by lia. exact H0.
  - destruct (Nat.eq_dec start (Datatypes.S stop)) as [->|Hne].
    + rewrite for_loop_nil by lia. exact H0.
    + rewrite for_loop_S by lia. apply Hstep; [lia |].
      apply IHstop; [lia |]. intros; apply Hstep; [lia | assumption].
Qed.

(** A state that every round keeps is the result. *)
Lemma for_loop_fixed {S : Type} (start stop : nat) (body : S -> nat -> S)
  (s : S) :
  (forall i, (start <= i < stop)%nat -> body s i = s) ->
  for_loop start stop body s = s.
Proof.
  intros H. destruct (Nat.le_gt_cases start stop) as [Hle|Hgt].
  - apply (for_loop_inv (fun _ x => x = s)); auto.
    intros i x Hi ->. auto.
  - apply for_loop_nil. lia.
Qed.

(** Fuel beyond the rounds the loop makes does not change the result. *)
Lemma for_step_fuel {S : Type} (step stop : nat) (body : S -> nat -> S) :
  (0 < step)%nat ->
  forall fuel fuel' i s,
    (stop - i <= fuel)%nat -> (stop - i <= fuel')%nat ->
    for_step fuel i stop step body s = for_step fuel' i stop step body s.
Proof.
  intros Hstep. induction fuel; intros fuel' i s H H'.
  - destruct fuel'; simpl; [reflexivity |].
    destruct (Nat.ltb_spec i stop); [lia | reflexivity].
  - destruct fuel'; simpl.
    + destruct (Nat.ltb_spec i stop); [lia | reflexivity].
    + destruct (Nat.ltb_spec i stop); [| reflexivity].
      apply IHfuel; lia.
Qed.

Lemma for_step_done {S : Type} (fuel i stop step : nat)
  (body : S -> nat -> S) (s : S) :
  (stop <= i)%nat -> for_step fuel i stop step body s = s.
Proof.
  intros H. destruct fuel; simpl; [reflexivity |].
  destruct (Nat.ltb_spec i stop); [lia | reflexivity].
Qed.

Lemma for_step_inv {S : Type} (P : S -> Prop) (stop step : nat)
  (body : S -> nat -> S) :
  (forall i x, (i < stop)%nat -> P x -> P (body x i)) ->
  forall fuel i s, P s -> P (for_step fuel i stop step body s).
Proof.
  intros Hbody. induction fuel; intros i s Hs; simpl; [assumption |].
  destruct (Nat.ltb_spec i stop); [| assumption].
  apply IHfuel. apply Hbody; assumption.
Qed.

(* ================================================================== *)
(** * Lengths of the stages of [convert] *)
(* ================================================================== *)

Lemma length_softClip (samples : Float32Array) (threshold : num) :
  length (AudioUtils.softClip samples threshold) = length samples.
Proof. unfold AudioUtils.softClip. now rewrite length_map, length_seq. Qed.

Lemma length_normalize (samples : Float32Array) (targetRMS : num) :
  length (AudioUtils.normalize samples targetRMS) = length samples.
Proof.
  unfold AudioUtils.normalize.
  destruct (AudioUtils.calculateRMS samples =? 0%R); [reflexivity |].
  now rewrite length_map, length_seq.
Qed.

Lemma length_enhanceHighFrequencies this samples ratio :
  length (StereoToMonoConverter.enhanceHighFrequencies this samples ratio)
  = length samples.
Proof.
  unfold StereoToMonoConverter.enhanceHighFrequencies.
  destruct (Nat.le_gt_cases 1 (length samples)) as [Hle|Hgt].
  - apply (for_loop_inv (fun _ a => length a = length samples));
      [assumption | reflexivity |].
    intros i a _ Ha. now rewrite length_set.
  - now rewrite for_loop_nil by lia.
Qed.

Lemma length_applyPreservationTechniques this mono b analysis :
  length (StereoToMonoConverter.applyPreservationTechniques
            this mono b analysis)
  = length mono.
Proof.
  unfold StereoToMonoConverter.applyPreservationTechniques.
  destruct (preserveRichness _ =? 0%R); [reflexivity |].
  destruct (high _ >? 0.2%R);
    [rewrite length_enhanceHighFrequencies |];
    (destruct (spectralAnalysis _ && _);
     [now rewrite length_map, length_seq | reflexivity]).
Qed.

Lemma length_performIntelligentDownmix this b analysis w :
  length (StereoToMonoConverter.performIntelligentDownmix this b analysis w)
  = length (left b).
Proof.
  unfold StereoToMonoConverter.performIntelligentDownmix.
  now rewrite length_map, length_seq.
Qed.

Lemma length_convertSamples this b :
  length (StereoToMonoConverter.convertSamples this b) = length (left b).
Proof.
  unfold StereoToMonoConverter.convertSamples,
    StereoToMonoConverter.applyVolumeCompensation.
  rewrite length_softClip, length_normalize,
    length_applyPreservationTechniques.
  apply length_performIntelligentDownmix.
Qed.

(** C2: for every valid stereo buffer (channels of equal length, at least
    one sample) and every configuration, [convert] returns a mono sequence
    whose length is the input channel length. *)
Theorem convert_output_length (this : StereoToMonoConverter.t)
  (b : AudioBuffer) :
  length (left b) = length (right b) ->
  (1 <= length (left b))%nat ->
  exists mono : Float32Array,
    StereoToMonoConverter.convert this b = Normal mono /\
    length mono = length (left b).
Proof.
  intros _ _. eexists. split; [reflexivity |].
  apply length_convertSamples.
Qed.

Lemma convert_output_length_witness :
  exists mono : Float32Array,
    StereoToMonoConverter.convert
      (Rand.run (StereoToMonoConverter.new StereoToMonoConverter.noOptions)
         Scenario.half)
      (Scenario.silent 3)
    = Normal mono /\
    length mono = 3%nat.
Proof.
  apply (convert_output_length
           (Rand.run
              (StereoToMonoConverter.new StereoToMonoConverter.noOptions)
              Scenario.half)
           (Scenario.silent 3)).
  - reflexivity.
  - simpl. lia.
Defined.

(* ================================================================== *)
(** * The soft-clip primitive *)
(* ================================================================== *)

Lemma softClipSample_formula (x : num) (t : R) :
  (0 < t < 1)%R ->
  AudioUtils.softClipSample x t
  = if abs x <=? t then x else Spec.softClipFormula x t.
Proof.
  intros Ht. unfold AudioUtils.softClipSample, Spec.softClipFormula.
  destruct x as [| | r |]; try reflexivity.
  cbn [abs le Spec.sign ge].
  destruct (Rleb_spec (Rabs r) t) as [Hle|Hgt]; [reflexivity |].
  assert (Hr : (t < Rabs r)%R) by lra.
  unfold Rabs in Hr. destruct (Rcase_abs r).
  - rewrite (@Rleb_false 0 r), (@Rltb_false 0 r), (@Rltb_true r 0) by lra.
    reflexivity.
  - rewrite (@Rleb_true 0 r), (@Rltb_true 0 r) by lra. reflexivity.
Qed.

(** C8: for every sample [x] and every threshold [t] in (0,1), [softClip]
    returns [x] itself when [|x| <= t], and otherwise
    [sign(x) * (t + (1-t) * tanh((|x|-t)/(1-t)))]. *)
Theorem softClip_formula (samples : Float32Array) (t : R) (i : nat) :
  (0 < t < 1)%R ->
  (i < length samples)%nat ->
  get (AudioUtils.softClip samples t) i
  = if abs (get samples i) <=? t
    then get samples i
    else Spec.softClipFormula (get samples i) t.
Proof.
  intros Ht Hi. unfold AudioUtils.softClip.
  rewrite get_map_seq by assumption.
  apply softClipSample_formula; assumption.
Qed.

Lemma softClip_formula_witness :
  get (AudioUtils.softClip [Fin (1 / 2); Fin 2] (9 / 10)%R) 1
  = if abs (get [Fin (1 / 2); Fin 2] 1) <=? (9 / 10)%R
    then get [Fin (1 / 2); Fin 2] 1
    else Spec.softClipFormula (get [Fin (1 / 2); Fin 2] 1) (9 / 10)%R.
Proof.
  apply (softClip_formula [Fin (1 / 2); Fin 2] (9 / 10)%R 1%nat).
  - lra.
  - simpl. lia.
Defined.

(* ================================================================== *)
(** * The network: shape, finiteness and the spread of NaN *)
(* ================================================================== *)

Lemma Forall_get (P : num -> Prop) (a : Float32Array) (i : nat) :
  Forall P a -> (i < length a)%nat -> P (get a i).
Proof.
  intros H Hi. unfold get. rewrite Forall_forall in H.
  apply H, nth_In, Hi.
Qed.

Lemma Forall_map_seq (P : num -> Prop) (f : nat -> num) (n : nat) :
  (forall i, (i < n)%nat -> P (f i)) -> Forall P (map f (seq 0 n)).
Proof.
  intros H. rewrite Forall_forall. intros x Hx.
  apply in_map_iff in Hx. destruct Hx as [i [<- Hi]].
  apply in_seq in Hi. apply H. lia.
Qed.

Section RepeatM.

Variable A : Type.
Variable c : Rand.M A.
Variable rnd : Rand.source.

Lemma repeatM_Forall (P : A -> Prop) :
  (forall n, P (fst (c rnd n))) ->
  forall count n,
    Forall P (fst (Rand.repeatM count c rnd n)) /\
    length (fst (Rand.repeatM count c rnd n)) = count.
Proof.
  intros Hc. induction count; intros n; simpl.
  - split; [constructor | reflexivity].
  - unfold Rand.bind. specialize (Hc n).
    destruct (c rnd n) as [a n'].
    specialize (IHcount n').
    destruct (Rand.repeatM count c rnd n') as [l n''].
    simpl in *. destruct IHcount as [IH1 IH2].
    split; [constructor; assumption | congruence].
Qed.

Lemma repeatM_const (v : A) :
  (forall n, fst (c rnd n) = v) ->
  forall count n, fst (Rand.repeatM count c rnd n) = repeat v count.
Proof.
  intros Hc. induction count; intros n; simpl; [reflexivity |].
  unfold Rand.bind. specialize (Hc n).
  destruct (c rnd n) as [a n'].
  specialize (IHcount n').
  destruct (Rand.repeatM count c rnd n') as [l n''].
  simpl in *. congruence.
Qed.

End RepeatM.

Lemma scale_fin (inputSize outputSize : nat) :
  (0 < inputSize + outputSize)%nat ->
  is_fin (sqrt (2%R / (of_nat inputSize + of_nat outputSize))).
Proof.
  intros H. unfold of_nat. cbn [add div].
  assert (Hpos : (0 < INR inputSize + INR outputSize)%R).
  { rewrite <- plus_INR. apply lt_0_INR. assumption. }
  rewrite Reqb_false by lra. cbn [sqrt].
  rewrite Rltb_false; [exact I |].
  apply Rlt_le, Rdiv_lt_0_compat; lra.
Qed.

Lemma createLayer_ok (inputSize outputSize : nat) (isOutput : bool)
  (rnd : Rand.source) (n : nat) :
  (0 < inputSize + outputSize)%nat ->
  Shape.layer_ok inputSize outputSize
    (fst (NeuralNetwork.createLayer inputSize outputSize isOutput rnd n)).
Proof.
  intros Hpos. unfold NeuralNetwork.createLayer.
  destruct (is_fin_inv _ (scale_fin inputSize outputSize Hpos)) as [sc ->].
  unfold Rand.bind at 1.
  match goal with
  | |- context [Rand.repeatM outputSize ?c rnd n] =>
      pose proof (@repeatM_Forall _ c rnd
                    (fun row => length row = inputSize /\ Forall is_fin row))
        as Hw
  end.
  match type of Hw with
  | ?H -> _ => assert (Hrow : H)
  end.
  { intros k.
    match goal with
    | |- context [Rand.repeatM inputSize ?c rnd k] =>
        destruct (@repeatM_Forall _ c rnd is_fin
                    (fun m => I) inputSize k) as [H1 H2]
    end.
    split; assumption. }
  specialize (Hw Hrow outputSize n).
  destruct (Rand.repeatM outputSize _ rnd n) as [w n'].
  unfold Rand.bind at 1.
  match goal with
  | |- context [Rand.repeatM outputSize ?c rnd n'] =>
      destruct (@repeatM_Forall _ c rnd is_fin (fun m => I) outputSize n')
        as [Hb1 Hb2]
  end.
  destruct (Rand.repeatM outputSize _ rnd n') as [bs n''].
  simpl in *. unfold Shape.layer_ok; simpl. tauto.
Qed.

Lemma optimizeRow_ok (inputSize : nat) (row : Float32Array) :
  length row = inputSize /\ Forall is_fin row ->
  length (NeuralNetwork.optimizeRow row) = inputSize /\
  Forall is_fin (NeuralNetwork.optimizeRow row).
Proof.
  intros [Hlen Hfin]. unfold NeuralNetwork.optimizeRow. split.
  - now rewrite length_map, length_seq.
  - apply Forall_map_seq. intros i Hi.
    pose proof (Forall_get _ _ _ Hfin Hi) as Hg.
    destruct (i <? 5)%nat; [apply is_fin_mul; [assumption | exact I] |].
    assumption.
Qed.

Lemma optimize_layer_ok (inputSize outputSize : nat) (layer : NeuralLayer) :
  Shape.layer_ok inputSize outputSize layer ->
  Shape.layer_ok inputSize outputSize
    {| weights := map NeuralNetwork.optimizeRow (weights layer);
       biases := biases layer;
       activation := activation layer |}.
Proof.
  intros (Hw & Hb & Hrows & Hbias). unfold Shape.layer_ok; simpl.
  repeat split; try assumption.
  - now rewrite length_map.
  - rewrite Forall_map. eapply Forall_impl; [| exact Hrows].
    intros row. apply optimizeRow_ok.
Qed.

Lemma optimize_net_ok (layers : list NeuralLayer) :
  forall inputSize outputSize,
    Shape.net_ok inputSize layers outputSize ->
    Shape.net_ok inputSize
      (NeuralNetwork.optimizeForAudioPreservation layers) outputSize.
Proof.
  induction layers as [| layer rest IH]; intros i o H; simpl in *.
  - assumption.
  - destruct H as (h & Hh & Hl & Hrest). exists h.
    split; [assumption |].
    split; [apply optimize_layer_ok, Hl | apply IH, Hrest].
Qed.

(** The network of a processor: 8 inputs, 16 and 8 hidden units, 4
    outputs, all weights finite, whatever the generator draws. *)
Lemma processor_net_ok (rnd : Rand.source) (n : nat) :
  Shape.net_ok 8 (fst (AudioFeatureProcessor.new rnd n)) 4.
Proof.
  unfold AudioFeatureProcessor.new, NeuralNetwork.createPretrainedAudioModel,
    NeuralNetwork.new.
  cbn [app NeuralNetwork.createLayers].
  unfold Rand.bind at 1. unfold Rand.bind at 1.
  pose proof (@createLayer_ok 8 16 false rnd n ltac:(lia)) as H1.
  destruct (NeuralNetwork.createLayer 8 16 false rnd n) as [l1 n1].
  unfold Rand.bind at 1. unfold Rand.bind at 1.
  pose proof (@createLayer_ok 16 8 false rnd n1 ltac:(lia)) as H2.
  destruct (NeuralNetwork.createLayer 16 8 false rnd n1) as [l2 n2].
  unfold Rand.bind at 1. unfold Rand.bind at 1.
  pose proof (@createLayer_ok 8 4 true rnd n2 ltac:(lia)) as H3.
  destruct (NeuralNetwork.createLayer 8 4 true rnd n2) as [l3 n3].
  cbn [Rand.ret fst]. apply optimize_net_ok. simpl in *.
  exists 16%nat. split; [lia |]. split; [exact H1 |].
  exists 8%nat. split; [lia |]. split; [exact H2 |].
  exists 4%nat. split; [lia |]. split; [exact H3 | reflexivity].
Qed.

Lemma is_fin_activate (x : num) (a : Activation) :
  is_fin x -> is_fin (NeuralNetwork.activate x a).
Proof.
  destruct x as [| | r |]; simpl; try tauto. intros _.
  destruct a; simpl; try exact I.
  - destruct (Rltb 0 r); exact I.
  - pose proof (exp_pos (- r)). rewrite Reqb_false by lra. exact I.
Qed.

Lemma forwardLayer_fin (inputSize outputSize : nat) (layer : NeuralLayer)
  (input : Float32Array) :
  Shape.layer_ok inputSize outputSize layer ->
  length input = inputSize ->
  Forall is_fin input ->
  length (NeuralNetwork.forwardLayer input layer) = outputSize /\
  Forall is_fin (NeuralNetwork.forwardLayer input layer).
Proof.
  intros (Hw & Hb & Hrows & Hbias) Hlen Hin.
  unfold NeuralNetwork.forwardLayer. split.
  - now rewrite length_map, length_seq.
  - apply Forall_map_seq. intros i Hi. apply is_fin_activate.
    assert (Hrow : length (nth i (weights layer) []) = inputSize /\
                   Forall is_fin (nth i (weights layer) [])).
    { rewrite Forall_forall in Hrows. apply Hrows, nth_In, Hi. }
    destruct Hrow as [Hrl Hrf].
    apply (for_loop_inv (fun _ s => is_fin s)); [lia | |].
    + apply Forall_get; [assumption | lia].
    + intros j s Hj Hs. apply is_fin_add; [assumption |].
      apply is_fin_mul; apply Forall_get; try assumption; lia.
Qed.

Lemma forward_fin (layers : list NeuralLayer) :
  forall inputSize outputSize input,
    Shape.net_ok inputSize layers outputSize ->
    length input = inputSize ->
    Forall is_fin input ->
    length (NeuralNetwork.forward layers input) = outputSize /\
    Forall is_fin (NeuralNetwork.forward layers input).
Proof.
  induction layers as [| layer rest IH]; intros i o input H Hlen Hin;
    simpl in *.
  - subst. split; [reflexivity | assumption].
  - destruct H as (h & Hh & Hl & Hrest).
    destruct (forwardLayer_fin _ _ _ _ Hl Hlen Hin) as [Hlen' Hin'].
    apply (IH h o); assumption.
Qed.

(** ** NaN spreads through every layer *)

Lemma activate_NaN (a : Activation) : NeuralNetwork.activate NaN a = NaN.
Proof. destruct a; reflexivity. Qed.

Lemma sum_NaN (input row : Float32Array) (bias : num) :
  Shape.has_NaN input ->
  for_loop 0 (length input)
    (fun sum j => sum + get input j * get row j) bias = NaN.
Proof.
  intros (k & Hk & Hnan).
  generalize Hk.
  apply (@for_loop_inv _ (fun i s => (k < i)%nat -> s = NaN)
           0 (length input)
           (fun sum j => sum + get input j * get row j) bias);
    [lia | lia |].
  intros i s Hi IHs Hlt.
  destruct (Nat.eq_dec i k) as [->|Hne].
  - rewrite Hnan. simpl. apply add_NaN_r.
  - rewrite IHs by lia. reflexivity.
Qed.

Lemma forwardLayer_NaN (layer : NeuralLayer) (input : Float32Array) :
  Shape.has_NaN input ->
  NeuralNetwork.forwardLayer input layer
  = repeat NaN (length (weights layer)).
Proof.
  intros H. unfold NeuralNetwork.forwardLayer.
  apply map_seq_const. intros i _.
  rewrite sum_NaN by assumption. apply activate_NaN.
Qed.

Lemma repeat_has_NaN (n : nat) :
  (0 < n)%nat -> Shape.has_NaN (repeat NaN n).
Proof.
  intros H. exists O. rewrite repeat_length. split; [assumption |].
  apply get_repeat. assumption.
Qed.

Lemma forward_NaN (layers : list NeuralLayer) :
  forall inputSize outputSize input,
    Shape.net_ok inputSize layers outputSize ->
    layers <> [] ->
    Shape.has_NaN input ->
    NeuralNetwork.forward layers input = repeat NaN outputSize.
Proof.
  induction layers as [| layer rest IH]; intros i o input H Hne Hin;
    [congruence |].
  simpl in *. destruct H as (h & Hh & Hl & Hrest).
  rewrite (forwardLayer_NaN layer _ Hin).
  destruct Hl as (Hw & _). rewrite Hw.
  destruct rest as [| layer' rest'].
  - simpl in *. now subst.
  - apply (IH h o); [assumption | congruence |].
    apply repeat_has_NaN; assumption.
Qed.

(* ================================================================== *)
(** * Silent buffers *)
(* ================================================================== *)

Lemma zero_add : Fin 0 + Fin 0 = Fin 0.
Proof. simpl; f_equal; lra. Qed.

Lemma zero_sub : Fin 0 - Fin 0 = Fin 0.
Proof. unfold sub; simpl; f_equal; lra. Qed.

Lemma zero_mul : Fin 0 * Fin 0 = Fin 0.
Proof. simpl; f_equal; lra. Qed.

Lemma zero_abs : abs (Fin 0) = Fin 0.
Proof. simpl; f_equal; apply Rabs_R0. Qed.

Lemma zero_sqrt : sqrt (Fin 0) = Fin 0.
Proof. simpl. Rtests. f_equal. apply sqrt_0. Qed.

Lemma zero_div (r : R) : r <> 0%R -> Fin 0 / Fin r = Fin 0.
Proof. intros H. simpl. rewrite Reqb_false by assumption. f_equal. lra. Qed.

Lemma zero_div_zero : Fin 0 / Fin 0 = NaN.
Proof. simpl. rewrite Reqb_true by reflexivity. now rewrite Rsign_0. Qed.

Lemma zero_max : max (Fin 0) (Fin 0) = Fin 0.
Proof. simpl. Rtests. reflexivity. Qed.

Ltac zeros :=
  repeat first
    [ rewrite zero_add | rewrite zero_sub | rewrite zero_mul
    | rewrite zero_abs | rewrite zero_sqrt | rewrite zero_max ].

Lemma Forall_slice (P : num -> Prop) (a : Float32Array) (start stop : nat) :
  Forall P a -> Forall P (slice a start stop).
Proof.
  intros H. unfold slice.
  rewrite <- (firstn_skipn start a) in H. apply Forall_app in H.
  destruct H as [_ H].
  rewrite <- (firstn_skipn (stop - start) (skipn start a)) in H.
  apply Forall_app in H. tauto.
Qed.

Lemma slice_repeat (x : num) (n start stop : nat) :
  slice (repeat x n) start stop
  = repeat x (Nat.min (stop - start) (n - start)).
Proof.
  unfold slice.
  assert (Hlen : length (firstn (stop - start) (skipn start (repeat x n)))
                 = Nat.min (stop - start) (n - start)).
  { now rewrite length_firstn, length_skipn, repeat_length. }
  rewrite <- Hlen. apply Forall_eq_repeat.
  apply (Forall_slice (eq x)).
  rewrite Forall_forall. intros y Hy. symmetry.
  apply (repeat_spec _ _ _ Hy).
Qed.

Lemma INR_not_0 (n : nat) : (0 < n)%nat -> INR n <> 0%R.
Proof. intros H. apply not_0_INR. lia. Qed.

Lemma harmonicContent_silent (k : nat) :
  (0 < k)%nat ->
  AudioUtils.calculateHarmonicContent (repeat (Fin 0) k) = Fin 0.
Proof.
  intros Hk. unfold AudioUtils.calculateHarmonicContent.
  rewrite repeat_length.
  rewrite for_loop_fixed.
  - unfold of_nat. simpl INR at 1.
    rewrite !zero_div by (apply INR_not_0; assumption).
    rewrite zero_sqrt, zero_mul. simpl. f_equal. lra.
  - intros i Hi. unfold AudioUtils.harmonicStep.
    rewrite !get_repeat by lia.
    destruct i as [| i].
    + rewrite zero_mul, zero_add. reflexivity.
    + rewrite zero_mul, zero_add. simpl. Rtests. reflexivity.
Qed.

(** The richness of a silent buffer is 0, unless the window count is 0:
    then it is 0/0. *)
Lemma richness_silent (n : nat) :
  AudioUtils.calculateRichness (Scenario.silent n)
  = if (AudioUtils.numWindows (Nat.min n (Z.to_nat 8192)) =? 0)%Z
    then NaN else Fin 0.
Proof.
  unfold AudioUtils.calculateRichness, Scenario.silent.
  cbn [left right]. rewrite repeat_length.
  set (len := Nat.min n (Z.to_nat 8192)).
  assert (Hsum :
    for_step len 0 (len - 256) 128
      (AudioUtils.richnessStep (repeat (Fin 0) n) (repeat (Fin 0) n)) (Fin 0)
    = Fin 0).
  { apply (for_step_inv (fun s => s = Fin 0)); [| reflexivity].
    intros i s Hi ->. unfold AudioUtils.richnessStep.
    rewrite slice_repeat.
    rewrite harmonicContent_silent by (unfold len in Hi; lia).
    rewrite !zero_add. reflexivity. }
  rewrite Hsum. unfold of_Z.
  destruct (Z.eqb_spec (AudioUtils.numWindows len) 0) as [-> | Hne].
  - rewrite zero_div_zero. reflexivity.
  - rewrite zero_div by (apply not_0_IZR; assumption).
    simpl. Rtests. reflexivity.
Qed.

Lemma bandEnergies_silent (n : nat) :
  AudioUtils.bandEnergies (Scenario.silent n) = (Fin 0, Fin 0, Fin 0).
Proof.
  unfold AudioUtils.bandEnergies, Scenario.silent.
  cbn [left right]. rewrite repeat_length.
  apply for_loop_fixed. intros i Hi. unfold AudioUtils.bandStep.
  rewrite !get_repeat by lia.
  zeros.
  rewrite zero_div by lra. simpl. Rtests. reflexivity.
Qed.

Lemma frequencyDistribution_silent (n : nat) :
  AudioUtils.analyzeFrequencyDistribution (Scenario.silent n)
  = {| low := 0%R; mid := 0%R; high := 0%R |}.
Proof.
  unfold AudioUtils.analyzeFrequencyDistribution.
  rewrite bandEnergies_silent. rewrite !zero_add.
  unfold gt. simpl. Rtests. reflexivity.
Qed.

Lemma stereoSums_silent (n : nat) :
  for_loop 0 n
    (AudioUtils.analyzeStep (repeat (Fin 0) n) (repeat (Fin 0) n))
    AudioUtils.stereoSums0
  = AudioUtils.stereoSums0.
Proof.
  apply for_loop_fixed. intros i Hi.
  unfold AudioUtils.analyzeStep, AudioUtils.stereoSums0.
  rewrite !get_repeat by lia. cbn [AudioUtils.widthSum
    AudioUtils.correlationSum AudioUtils.leftPowerSum
    AudioUtils.rightPowerSum AudioUtils.rmsSum AudioUtils.peakAcc].
  zeros. rewrite zero_div by lra.
  zeros. unfold gt. simpl. Rtests. reflexivity.
Qed.

(** The analysis of a silent buffer with at least one sample. *)
Lemma analyzeStereo_silent (n : nat) :
  (0 < n)%nat ->
  AudioUtils.analyzeStereo (Scenario.silent n)
  = {| width := 0%R;
       richness := AudioUtils.calculateRichness (Scenario.silent n);
       rmsLevel := 0%R;
       peakLevel := 0%R;
       phaseCorrelation := 0%R;
       frequencyDistribution := {| low := 0%R; mid := 0%R; high := 0%R |} |}.
Proof.
  intros Hn. unfold AudioUtils.analyzeStereo.
  rewrite frequencyDistribution_silent.
  change (left (Scenario.silent n)) with (repeat (Fin 0) n).
  change (right (Scenario.silent n)) with (repeat (Fin 0) n).
  rewrite repeat_length, stereoSums_silent.
  unfold AudioUtils.stereoSums0. cbn [AudioUtils.widthSum
    AudioUtils.correlationSum AudioUtils.leftPowerSum
    AudioUtils.rightPowerSum AudioUtils.rmsSum AudioUtils.peakAcc].
  unfold of_nat. rewrite !zero_div by (apply INR_not_0; assumption).
  rewrite zero_sqrt, zero_mul. unfold gt. simpl. Rtests. reflexivity.
Qed.

(* ================================================================== *)
(** * The weight mapper *)
(* ================================================================== *)

Lemma map_get_seq (f : num -> num) (a : Float32Array) :
  map (fun i => f (get a i)) (seq 0 (length a)) = map f a.
Proof.
  apply nth_ext with (d := NaN) (d' := f NaN).
  - now rewrite !length_map, length_seq.
  - intros i Hi. rewrite length_map, length_seq in Hi.
    fold (get (map (fun i => f (get a i)) (seq 0 (length a))) i).
    rewrite get_map_seq by assumption.
    rewrite (map_nth f a NaN i). reflexivity.
Qed.

Lemma clamp_range (lo hi v : R) :
  (lo <= hi)%R -> (lo <= Spec.clamp lo hi v <= hi)%R.
Proof.
  intros H. unfold Spec.clamp. split.
  - apply Rmax_l.
  - apply Rmax_lub; [assumption | apply Rmin_l].
Qed.

Lemma normalized_fin (features : Float32Array) :
  Forall (fun x => x <> NaN) features ->
  Forall (fun x => exists c : R, x = Fin c /\ (0 <= c <= 1)%R)
         (map (fun x => max 0%R (min 1%R x)) features).
Proof.
  intros H. rewrite Forall_map. eapply Forall_impl; [| exact H].
  intros x Hx. apply clamp_not_NaN; [lra | assumption].
Qed.

Lemma fin_list4 (l : Float32Array) :
  length l = 4%nat -> Forall is_fin l ->
  exists r0 r1 r2 r3 : R, l = [Fin r0; Fin r1; Fin r2; Fin r3].
Proof.
  intros Hlen H.
  destruct l as [| x0 [| x1 [| x2 [| x3 [| x4 l]]]]]; try discriminate.
  inversion H as [| ? ? H0 H']; subst.
  inversion H' as [| ? ? H1 H'']; subst.
  inversion H'' as [| ? ? H2 H''']; subst.
  inversion H''' as [| ? ? H3 _]; subst.
  destruct (is_fin_inv _ H0) as [r0 ->], (is_fin_inv _ H1) as [r1 ->],
    (is_fin_inv _ H2) as [r2 ->], (is_fin_inv _ H3) as [r3 ->].
  now exists r0, r1, r2, r3.
Qed.

(** On a network of finite weights, features without NaN are mapped to
    the clamped outputs of the forward pass. *)
Lemma processFeatures_net_ok (network : list NeuralLayer)
  (features : Float32Array) :
  Shape.net_ok 8 network 4 ->
  length features = 8%nat ->
  Forall (fun x => x <> NaN) features ->
  exists raw0 raw1 raw2 raw3 : R,
    NeuralNetwork.forward network
      (map (fun x => max 0%R (min 1%R x)) features)
    = [Fin raw0; Fin raw1; Fin raw2; Fin raw3] /\
    AudioFeatureProcessor.processFeatures network features
    = [Fin (Spec.clamp 0.3 0.7 (0.5 + raw0 * 0.2));
       Fin (Spec.clamp 0.3 0.7 (0.5 + raw1 * 0.2));
       Fin (Spec.clamp 0 0.5 raw2);
       Fin (Spec.clamp 0 0.3 raw3)].
Proof.
  intros Hnet Hlen Hfeat.
  unfold AudioFeatureProcessor.processFeatures.
  rewrite (map_get_seq (fun x => max 0%R (min 1%R x)) features).
  pose proof (normalized_fin _ Hfeat) as Hnorm.
  assert (Hfin : Forall is_fin (map (fun x => max 0%R (min 1%R x)) features)).
  { eapply Forall_impl; [| exact Hnorm]. intros x (c & -> & _). exact I. }
  destruct (@forward_fin network 8 4
              (map (fun x => max 0%R (min 1%R x)) features) Hnet)
    as [Hl Hf]; [now rewrite length_map | assumption |].
  destruct (fin_list4 _ Hl Hf) as (r0 & r1 & r2 & r3 & ->).
  exists r0, r1, r2, r3. split; [reflexivity |].
  cbn [get nth]. cbn [mul add]. rewrite !clamp_fin. reflexivity.
Qed.

Lemma processFeatures_range (network : list NeuralLayer)
  (features : Float32Array) :
  Shape.net_ok 8 network 4 ->
  length features = 8%nat ->
  Forall (fun x => x <> NaN) features ->
  Spec.mix_weights_ok
    (AudioFeatureProcessor.processFeatures network features).
Proof.
  intros Hnet Hlen Hfeat.
  destruct (processFeatures_net_ok _ _ Hnet Hlen Hfeat)
    as (r0 & r1 & r2 & r3 & _ & ->).
  unfold Spec.mix_weights_ok. do 4 eexists. split; [reflexivity |].
  repeat split; apply clamp_range; lra.
Qed.

(** A NaN among the features makes every weight NaN. *)
Lemma processFeatures_NaN (network : list NeuralLayer)
  (features : Float32Array) :
  Shape.net_ok 8 network 4 ->
  network <> [] ->
  Shape.has_NaN features ->
  AudioFeatureProcessor.processFeatures network features
  = [NaN; NaN; NaN; NaN].
Proof.
  intros Hnet Hne (k & Hk & Hnan).
  unfold AudioFeatureProcessor.processFeatures.
  rewrite (@forward_NaN network 8 4 _ Hnet Hne).
  - reflexivity.
  - exists k. rewrite length_map, length_seq. split; [assumption |].
    rewrite get_map_seq by assumption. rewrite Hnan. reflexivity.
Qed.

Lemma processor_not_nil (rnd : Rand.source) (n : nat) :
  fst (AudioFeatureProcessor.new rnd n) <> [].
Proof.
  pose proof (processor_net_ok rnd n) as H.
  destruct (fst (AudioFeatureProcessor.new rnd n)); [| discriminate].
  simpl in H. discriminate.
Qed.

(* ================================================================== *)
(** * [convert] on silent buffers *)
(* ================================================================== *)

Lemma calculateRMS_silent (n : nat) :
  (0 < n)%nat -> AudioUtils.calculateRMS (repeat (Fin 0) n) = Fin 0.
Proof.
  intros Hn. unfold AudioUtils.calculateRMS. rewrite repeat_length.
  rewrite for_loop_fixed.
  - unfold of_nat. rewrite zero_div by (apply INR_not_0; assumption).
    apply zero_sqrt.
  - intros i Hi. rewrite get_repeat by lia. now rewrite zero_mul, zero_add.
Qed.

Lemma normalize_silent (n : nat) (target : num) :
  (0 < n)%nat ->
  AudioUtils.normalize (repeat (Fin 0) n) target = repeat (Fin 0) n.
Proof.
  intros Hn. unfold AudioUtils.normalize.
  rewrite calculateRMS_silent by assumption.
  simpl. Rtests. reflexivity.
Qed.

Lemma softClip_silent (n : nat) :
  AudioUtils.softClip (repeat (Fin 0) n) 0.95%R = repeat (Fin 0) n.
Proof.
  unfold AudioUtils.softClip. rewrite repeat_length.
  apply map_seq_const. intros i Hi. rewrite get_repeat by assumption.
  unfold AudioUtils.softClipSample. rewrite zero_abs. simpl. Rtests.
  reflexivity.
Qed.

Lemma downmix_silent this (n : nat) analysis (w0 w1 w2 w3 : R) :
  is_fin (preserveWidth (StereoToMonoConverter.options this)) ->
  StereoToMonoConverter.performIntelligentDownmix this (Scenario.silent n)
    analysis [Fin w0; Fin w1; Fin w2; Fin w3]
  = repeat (Fin 0) n.
Proof.
  intros Hpw. unfold StereoToMonoConverter.performIntelligentDownmix.
  change (left (Scenario.silent n)) with (repeat (Fin 0) n).
  change (right (Scenario.silent n)) with (repeat (Fin 0) n).
  rewrite repeat_length. apply map_seq_const. intros i Hi.
  rewrite !get_repeat by assumption. cbn [get nth].
  rewrite !mul_0_fin by exact I. rewrite zero_sub, zero_add.
  rewrite !mul_0_fin by (assumption || exact I).
  rewrite zero_add. destruct (_ >? _); reflexivity.
Qed.

Lemma preservation_silent this (n : nat) b analysis :
  (richness analysis >? 0.3%R) = false ->
  (high (frequencyDistribution analysis) >? 0.2%R) = false ->
  StereoToMonoConverter.applyPreservationTechniques this
    (repeat (Fin 0) n) b analysis
  = repeat (Fin 0) n.
Proof.
  intros Hr Hh. unfold StereoToMonoConverter.applyPreservationTechniques.
  rewrite Hr, Hh, andb_false_r.
  destruct (_ =? _); reflexivity.
Qed.

(** A silent buffer whose richness is 0 is converted to silence. *)
Lemma convertSamples_silent (rnd : Rand.source) (o : ConversionOptions)
  (n : nat) :
  (0 < n)%nat ->
  AudioUtils.calculateRichness (Scenario.silent n) = Fin 0 ->
  is_fin (StereoToMonoConverter.nullish (opt_preserveWidth o) 0.7%R) ->
  StereoToMonoConverter.convertSamples
    (Rand.run (StereoToMonoConverter.new o) rnd) (Scenario.silent n)
  = repeat (Fin 0) n.
Proof.
  intros Hn Hrich Hpw.
  unfold StereoToMonoConverter.convertSamples.
  rewrite analyzeStereo_silent by assumption. rewrite Hrich.
  unfold StereoToMonoConverter.calculateMixingWeights.
  cbn [width richness rmsLevel peakLevel phaseCorrelation
       frequencyDistribution low mid high].
  unfold Rand.run, StereoToMonoConverter.new, Rand.bind.
  pose proof (processor_net_ok rnd 0) as Hnet.
  destruct (AudioFeatureProcessor.new rnd 0%nat) as [net k].
  cbn [Rand.ret fst StereoToMonoConverter.processor] in *.
  match goal with
  | |- context [AudioFeatureProcessor.processFeatures net ?f] =>
      destruct (processFeatures_net_ok net f Hnet eq_refl)
        as (r0 & r1 & r2 & r3 & _ & ->)
  end.
  { repeat constructor; try discriminate.
    simpl. rewrite Reqb_false by lra. discriminate. }
  rewrite downmix_silent by exact Hpw.
  rewrite preservation_silent.
  - unfold StereoToMonoConverter.applyVolumeCompensation.
    rewrite normalize_silent by assumption. apply softClip_silent.
  - cbn [richness]. unfold gt. simpl. Rtests. reflexivity.
  - cbn [frequencyDistribution high]. unfold gt. simpl. Rtests. reflexivity.
Qed.

(** ** A NaN weight makes the whole output NaN *)

Lemma downmix_NaN this b analysis :
  StereoToMonoConverter.performIntelligentDownmix this b analysis
    [NaN; NaN; NaN; NaN]
  = repeat NaN (length (left b)).
Proof.
  unfold StereoToMonoConverter.performIntelligentDownmix.
  apply map_seq_const. intros i Hi. cbn [get nth].
  fold (get (left b) i). rewrite mul_NaN_r. cbn [add].
  destruct (_ >? _); reflexivity.
Qed.

Lemma calculateRMS_NaN (n : nat) :
  (0 < n)%nat -> AudioUtils.calculateRMS (repeat NaN n) = NaN.
Proof.
  intros Hn. unfold AudioUtils.calculateRMS. rewrite repeat_length.
  destruct n as [| n]; [lia |].
  rewrite for_loop_S by lia. rewrite get_repeat by lia.
  rewrite mul_NaN_r, add_NaN_r. reflexivity.
Qed.

Lemma normalize_NaN (n : nat) (target : num) :
  (0 < n)%nat ->
  AudioUtils.normalize (repeat NaN n) target = repeat NaN n.
Proof.
  intros Hn. unfold AudioUtils.normalize.
  rewrite calculateRMS_NaN by assumption. cbn [eqb].
  rewrite repeat_length. apply map_seq_const. intros i Hi.
  rewrite get_repeat by assumption. reflexivity.
Qed.

Lemma softClip_NaN (n : nat) (threshold : num) :
  AudioUtils.softClip (repeat NaN n) threshold = repeat NaN n.
Proof.
  unfold AudioUtils.softClip. rewrite repeat_length.
  apply map_seq_const. intros i Hi. rewrite get_repeat by assumption.
  unfold AudioUtils.softClipSample. cbn [abs le ge].
  unfold sub. cbn [add div tanh]. rewrite mul_NaN_r, add_NaN_r.
  apply mul_NaN_r.
Qed.

Lemma preservation_NaN this (n : nat) b analysis :
  richness analysis = NaN ->
  (high (frequencyDistribution analysis) >? 0.2%R) = false ->
  StereoToMonoConverter.applyPreservationTechniques this
    (repeat NaN n) b analysis
  = repeat NaN n.
Proof.
  intros Hr Hh. unfold StereoToMonoConverter.applyPreservationTechniques.
  rewrite Hr, Hh. cbn [gt lt]. rewrite andb_false_r.
  destruct (_ =? _); reflexivity.
Qed.

(** A silent buffer whose richness is NaN is converted to NaN samples. *)
Lemma convertSamples_silent_NaN (rnd : Rand.source) (o : ConversionOptions)
  (n : nat) :
  (0 < n)%nat ->
  AudioUtils.calculateRichness (Scenario.silent n) = NaN ->
  StereoToMonoConverter.convertSamples
    (Rand.run (StereoToMonoConverter.new o) rnd) (Scenario.silent n)
  = repeat NaN n.
Proof.
  intros Hn Hrich.
  unfold StereoToMonoConverter.convertSamples.
  rewrite analyzeStereo_silent by assumption. rewrite Hrich.
  unfold StereoToMonoConverter.calculateMixingWeights.
  cbn [width richness rmsLevel peakLevel phaseCorrelation
       frequencyDistribution low mid high].
  unfold Rand.run, StereoToMonoConverter.new, Rand.bind.
  pose proof (processor_net_ok rnd 0) as Hnet.
  pose proof (processor_not_nil rnd 0) as Hne.
  destruct (AudioFeatureProcessor.new rnd 0%nat) as [net k].
  cbn [Rand.ret fst StereoToMonoConverter.processor] in *.
  rewrite (processFeatures_NaN net _ Hnet Hne).
  - rewrite downmix_NaN.
    change (left (Scenario.silent n)) with (repeat (Fin 0) n).
    rewrite repeat_length. rewrite preservation_NaN.
    + unfold StereoToMonoConverter.applyVolumeCompensation.
      rewrite normalize_NaN by assumption. apply softClip_NaN.
    + reflexivity.
    + cbn [frequencyDistribution high]. unfold gt. simpl. Rtests.
      reflexivity.
  - exists 1%nat. split; [simpl; lia | reflexivity].
Qed.

Lemma richness_silent_1000 :
  AudioUtils.calculateRichness (Scenario.silent 1000) = Fin 0.
Proof. rewrite richness_silent. reflexivity. Qed.

Lemma richness_silent_256 :
  AudioUtils.calculateRichness (Scenario.silent 256) = NaN.
Proof. rewrite richness_silent. reflexivity. Qed.

(** C3: for two all-zero channels of 1000 samples at 44100 Hz, [analyze]
    returns width, richness, rmsLevel, peakLevel and phaseCorrelation 0
    and a frequency distribution of three zeros, and [convert] returns
    1000 zeros, with no NaN among them. *)
Theorem silent_buffer_scenario (rnd : Rand.source) (o : ConversionOptions) :
  is_fin (StereoToMonoConverter.nullish (opt_preserveWidth o) 0.7%R) ->
  let converter := Rand.run (StereoToMonoConverter.new o) rnd in
  StereoToMonoConverter.analyze converter (Scenario.silent 1000)
  = Normal {| width := 0%R;
              richness := 0%R;
              rmsLevel := 0%R;
              peakLevel := 0%R;
              phaseCorrelation := 0%R;
              frequencyDistribution :=
                {| low := 0%R; mid := 0%R; high := 0%R |} |} /\
  exists mono : Float32Array,
    StereoToMonoConverter.convert converter (Scenario.silent 1000)
    = Normal mono /\
    mono = repeat (Fin 0) 1000 /\
    length mono = 1000%nat /\
    ~ In NaN mono.
Proof.
  intros Hpw converter. split.
  - unfold StereoToMonoConverter.analyze.
    rewrite analyzeStereo_silent by lia.
    now rewrite richness_silent_1000.
  - eexists. split; [reflexivity |].
    unfold converter.
    rewrite convertSamples_silent;
      [| lia | exact richness_silent_1000 | exact Hpw].
    split; [reflexivity |]. split; [apply repeat_length |].
    intros Hin. apply repeat_spec in Hin. discriminate.
Qed.

Lemma silent_buffer_scenario_witness :
  let converter :=
    Rand.run (StereoToMonoConverter.new StereoToMonoConverter.noOptions)
      Scenario.half in
  StereoToMonoConverter.analyze converter (Scenario.silent 1000)
  = Normal {| width := 0%R;
              richness := 0%R;
              rmsLevel := 0%R;
              peakLevel := 0%R;
              phaseCorrelation := 0%R;
              frequencyDistribution :=
                {| low := 0%R; mid := 0%R; high := 0%R |} |} /\
  exists mono : Float32Array,
    StereoToMonoConverter.convert converter (Scenario.silent 1000)
    = Normal mono /\
    mono = repeat (Fin 0) 1000 /\
    length mono = 1000%nat /\
    ~ In NaN mono.
Proof.
  apply (silent_buffer_scenario Scenario.half
           StereoToMonoConverter.noOptions).
  exact I.
Defined.

Lemma valid_silent (n : nat) :
  (0 < n)%nat -> Spec.valid_buffer (Scenario.silent n).
Proof.
  intros Hn. unfold Spec.valid_buffer, Scenario.silent. cbn [left right].
  rewrite repeat_length.
  assert (H : Forall Spec.valid_sample (repeat (Fin 0) n)).
  { rewrite Forall_forall. intros x Hx. apply repeat_spec in Hx. subst.
    exists 0%R. split; [reflexivity | lra]. }
  repeat split; (lia || assumption).
Qed.

(** C10, at its failing input: 256 silent samples in each channel make a
    valid buffer with finite samples, and [convert] returns 256 NaN, for
    every draw of the weights and every configuration.  The window count
    of [calculateRichness] is 0 there and the richness is 0/0. *)
Theorem convert_silent_256 (rnd : Rand.source) (o : ConversionOptions) :
  Spec.valid_buffer (Scenario.silent 256) /\
  AudioUtils.numWindows 256 = 0%Z /\
  richness (AudioUtils.analyzeStereo (Scenario.silent 256)) = NaN /\
  StereoToMonoConverter.convert
    (Rand.run (StereoToMonoConverter.new o) rnd) (Scenario.silent 256)
  = Normal (repeat NaN 256).
Proof.
  split; [apply valid_silent; lia |].
  split; [reflexivity |].
  split.
  - rewrite analyzeStereo_silent by lia. exact richness_silent_256.
  - unfold StereoToMonoConverter.convert.
    rewrite convertSamples_silent_NaN;
      [reflexivity | lia | exact richness_silent_256].
Qed.

(* ================================================================== *)
(** * Buffers that are not valid *)
(* ================================================================== *)

Lemma analyzeStereo_empty (r : Float32Array) (rate : num) :
  AudioUtils.analyzeStereo
    {| left := []; right := r; bufferSampleRate := rate |}
  = {| width := NaN;
       richness := 0%R;
       rmsLevel := NaN;
       peakLevel := 0%R;
       phaseCorrelation := 0%R;
       frequencyDistribution := {| low := 0%R; mid := 0%R; high := 0%R |} |}.
Proof.
  unfold AudioUtils.analyzeStereo, AudioUtils.calculateRichness,
    AudioUtils.analyzeFrequencyDistribution, AudioUtils.bandEnergies.
  cbn [left right length Nat.min for_loop for_step Nat.sub seq fold_left
       AudioUtils.stereoSums0 AudioUtils.widthSum AudioUtils.correlationSum
       AudioUtils.leftPowerSum AudioUtils.rightPowerSum AudioUtils.rmsSum
       AudioUtils.peakAcc].
  change (AudioUtils.numWindows 0) with (-4)%Z.
  unfold of_nat, of_Z. cbn [INR].
  rewrite zero_div_zero, zero_div by lra.
  rewrite !zero_add. unfold gt. simpl. Rtests. reflexivity.
Qed.

(** C1, as the code has it: [analyze] and [convert] validate nothing
    and never throw.  Every buffer gets an analysis and a mono sequence as
    long as the left channel; when the left channel is empty the analysis
    holds NaN for width and rmsLevel and the mono sequence is empty. *)
Theorem no_validation (this : StereoToMonoConverter.t) :
  (forall b : AudioBuffer,
     exists (analysis : StereoAnalysis) (mono : Float32Array),
       StereoToMonoConverter.analyze this b = Normal analysis /\
       StereoToMonoConverter.convert this b = Normal mono /\
       length mono = length (left b)) /\
  (forall (r : Float32Array) (rate : num),
     StereoToMonoConverter.analyze this
       {| left := []; right := r; bufferSampleRate := rate |}
     = Normal {| width := NaN;
                 richness := 0%R;
                 rmsLevel := NaN;
                 peakLevel := 0%R;
                 phaseCorrelation := 0%R;
                 frequencyDistribution :=
                   {| low := 0%R; mid := 0%R; high := 0%R |} |} /\
     StereoToMonoConverter.convert this
       {| left := []; right := r; bufferSampleRate := rate |}
     = Normal []).
Proof.
  split.
  - intros b. do 2 eexists. split; [reflexivity |].
    split; [reflexivity | apply length_convertSamples].
  - intros r rate. unfold StereoToMonoConverter.analyze,
      StereoToMonoConverter.convert.
    rewrite analyzeStereo_empty. split; [reflexivity |]. f_equal.
    apply length_zero_iff_nil. now rewrite length_convertSamples.
Qed.

(** C1 fails at the empty buffer: the call does not end in a validation
    error; it returns an analysis whose width is NaN. *)
Lemma empty_buffer_not_rejected :
  let converter :=
    Rand.run (StereoToMonoConverter.new StereoToMonoConverter.noOptions)
      Scenario.half in
  let empty := {| left := []; right := []; bufferSampleRate := 44100%R |} in
  StereoToMonoConverter.analyze converter empty <> Throw ValidationError /\
  StereoToMonoConverter.convert converter empty <> Throw ValidationError /\
  (exists analysis : StereoAnalysis,
     StereoToMonoConverter.analyze converter empty = Normal analysis /\
     width analysis = NaN).
Proof.
  intros converter empty.
  split; [discriminate |]. split; [discriminate |].
  eexists. split; [reflexivity |].
  unfold empty. now rewrite analyzeStereo_empty.
Qed.

(** A right channel shorter than the left is not rejected either: the
    missing sample reads as undefined and the width is NaN. *)
Lemma mismatched_channels_not_rejected (this : StereoToMonoConverter.t) :
  exists analysis : StereoAnalysis,
    StereoToMonoConverter.analyze this
      {| left := [Fin 0]; right := []; bufferSampleRate := 44100%R |}
    = Normal analysis /\
    width analysis = NaN.
Proof. eexists. split; reflexivity. Qed.

(* ================================================================== *)
(** * The analysis of a valid buffer *)
(* ================================================================== *)

Lemma valid_get (a : Float32Array) (i : nat) :
  Forall Spec.valid_sample a -> (i < length a)%nat ->
  get a i = Fin (Spec.val (get a i)) /\
  (-1 <= Spec.val (get a i) <= 1)%R.
Proof.
  intros H Hi. destruct (Forall_get _ _ _ H Hi) as (r & -> & Hr).
  simpl. split; [reflexivity | assumption].
Qed.

Lemma Rsum_sqr_nonneg (f : nat -> R) (n : nat) :
  (0 <= Spec.Rsum (fun i => f i * f i) n)%R.
Proof.
  induction n; simpl; [lra |]. pose proof (Rle_0_sqr (f n)) as H.
  unfold Rsqr in H. lra.
Qed.

(** The Cauchy-Schwarz inequality for finite sums. *)
Lemma cauchy_schwarz (f g : nat -> R) (n : nat) :
  (Spec.Rsum (fun i => f i * g i) n * Spec.Rsum (fun i => f i * g i) n
   <= Spec.Rsum (fun i => f i * f i) n * Spec.Rsum (fun i => g i * g i) n)%R.
Proof.
  induction n; simpl; [lra |].
  pose proof (Rsum_sqr_nonneg f n) as HA.
  pose proof (Rsum_sqr_nonneg g n) as HB.
  set (A := Spec.Rsum (fun i => (f i * f i)%R) n) in *.
  set (B := Spec.Rsum (fun i => (g i * g i)%R) n) in *.
  set (C := Spec.Rsum (fun i => (f i * g i)%R) n) in *.
  set (a := f n). set (b := g n).
  assert (Hkey : (2 * (a * b) * C <= A * (b * b) + (a * a) * B)%R).
  { assert (H1 : (0 <= A * (b * b) + a * a * B)%R) by nra.
    assert (H2 : ((2 * (a * b) * C) * (2 * (a * b) * C)
                  <= (A * (b * b) + a * a * B)
                     * (A * (b * b) + a * a * B))%R).
    { assert (H3 : ((a * b) * (a * b) * (C * C)
                    <= (a * b) * (a * b) * (A * B))%R).
      { apply Rmult_le_compat_l; [nra | assumption]. }
      pose proof (Rle_0_sqr (A * (b * b) - a * a * B)) as H4.
      unfold Rsqr in H4. lra. }
    destruct (Rle_lt_dec (2 * (a * b) * C) (A * (b * b) + a * a * B))
      as [Hle | Hlt]; [exact Hle | exfalso].
    assert (H5 : ((A * (b * b) + a * a * B) * (A * (b * b) + a * a * B)
                  < (2 * (a * b) * C) * (2 * (a * b) * C))%R).
    { apply Rmult_le_0_lt_compat; lra. }
    lra. }
  lra.
Qed.

(** The accumulators of [analyzeStereo] over a valid buffer. *)
Lemma stereoSums_valid (l r : Float32Array) :
  length l = length r ->
  Forall Spec.valid_sample l ->
  Forall Spec.valid_sample r ->
  forall k, (k <= length l)%nat ->
    exists w m p : R,
      for_loop 0 k (AudioUtils.analyzeStep l r) AudioUtils.stereoSums0
      = {| AudioUtils.widthSum := Fin w;
           AudioUtils.correlationSum :=
             Fin (Spec.Rsum
                    (fun i => (Spec.val (get l i) * Spec.val (get r i))%R) k);
           AudioUtils.leftPowerSum :=
             Fin (Spec.Rsum
                    (fun i => (Spec.val (get l i) * Spec.val (get l i))%R) k);
           AudioUtils.rightPowerSum :=
             Fin (Spec.Rsum
                    (fun i => (Spec.val (get r i) * Spec.val (get r i))%R) k);
           AudioUtils.rmsSum := Fin m;
           AudioUtils.peakAcc := Fin p |} /\
      (0 <= w <= 2 * INR k)%R /\ (0 <= m)%R /\ (0 <= p <= 1)%R.
Proof.
  intros Hlen Hl Hr. induction k; intros Hk.
  - exists 0%R, 0%R, 0%R. split; [reflexivity |]. simpl. lra.
  - destruct IHk as (w & m & p & Hs & Hw & Hm & Hp); [lia |].
    rewrite for_loop_S, Hs by lia.
    destruct (valid_get l k Hl ltac:(lia)) as [El Bl].
    destruct (valid_get r k Hr ltac:(lia)) as [Er Br].
    unfold AudioUtils.analyzeStep.
    cbn [AudioUtils.widthSum AudioUtils.correlationSum
         AudioUtils.leftPowerSum AudioUtils.rightPowerSum
         AudioUtils.rmsSum AudioUtils.peakAcc Spec.Rsum].
    set (a := Spec.val (get l k)) in *. set (b := Spec.val (get r k)) in *.
    rewrite El, Er. unfold sub, gt. cbn [opp add mul abs div max lt].
    rewrite Reqb_false by lra. cbn [mul add].
    assert (Ha : (0 <= Rabs a <= 1)%R)
      by (split; [apply Rabs_pos | apply Rabs_le; lra]).
    assert (Hb : (0 <= Rabs b <= 1)%R)
      by (split; [apply Rabs_pos | apply Rabs_le; lra]).
    assert (Hd : (0 <= Rabs (a + - b) <= 2)%R)
      by (split; [apply Rabs_pos | apply Rabs_le; lra]).
    exists (w + Rabs (a + - b))%R,
           (m + (a + b) / 2 * ((a + b) / 2))%R,
           (if Rltb p (if Rltb (Rabs a) (Rabs b) then Rabs b else Rabs a)
            then (if Rltb (Rabs a) (Rabs b) then Rabs b else Rabs a)
            else p).
    split; [| split; [| split]].
    + destruct (Rltb (Rabs a) (Rabs b)); cbn [lt];
        destruct (Rltb p _); reflexivity.
    + rewrite S_INR. lra.
    + pose proof (Rle_0_sqr ((a + b) / 2)) as Hsq. unfold Rsqr in Hsq. lra.
    + destruct (Rltb (Rabs a) (Rabs b)); destruct (Rltb p _); lra.
Qed.

Lemma div_fin (a b : R) : b <> 0%R -> Fin a / Fin b = Fin (a / b).
Proof. intros H. simpl. now rewrite Reqb_false. Qed.

Lemma sqrt_fin (a : R) : (0 <= a)%R -> sqrt (Fin a) = Fin (R_sqrt.sqrt a).
Proof. intros H. simpl. now rewrite Rltb_false. Qed.

Lemma sq_bound (x N : R) :
  (0 <= N)%R -> (x * x <= N * N)%R -> (- N <= x <= N)%R.
Proof.
  intros HN Hsq. split.
  - destruct (Rle_lt_dec (- N) x) as [H | H]; [exact H | exfalso].
    assert (N * N < (- x) * (- x))%R
      by (apply Rmult_le_0_lt_compat; lra).
    lra.
  - destruct (Rle_lt_dec x N) as [H | H]; [exact H | exfalso].
    assert (N * N < x * x)%R by (apply Rmult_le_0_lt_compat; lra).
    lra.
Qed.

Lemma ratio_bound (x N : R) :
  (0 < N)%R -> (- N <= x <= N)%R -> (-1 <= x / N <= 1)%R.
Proof.
  intros HN Hx.
  assert (Hinv : (0 < / N)%R) by (apply Rinv_0_lt_compat; lra).
  assert (H1 : (N * / N = 1)%R) by (apply Rinv_r; lra).
  unfold Rdiv. split.
  - assert ((- N) * / N <= x * / N)%R
      by (apply Rmult_le_compat_r; lra).
    lra.
  - assert (x * / N <= N * / N)%R by (apply Rmult_le_compat_r; lra).
    lra.
Qed.

(** The phase correlation computed by [analyzeStereo] on a valid
    buffer. *)
Lemma phaseCorrelation_valid (b : AudioBuffer) :
  Spec.valid_buffer b ->
  exists pc : R,
    phaseCorrelation (AudioUtils.analyzeStereo b) = Fin pc /\
    ((0 < Spec.rms (left b) (length (left b)))%R ->
     (0 < Spec.rms (right b) (length (left b)))%R ->
     pc = (Spec.meanProduct (left b) (right b) (length (left b))
           / (Spec.rms (left b) (length (left b))
              * Spec.rms (right b) (length (left b))))%R) /\
    (Spec.rms (left b) (length (left b)) = 0%R \/
     Spec.rms (right b) (length (left b)) = 0%R ->
     pc = 0%R) /\
    (-1 <= pc <= 1)%R.
Proof.
  intros (Hlen & Hn & Hl & Hr).
  destruct (stereoSums_valid _ _ Hlen Hl Hr (length (left b)) (le_n _))
    as (w & m & p & Hs & _).
  unfold AudioUtils.analyzeStereo.
  rewrite Hs. cbn [AudioUtils.correlationSum AudioUtils.leftPowerSum
                   AudioUtils.rightPowerSum phaseCorrelation].
  unfold Spec.rms, Spec.meanProduct.
  set (n := length (left b)) in *.
  set (A := Spec.Rsum
              (fun i => (Spec.val (get (left b) i)
                         * Spec.val (get (left b) i))%R) n) in *.
  set (B := Spec.Rsum
              (fun i => (Spec.val (get (right b) i)
                         * Spec.val (get (right b) i))%R) n) in *.
  set (C := Spec.Rsum
              (fun i => (Spec.val (get (left b) i)
                         * Spec.val (get (right b) i))%R) n) in *.
  assert (Hn0 : (0 < INR n)%R) by (apply lt_0_INR; lia).
  assert (HA : (0 <= A / INR n)%R).
  { apply Rmult_le_pos; [apply Rsum_sqr_nonneg |].
    apply Rlt_le, Rinv_0_lt_compat, Hn0. }
  assert (HB : (0 <= B / INR n)%R).
  { apply Rmult_le_pos; [apply Rsum_sqr_nonneg |].
    apply Rlt_le, Rinv_0_lt_compat, Hn0. }
  unfold of_nat. rewrite !div_fin by lra. rewrite !sqrt_fin by assumption.
  pose proof (sqrt_pos (A / INR n)) as HsA.
  pose proof (sqrt_pos (B / INR n)) as HsB.
  set (N := (R_sqrt.sqrt (A / INR n) * R_sqrt.sqrt (B / INR n))%R).
  assert (HN : (0 <= N)%R) by (apply Rmult_le_pos; assumption).
  cbn [mul]. fold N. unfold gt. cbn [lt].
  exists (if Rltb 0 N then (C / INR n / N)%R else 0%R).
  split.
  { destruct (Rltb_spec 0 N); [apply div_fin; lra | reflexivity]. }
  split; [| split].
  - intros H1 H2.
    assert (0 < N)%R by (apply Rmult_lt_0_compat; assumption).
    now rewrite Rltb_true.
  - intros H. rewrite Rltb_false; [reflexivity |].
    unfold N. destruct H as [-> | ->]; lra.
  - destruct (Rltb_spec 0 N) as [Hpos | _]; [| lra].
    apply ratio_bound; [assumption |]. apply sq_bound; [assumption |].
    assert (HN2 : (N * N = (A / INR n) * (B / INR n))%R).
    { unfold N.
      replace (R_sqrt.sqrt (A / INR n) * R_sqrt.sqrt (B / INR n)
               * (R_sqrt.sqrt (A / INR n) * R_sqrt.sqrt (B / INR n)))%R
        with ((R_sqrt.sqrt (A / INR n) * R_sqrt.sqrt (A / INR n))
              * (R_sqrt.sqrt (B / INR n) * R_sqrt.sqrt (B / INR n)))%R
        by ring.
      now rewrite !sqrt_sqrt by assumption. }
    rewrite HN2.
    pose proof (cauchy_schwarz (fun i => Spec.val (get (left b) i))
                  (fun i => Spec.val (get (right b) i)) n) as HCS.
    fold A B C in HCS.
    assert (Hinv : (0 < / INR n)%R) by (apply Rinv_0_lt_compat, Hn0).
    unfold Rdiv.
    replace (C * / INR n * (C * / INR n))%R
      with ((C * C) * (/ INR n * / INR n))%R by ring.
    replace (A * / INR n * (B * / INR n))%R
      with ((A * B) * (/ INR n * / INR n))%R by ring.
    apply Rmult_le_compat_r; [| assumption].
    apply Rlt_le, Rmult_lt_0_compat; assumption.
Qed.

(** In exact arithmetic: for every valid buffer the phase correlation
    returned by [analyze] is mean(L*R) / (rms(L) * rms(R)) when both
    channel RMS values are positive, is 0 when either channel has zero
    power, and lies in [-1, 1] (Cauchy-Schwarz).  The code computes it
    on binary64 numbers and does not clamp it; what the rounding does to
    the bound is evaluated on [Double.AudioUtils.analyzeStereo]. *)
Theorem phaseCorrelation_spec (this : StereoToMonoConverter.t)
  (b : AudioBuffer) :
  Spec.valid_buffer b ->
  exists (analysis : StereoAnalysis) (pc : R),
    StereoToMonoConverter.analyze this b = Normal analysis /\
    phaseCorrelation analysis = Fin pc /\
    ((0 < Spec.rms (left b) (length (left b)))%R ->
     (0 < Spec.rms (right b) (length (left b)))%R ->
     pc = (Spec.meanProduct (left b) (right b) (length (left b))
           / (Spec.rms (left b) (length (left b))
              * Spec.rms (right b) (length (left b))))%R) /\
    (Spec.rms (left b) (length (left b)) = 0%R \/
     Spec.rms (right b) (length (left b)) = 0%R ->
     pc = 0%R) /\
    (-1 <= pc <= 1)%R.
Proof.
  intros Hb. destruct (phaseCorrelation_valid b Hb) as (pc & H).
  exists (AudioUtils.analyzeStereo b), pc. split; [reflexivity | exact H].
Qed.

(** The band energies of a valid buffer are finite and not negative. *)
Lemma bandEnergies_valid (b : AudioBuffer) :
  Spec.valid_buffer b ->
  exists lowE midE highE : R,
    AudioUtils.bandEnergies b = (Fin lowE, Fin midE, Fin highE) /\
    (0 <= lowE)%R /\ (0 <= midE)%R /\ (0 <= highE)%R.
Proof.
  intros (Hlen & Hn & Hl & Hr). unfold AudioUtils.bandEnergies.
  set (len := Nat.min (length (left b)) (Z.to_nat 4096)).
  assert (Hlen' : (len <= length (left b))%nat) by apply Nat.le_min_l.
  destruct (Nat.le_gt_cases 1 len) as [H1 | H0].
  - apply (for_loop_inv
             (fun _ s => exists lowE midE highE : R,
                s = (Fin lowE, Fin midE, Fin highE) /\
                (0 <= lowE)%R /\ (0 <= midE)%R /\ (0 <= highE)%R));
      [assumption | |].
    + exists 0%R, 0%R, 0%R. split; [reflexivity | lra].
    + intros i s Hi (x & y & z & -> & Hx & Hy & Hz).
      destruct (valid_get _ i Hl ltac:(lia)) as [El _].
      destruct (valid_get _ (i - 1) Hl ltac:(lia)) as [El' _].
      destruct (valid_get _ i Hr ltac:(lia)) as [Er _].
      destruct (valid_get _ (i - 1) Hr ltac:(lia)) as [Er' _].
      unfold AudioUtils.bandStep. rewrite El, El', Er, Er'.
      set (li := Spec.val (get (left b) i)).
      set (ri := Spec.val (get (right b) i)).
      unfold sub. cbn [opp add abs div]. rewrite Reqb_false by lra.
      cbn [lt].
      pose proof (Rabs_pos li). pose proof (Rabs_pos ri).
      destruct (Rltb _ 0.1); [| destruct (Rltb _ 0.3)].
      * exists (x + (Rabs li + Rabs ri))%R, y, z.
        split; [reflexivity | lra].
      * exists x, (y + (Rabs li + Rabs ri))%R, z.
        split; [reflexivity | lra].
      * exists x, y, (z + (Rabs li + Rabs ri))%R.
        split; [reflexivity | lra].
  - rewrite for_loop_nil by lia.
    exists 0%R, 0%R, 0%R. split; [reflexivity | lra].
Qed.

Lemma frequencyDistribution_valid (b : AudioBuffer) :
  Spec.valid_buffer b ->
  exists lowE midE highE lo mi hi : R,
    AudioUtils.bandEnergies b = (Fin lowE, Fin midE, Fin highE) /\
    AudioUtils.analyzeFrequencyDistribution b
    = {| low := Fin lo; mid := Fin mi; high := Fin hi |} /\
    (0 <= lowE + midE + highE)%R /\
    (0 <= lo)%R /\ (0 <= mi)%R /\ (0 <= hi)%R /\
    ((0 < lowE + midE + highE)%R -> (lo + mi + hi = 1)%R) /\
    ((lowE + midE + highE = 0)%R -> lo = 0%R /\ mi = 0%R /\ hi = 0%R).
Proof.
  intros Hb.
  destruct (bandEnergies_valid b Hb) as (x & y & z & He & Hx & Hy & Hz).
  unfold AudioUtils.analyzeFrequencyDistribution. rewrite He.
  cbn [add]. unfold gt. cbn [lt].
  exists x, y, z.
  destruct (Rltb_spec 0 (x + y + z)) as [Hpos | Hzero].
  - rewrite !div_fin by lra.
    exists (x / (x + y + z))%R, (y / (x + y + z))%R, (z / (x + y + z))%R.
    assert (Hinv : (0 < / (x + y + z))%R)
      by (apply Rinv_0_lt_compat; assumption).
    split; [reflexivity |]. split; [reflexivity |].
    split; [lra |]. unfold Rdiv.
    split; [apply Rmult_le_pos; lra |].
    split; [apply Rmult_le_pos; lra |].
    split; [apply Rmult_le_pos; lra |].
    split; [| lra]. intros _.
    replace (x * / (x + y + z) + y * / (x + y + z) + z * / (x + y + z))%R
      with ((x + y + z) * / (x + y + z))%R by ring.
    apply Rinv_r. lra.
  - exists 0%R, 0%R, 0%R.
    split; [reflexivity |]. split; [reflexivity |].
    repeat split; lra.
Qed.

(** C6: for every valid buffer the three components of the frequency
    distribution returned by [analyze] are not negative; they sum to 1
    when the total band energy is positive and are all 0 when it is 0. *)
Theorem frequencyDistribution_spec (this : StereoToMonoConverter.t)
  (b : AudioBuffer) :
  Spec.valid_buffer b ->
  exists (analysis : StereoAnalysis) (lowE midE highE lo mi hi : R),
    StereoToMonoConverter.analyze this b = Normal analysis /\
    AudioUtils.bandEnergies b = (Fin lowE, Fin midE, Fin highE) /\
    frequencyDistribution analysis
    = {| low := Fin lo; mid := Fin mi; high := Fin hi |} /\
    (0 <= lowE + midE + highE)%R /\
    (0 <= lo)%R /\ (0 <= mi)%R /\ (0 <= hi)%R /\
    ((0 < lowE + midE + highE)%R -> (lo + mi + hi = 1)%R) /\
    ((lowE + midE + highE = 0)%R -> lo = 0%R /\ mi = 0%R /\ hi = 0%R).
Proof.
  intros Hb.
  destruct (frequencyDistribution_valid b Hb)
    as (x & y & z & lo & mi & hi & He & Hf & H).
  exists (AudioUtils.analyzeStereo b), x, y, z, lo, mi, hi.
  split; [reflexivity |]. split; [assumption |]. split; [| assumption].
  unfold AudioUtils.analyzeStereo. cbn [frequencyDistribution]. assumption.
Qed.

Lemma numWindows_short (n : nat) :
  (n < 256)%nat -> AudioUtils.numWindows n <> 0%Z.
Proof.
  intros H. unfold AudioUtils.numWindows.
  assert ((Z.of_nat n - 256) / 128 < 0)%Z
    by (apply Z.div_lt_upper_bound; lia).
  lia.
Qed.

Lemma richness_short (b : AudioBuffer) :
  (length (left b) < 256)%nat ->
  AudioUtils.calculateRichness b = Fin 0.
Proof.
  intros H. unfold AudioUtils.calculateRichness.
  assert (Hlen : Nat.min (length (left b)) (Z.to_nat 8192)
                 = length (left b)) by lia.
  rewrite Hlen. rewrite for_step_done by lia.
  unfold of_Z. rewrite zero_div.
  - simpl. Rtests. reflexivity.
  - apply not_0_IZR, numWindows_short, H.
Qed.

(** Below the richness window: for a valid buffer of fewer than 256
    samples [analyze] divides by no zero: no window contributes to the
    richness, the window count it is divided by is not 0 and the richness
    is 0; the frequency ratios are finite. *)
Theorem short_buffer_analysis (this : StereoToMonoConverter.t)
  (b : AudioBuffer) :
  Spec.valid_buffer b ->
  (length (left b) < 256)%nat ->
  AudioUtils.numWindows (Nat.min (length (left b)) (Z.to_nat 8192)) <> 0%Z /\
  for_step (Nat.min (length (left b)) (Z.to_nat 8192)) 0
    (Nat.min (length (left b)) (Z.to_nat 8192) - 256) 128
    (AudioUtils.richnessStep (left b) (right b)) (Fin 0) = Fin 0 /\
  exists (analysis : StereoAnalysis) (lo mi hi : R),
    StereoToMonoConverter.analyze this b = Normal analysis /\
    richness analysis = Fin 0 /\
    frequencyDistribution analysis
    = {| low := Fin lo; mid := Fin mi; high := Fin hi |}.
Proof.
  intros Hb Hshort.
  assert (Hlen : Nat.min (length (left b)) (Z.to_nat 8192)
                 = length (left b)) by lia.
  split; [rewrite Hlen; apply numWindows_short, Hshort |].
  split; [apply for_step_done; lia |].
  destruct (frequencyDistribution_valid b Hb)
    as (x & y & z & lo & mi & hi & _ & Hf & _).
  exists (AudioUtils.analyzeStereo b), lo, mi, hi.
  split; [reflexivity |].
  unfold AudioUtils.analyzeStereo. cbn [richness frequencyDistribution].
  split; [apply richness_short, Hshort | assumption].
Qed.

(* ================================================================== *)
(** * The weight mapper *)
(* ================================================================== *)

(** In exact arithmetic: for every 8-feature vector without a NaN
    entry (values outside [0,1], the infinities included, are clamped
    to [0,1] and never rejected) the mapper returns four weights: entries
    0 and 1 are 0.5 + raw * 0.2 clamped to [0.3, 0.7], entry 2 is the raw
    output clamped to [0, 0.5], entry 3 the raw output clamped to
    [0, 0.3].  The code keeps them in a [Float32Array]; what that store
    does to the bounds is evaluated on
    [Double.AudioFeatureProcessor.processFeatures]. *)
Theorem processFeatures_clamped (rnd : Rand.source)
  (features : Float32Array) :
  length features = 8%nat ->
  Forall (fun x => x <> NaN) features ->
  let network := Rand.run AudioFeatureProcessor.new rnd in
  Forall (fun x => exists c : R, x = Fin c /\ (0 <= c <= 1)%R)
         (map (fun x => max 0%R (min 1%R x)) features) /\
  (exists raw0 raw1 raw2 raw3 : R,
     NeuralNetwork.forward network
       (map (fun x => max 0%R (min 1%R x)) features)
     = [Fin raw0; Fin raw1; Fin raw2; Fin raw3] /\
     AudioFeatureProcessor.processFeatures network features
     = [Fin (Spec.clamp 0.3 0.7 (0.5 + raw0 * 0.2));
        Fin (Spec.clamp 0.3 0.7 (0.5 + raw1 * 0.2));
        Fin (Spec.clamp 0 0.5 raw2);
        Fin (Spec.clamp 0 0.3 raw3)]) /\
  Spec.mix_weights_ok
    (AudioFeatureProcessor.processFeatures network features).
Proof.
  intros Hlen Hfeat network.
  pose proof (processor_net_ok rnd 0) as Hnet. fold network in Hnet.
  split; [apply normalized_fin, Hfeat |].
  split; [apply processFeatures_net_ok; assumption |].
  apply processFeatures_range; assumption.
Qed.

Lemma processFeatures_clamped_witness :
  let features :=
    [Fin 2; Fin (-3); PosInf; NegInf; Fin (1 / 2); Fin 0; Fin 1; Fin 7] in
  let network := Rand.run AudioFeatureProcessor.new Scenario.half in
  Forall (fun x => exists c : R, x = Fin c /\ (0 <= c <= 1)%R)
         (map (fun x => max 0%R (min 1%R x)) features) /\
  (exists raw0 raw1 raw2 raw3 : R,
     NeuralNetwork.forward network
       (map (fun x => max 0%R (min 1%R x)) features)
     = [Fin raw0; Fin raw1; Fin raw2; Fin raw3] /\
     AudioFeatureProcessor.processFeatures network features
     = [Fin (Spec.clamp 0.3 0.7 (0.5 + raw0 * 0.2));
        Fin (Spec.clamp 0.3 0.7 (0.5 + raw1 * 0.2));
        Fin (Spec.clamp 0 0.5 raw2);
        Fin (Spec.clamp 0 0.3 raw3)]) /\
  Spec.mix_weights_ok
    (AudioFeatureProcessor.processFeatures network features).
Proof.
  intros features.
  apply (processFeatures_clamped Scenario.half features).
  - reflexivity.
  - unfold features. repeat constructor; discriminate.
Defined.

(** A NaN entry is not clamped: it reaches every output, and no weight
    lies in its range. *)
Lemma NaN_feature_not_clamped :
  let features :=
    [NaN; Fin 0; Fin 0; Fin 0; Fin 0; Fin 0; Fin 0; Fin 0] in
  let network := Rand.run AudioFeatureProcessor.new Scenario.half in
  AudioFeatureProcessor.processFeatures network features
  = [NaN; NaN; NaN; NaN] /\
  ~ Spec.mix_weights_ok
      (AudioFeatureProcessor.processFeatures network features).
Proof.
  intros features network.
  assert (H : AudioFeatureProcessor.processFeatures network features
              = [NaN; NaN; NaN; NaN]).
  { apply processFeatures_NaN.
    - apply processor_net_ok.
    - apply processor_not_nil.
    - exists 0%nat. split; [simpl; lia | reflexivity]. }
  split; [exact H |]. rewrite H.
  intros (w0 & w1 & w2 & w3 & Heq & _). discriminate.
Qed.

(* ================================================================== *)
(** * The network drawn from a generator that always answers 0.5 *)
(* ================================================================== *)

Lemma optimizeRow_zero (n : nat) :
  NeuralNetwork.optimizeRow (repeat (Fin 0) n) = repeat (Fin 0) n.
Proof.
  unfold NeuralNetwork.optimizeRow. rewrite repeat_length.
  apply map_seq_const. intros i Hi. rewrite get_repeat by assumption.
  destruct (i <? 5)%nat; [| reflexivity]. simpl. f_equal. lra.
Qed.

Lemma createLayer_half (inputSize outputSize : nat) (isOutput : bool)
  (n : nat) :
  (0 < inputSize + outputSize)%nat ->
  fst (NeuralNetwork.createLayer inputSize outputSize isOutput
         Scenario.half n)
  = Shape.zeroLayer inputSize outputSize
      (if isOutput then linear else relu).
Proof.
  intros Hpos. unfold NeuralNetwork.createLayer.
  destruct (is_fin_inv _ (scale_fin inputSize outputSize Hpos)) as [sc ->].
  unfold Rand.bind at 1.
  match goal with
  | |- context [Rand.repeatM outputSize ?c Scenario.half n] =>
      pose proof (repeatM_const _ c Scenario.half
                    (repeat (Fin 0) inputSize)) as Hw
  end.
  match type of Hw with
  | ?H -> _ => assert (Hrow : H)
  end.
  { intros k. apply repeatM_const. intros j.
    unfold Rand.bind, Rand.random, Rand.ret, Scenario.half. simpl.
    f_equal. lra. }
  specialize (Hw Hrow outputSize n).
  destruct (Rand.repeatM outputSize _ Scenario.half n) as [w n'].
  unfold Rand.bind at 1.
  match goal with
  | |- context [Rand.repeatM outputSize ?c Scenario.half n'] =>
      pose proof (repeatM_const _ c Scenario.half (Fin 0)) as Hb
  end.
  match type of Hb with
  | ?H -> _ => assert (Hbias : H)
  end.
  { intros j.
    unfold Rand.bind, Rand.random, Rand.ret, Scenario.half. simpl.
    f_equal. lra. }
  specialize (Hb Hbias outputSize n').
  destruct (Rand.repeatM outputSize _ Scenario.half n') as [bs n''].
  simpl in *. subst. reflexivity.
Qed.

Lemma optimize_zeroLayer (inputSize outputSize : nat) (a : Activation) :
  {| weights :=
       map NeuralNetwork.optimizeRow
         (weights (Shape.zeroLayer inputSize outputSize a));
     biases := biases (Shape.zeroLayer inputSize outputSize a);
     activation := activation (Shape.zeroLayer inputSize outputSize a) |}
  = Shape.zeroLayer inputSize outputSize a.
Proof.
  unfold Shape.zeroLayer. cbn [weights biases activation].
  rewrite map_repeat, optimizeRow_zero. reflexivity.
Qed.

Lemma processor_half (n : nat) :
  fst (AudioFeatureProcessor.new Scenario.half n) = Shape.zeroNet.
Proof.
  unfold AudioFeatureProcessor.new, NeuralNetwork.createPretrainedAudioModel,
    NeuralNetwork.new.
  cbn [app NeuralNetwork.createLayers].
  unfold Rand.bind at 1. unfold Rand.bind at 1.
  pose proof (createLayer_half 8 16 false n ltac:(lia)) as H1.
  destruct (NeuralNetwork.createLayer 8 16 false Scenario.half n)
    as [l1 n1].
  unfold Rand.bind at 1. unfold Rand.bind at 1.
  pose proof (createLayer_half 16 8 false n1 ltac:(lia)) as H2.
  destruct (NeuralNetwork.createLayer 16 8 false Scenario.half n1)
    as [l2 n2].
  unfold Rand.bind at 1. unfold Rand.bind at 1.
  pose proof (createLayer_half 8 4 true n2 ltac:(lia)) as H3.
  destruct (NeuralNetwork.createLayer 8 4 true Scenario.half n2)
    as [l3 n3].
  cbn [fst] in *. subst.
  unfold NeuralNetwork.optimizeForAudioPreservation, Rand.bind, Rand.ret.
  cbn [fst map].
  rewrite !optimize_zeroLayer. reflexivity.
Qed.

Lemma forwardLayer_zero (inputSize outputSize : nat) (a : Activation)
  (input : Float32Array) :
  a = relu \/ a = linear ->
  length input = inputSize ->
  Forall is_fin input ->
  NeuralNetwork.forwardLayer input (Shape.zeroLayer inputSize outputSize a)
  = repeat (Fin 0) outputSize.
Proof.
  intros Ha Hlen Hin. unfold NeuralNetwork.forwardLayer, Shape.zeroLayer.
  cbn [weights biases activation]. rewrite repeat_length.
  apply map_seq_const. intros i Hi.
  rewrite get_repeat by assumption.
  rewrite nth_repeat_lt by assumption.
  rewrite for_loop_fixed.
  - destruct Ha as [-> | ->]; simpl; Rtests; reflexivity.
  - intros j Hj.
    assert (Hj' : (j < length input)%nat) by lia.
    pose proof (Forall_get _ _ _ Hin Hj') as Hg.
    rewrite (get_repeat (Fin 0) inputSize j) by lia.
    rewrite mul_fin_0 by assumption. apply zero_add.
Qed.

Lemma Forall_repeat_fin (n : nat) : Forall is_fin (repeat (Fin 0) n).
Proof.
  rewrite Forall_forall. intros x Hx. apply repeat_spec in Hx.
  subst. exact I.
Qed.

Lemma forward_zeroNet (input : Float32Array) :
  length input = 8%nat ->
  Forall is_fin input ->
  NeuralNetwork.forward Shape.zeroNet input = repeat (Fin 0) 4.
Proof.
  intros Hlen Hin. unfold NeuralNetwork.forward, Shape.zeroNet.
  cbn [fold_left].
  rewrite (forwardLayer_zero 8 16 relu input) by auto.
  rewrite (forwardLayer_zero 16 8 relu)
    by (auto using repeat_length, Forall_repeat_fin).
  rewrite (forwardLayer_zero 8 4 linear)
    by (auto using repeat_length, Forall_repeat_fin).
  reflexivity.
Qed.

(** With all weights zero the mapper answers the middle of the blend
    range and no side gain. *)
Lemma processFeatures_zeroNet (features : Float32Array) :
  length features = 8%nat ->
  Forall (fun x => x <> NaN) features ->
  AudioFeatureProcessor.processFeatures Shape.zeroNet features
  = [Fin 0.5; Fin 0.5; Fin 0; Fin 0].
Proof.
  intros Hlen Hfeat. unfold AudioFeatureProcessor.processFeatures.
  rewrite (map_get_seq (fun x => max 0%R (min 1%R x)) features).
  rewrite forward_zeroNet.
  - cbn [repeat get nth]. simpl. Rtests. repeat f_equal; lra.
  - now rewrite length_map.
  - eapply Forall_impl; [| exact (normalized_fin _ Hfeat)].
    intros x (c & -> & _). exact I.
Qed.

(* ================================================================== *)
(** * The analysis of a valid buffer is finite *)
(* ================================================================== *)

Lemma valid_is_fin (a : Float32Array) :
  Forall Spec.valid_sample a -> Forall is_fin a.
Proof.
  intros H. eapply Forall_impl; [| exact H].
  intros x (r & -> & _). exact I.
Qed.

Lemma harmonicContent_fin (window : Float32Array) :
  Forall is_fin window ->
  (0 < length window)%nat ->
  is_fin (AudioUtils.calculateHarmonicContent window).
Proof.
  intros Hw Hlen. unfold AudioUtils.calculateHarmonicContent.
  assert (H : exists (e : R) (z : nat),
             for_loop 0 (length window) (AudioUtils.harmonicStep window)
               (Fin 0, O) = (Fin e, z) /\ (0 <= e)%R).
  { apply (for_loop_inv
             (fun _ s => exists (e : R) (z : nat),
                s = (Fin e, z) /\ (0 <= e)%R)); [lia | |].
    - exists 0%R, O. split; [reflexivity | lra].
    - intros i s Hi (e & z & -> & He).
      assert (Hi' : (i < length window)%nat) by lia.
      destruct (is_fin_inv _ (Forall_get _ _ _ Hw Hi')) as [a Ea].
      unfold AudioUtils.harmonicStep. rewrite Ea. cbn [mul add].
      pose proof (Rle_0_sqr a) as Hsq. unfold Rsqr in Hsq.
      do 2 eexists. split; [reflexivity | lra]. }
  destruct H as (e & z & -> & He).
  assert (Hn : (0 < INR (length window))%R) by (apply lt_0_INR; assumption).
  unfold of_nat. rewrite !div_fin by lra.
  rewrite sqrt_fin; [exact I |].
  apply Rmult_le_pos; [assumption |].
  apply Rlt_le, Rinv_0_lt_compat, Hn.
Qed.

Lemma length_slice (a : Float32Array) (start stop : nat) :
  length (slice a start stop)
  = Nat.min (stop - start) (length a - start).
Proof. unfold slice. now rewrite length_firstn, length_skipn. Qed.

Lemma richness_fin (b : AudioBuffer) :
  Spec.valid_buffer b ->
  AudioUtils.numWindows (Nat.min (length (left b)) (Z.to_nat 8192)) <> 0%Z ->
  is_fin (AudioUtils.calculateRichness b).
Proof.
  intros (Hlen & Hn & Hl & Hr) Hnw. unfold AudioUtils.calculateRichness.
  set (len := Nat.min (length (left b)) (Z.to_nat 8192)) in *.
  assert (Hsum : is_fin
            (for_step len 0 (len - 256) 128
               (AudioUtils.richnessStep (left b) (right b)) (Fin 0))).
  { apply (for_step_inv is_fin); [| exact I].
    intros i s Hi Hs. unfold AudioUtils.richnessStep.
    assert (Hle : (len <= length (left b))%nat) by apply Nat.le_min_l.
    repeat apply is_fin_add; try assumption.
    - apply harmonicContent_fin.
      + apply Forall_slice, valid_is_fin, Hl.
      + rewrite length_slice. lia.
    - apply harmonicContent_fin.
      + apply Forall_slice, valid_is_fin, Hr.
      + rewrite length_slice. lia. }
  destruct (is_fin_inv _ Hsum) as [h ->].
  unfold of_Z. rewrite div_fin by (apply not_0_IZR; assumption).
  simpl. destruct (Rltb _ _); exact I.
Qed.

(** The eight features of a valid buffer whose window count is not 0. *)
Lemma features_not_NaN (b : AudioBuffer) :
  Spec.valid_buffer b ->
  AudioUtils.numWindows (Nat.min (length (left b)) (Z.to_nat 8192)) <> 0%Z ->
  let analysis := AudioUtils.analyzeStereo b in
  Forall (fun x => x <> NaN)
    [ width analysis;
      richness analysis;
      rmsLevel analysis;
      peakLevel analysis;
      (phaseCorrelation analysis + 1%R) / 2%R;
      low (frequencyDistribution analysis);
      mid (frequencyDistribution analysis);
      high (frequencyDistribution analysis) ].
Proof.
  intros Hb Hnw analysis.
  destruct (phaseCorrelation_valid b Hb) as (pc & Hpc & _).
  fold analysis in Hpc.
  destruct (frequencyDistribution_valid b Hb)
    as (x & y & z & lo & mi & hi & _ & Hf & _).
  pose proof (richness_fin b Hb Hnw) as Hrich.
  destruct Hb as (Hlen & Hn & Hl & Hr).
  destruct (stereoSums_valid _ _ Hlen Hl Hr (length (left b)) (le_n _))
    as (w & m & p & Hs & Hw & Hm & Hp).
  assert (Hn0 : (0 < INR (length (left b)))%R) by (apply lt_0_INR; lia).
  assert (Hwidth : is_fin (width analysis)).
  { unfold analysis, AudioUtils.analyzeStereo. cbn [width].
    rewrite Hs. cbn [AudioUtils.widthSum]. unfold of_nat.
    rewrite div_fin by lra. simpl. destruct (Rltb _ _); exact I. }
  assert (Hrms : is_fin (rmsLevel analysis)).
  { unfold analysis, AudioUtils.analyzeStereo. cbn [rmsLevel].
    rewrite Hs. cbn [AudioUtils.rmsSum]. unfold of_nat.
    rewrite div_fin by lra. rewrite sqrt_fin; [exact I |].
    apply Rmult_le_pos; [assumption |].
    apply Rlt_le, Rinv_0_lt_compat, Hn0. }
  assert (Hpeak : is_fin (peakLevel analysis)).
  { unfold analysis, AudioUtils.analyzeStereo. cbn [peakLevel].
    rewrite Hs. exact I. }
  assert (Hfreq : frequencyDistribution analysis
                  = {| low := Fin lo; mid := Fin mi; high := Fin hi |}).
  { unfold analysis, AudioUtils.analyzeStereo.
    cbn [frequencyDistribution]. exact Hf. }
  rewrite Hfreq, Hpc. cbn [low mid high add div].
  rewrite Reqb_false by lra.
  assert (Hrich' : is_fin (richness analysis)) by exact Hrich.
  destruct (width analysis), (richness analysis), (rmsLevel analysis),
    (peakLevel analysis); try contradiction.
  repeat constructor; discriminate.
Qed.

(* ================================================================== *)
(** * The width test under zero weights *)
(* ================================================================== *)

Lemma valid_quadrature : Spec.valid_buffer Scenario.quadrature.
Proof.
  unfold Spec.valid_buffer, Scenario.quadrature. cbn [left right].
  rewrite !length_map, !length_seq.
  split; [reflexivity |]. split; [lia |]. split.
  - apply Forall_map_seq. intros i _. unfold of_nat. cbn [mul sin].
    eexists. split; [reflexivity |].
    pose proof (SIN_bound (INR i * 0.1)). lra.
  - apply Forall_map_seq. intros i _. unfold of_nat.
    rewrite div_fin by lra. cbn [mul add sin].
    eexists. split; [reflexivity |].
    pose proof (SIN_bound (INR i * 0.1 + PI / 2)). lra.
Qed.

(** With a side gain of 0 the downmix is the weighted sum of the
    channels, whatever [preserveWidth] is. *)
Lemma downmix_no_side (this : StereoToMonoConverter.t) (b : AudioBuffer)
  (analysis : StereoAnalysis) (lw rw hg : R) :
  Spec.valid_buffer b ->
  is_fin (preserveWidth (StereoToMonoConverter.options this)) ->
  StereoToMonoConverter.performIntelligentDownmix this b analysis
    [Fin lw; Fin rw; Fin 0; Fin hg]
  = map (fun i => get (left b) i * Fin lw + get (right b) i * Fin rw)
        (seq 0 (length (left b))).
Proof.
  intros (Hlen & Hn & Hl & Hr) Hpw.
  unfold StereoToMonoConverter.performIntelligentDownmix.
  apply map_ext_in. intros i Hi. apply in_seq in Hi.
  destruct (valid_get _ i Hl ltac:(lia)) as [El _].
  destruct (valid_get _ i Hr ltac:(lia)) as [Er _].
  rewrite El, Er. cbn [get nth].
  destruct (is_fin_inv _ Hpw) as [w ->].
  destruct (_ >? _); [| reflexivity].
  unfold sub. cbn [opp add mul]. f_equal. ring.
Qed.

(** Whatever the network, when the mapper answers a side gain of 0 for a
    valid buffer, setting [preserveWidth] does not change what [convert]
    returns. *)
Lemma convertSamples_no_side_gain (this : StereoToMonoConverter.t)
  (b : AudioBuffer) (lw rw hg w1 w2 : R) :
  Spec.valid_buffer b ->
  AudioFeatureProcessor.processFeatures
    (StereoToMonoConverter.processor this)
    [ width (AudioUtils.analyzeStereo b);
      richness (AudioUtils.analyzeStereo b);
      rmsLevel (AudioUtils.analyzeStereo b);
      peakLevel (AudioUtils.analyzeStereo b);
      (phaseCorrelation (AudioUtils.analyzeStereo b) + 1%R) / 2%R;
      low (frequencyDistribution (AudioUtils.analyzeStereo b));
      mid (frequencyDistribution (AudioUtils.analyzeStereo b));
      high (frequencyDistribution (AudioUtils.analyzeStereo b)) ]
  = [Fin lw; Fin rw; Fin 0; Fin hg] ->
  StereoToMonoConverter.convertSamples
    (StereoToMonoConverter.setOptions this (Scenario.withWidth w1)) b
  = StereoToMonoConverter.convertSamples
      (StereoToMonoConverter.setOptions this (Scenario.withWidth w2)) b.
Proof.
  intros Hb Hw. unfold StereoToMonoConverter.convertSamples.
  unfold StereoToMonoConverter.calculateMixingWeights.
  cbn [StereoToMonoConverter.processor StereoToMonoConverter.setOptions].
  rewrite Hw.
  rewrite !downmix_no_side by (assumption || exact I).
  reflexivity.
Qed.

(** Under the zero network the conversion of a valid buffer does not
    depend on [preserveWidth]. *)
Lemma convertSamples_width_ignored (b : AudioBuffer) (w : R) :
  Spec.valid_buffer b ->
  AudioUtils.numWindows (Nat.min (length (left b)) (Z.to_nat 8192)) <> 0%Z ->
  StereoToMonoConverter.convertSamples
    {| StereoToMonoConverter.options :=
         StereoToMonoConverter.defaults (Scenario.withWidth w);
       StereoToMonoConverter.processor := Shape.zeroNet |} b
  = StereoToMonoConverter.convertSamples
      {| StereoToMonoConverter.options :=
           StereoToMonoConverter.defaults (Scenario.withWidth 0);
         StereoToMonoConverter.processor := Shape.zeroNet |} b.
Proof.
  intros Hb Hnw. unfold StereoToMonoConverter.convertSamples.
  unfold StereoToMonoConverter.calculateMixingWeights.
  cbn [StereoToMonoConverter.processor].
  rewrite processFeatures_zeroNet;
    [| reflexivity | apply features_not_NaN; assumption].
  rewrite !downmix_no_side by (assumption || exact I).
  reflexivity.
Qed.

Lemma new_half (o : ConversionOptions) (n : nat) :
  fst (StereoToMonoConverter.new o Scenario.half n)
  = {| StereoToMonoConverter.options := StereoToMonoConverter.defaults o;
       StereoToMonoConverter.processor := Shape.zeroNet |}.
Proof.
  unfold StereoToMonoConverter.new, Rand.bind.
  pose proof (processor_half n) as H.
  destruct (AudioFeatureProcessor.new Scenario.half n) as [p n'].
  simpl in *. now subst.
Qed.

(** ** The stages of [convert] keep finite samples finite *)

Lemma for_step_inv_index {S : Type} (Q : nat -> Prop) (P : S -> Prop)
  (stop step : nat) (body : S -> nat -> S) :
  (forall i, Q i -> Q (i + step)%nat) ->
  (forall i x, (i < stop)%nat -> Q i -> P x -> P (body x i)) ->
  forall fuel i s, Q i -> P s -> P (for_step fuel i stop step body s).
Proof.
  intros HQ Hbody. induction fuel; intros i s Hi Hs; simpl; [assumption |].
  destruct (Nat.ltb_spec i stop); [| assumption].
  apply IHfuel; [apply HQ, Hi | apply Hbody; assumption].
Qed.

Lemma length_applyHannWindow (samples : Float32Array) :
  length (AudioUtils.applyHannWindow samples) = length samples.
Proof. unfold AudioUtils.applyHannWindow. now rewrite length_map, length_seq. Qed.

(** A window of one sample is multiplied by cos(0/0); any other finite
    window stays finite. *)
Lemma applyHannWindow_fin (samples : Float32Array) :
  Forall is_fin samples ->
  length samples <> 1%nat ->
  Forall is_fin (AudioUtils.applyHannWindow samples).
Proof.
  intros Hfin Hlen. unfold AudioUtils.applyHannWindow.
  apply Forall_map_seq. intros i Hi.
  destruct (is_fin_inv _ (Forall_get _ _ _ Hfin Hi)) as [a ->].
  assert (H2 : (2 <= INR (length samples))%R).
  { change 2%R with (INR 2). apply le_INR. lia. }
  unfold of_nat, sub. cbn [opp add mul].
  rewrite div_fin by lra. exact I.
Qed.

Lemma Forall_set (P : num -> Prop) (a : Float32Array) (i : nat) (v : num) :
  Forall P a -> P v -> Forall P (set a i v).
Proof.
  intros Ha Hv. revert i. induction Ha; intros [| i]; simpl;
    constructor; auto.
Qed.

Lemma Forall_parts (P : num -> Prop) (a : Float32Array) (k : nat) :
  Forall P a -> Forall P (firstn k a) /\ Forall P (skipn k a).
Proof.
  intros H. rewrite <- (firstn_skipn k a) in H.
  apply Forall_app in H. exact H.
Qed.

Lemma set_array_fin (a src : Float32Array) (offset : nat) :
  Forall is_fin a -> Forall is_fin src ->
  Forall is_fin (set_array a src offset).
Proof.
  intros Ha Hs. unfold set_array.
  destruct (Forall_parts _ _ offset Ha) as [H1 _].
  destruct (Forall_parts _ _ (offset + length src) Ha) as [_ H2].
  repeat (apply Forall_app; split); assumption.
Qed.

Lemma length_set_array (a src : Float32Array) (offset : nat) :
  (offset + length src <= length a)%nat ->
  length (set_array a src offset) = length a.
Proof.
  intros H. unfold set_array.
  rewrite !length_app, length_firstn, length_skipn. lia.
Qed.

(** The windows of a channel of 1000 samples start at 0, 256, 512 and
    768 and none has a single sample. *)
Lemma extractHarmonicContent_fin (b : AudioBuffer) :
  Spec.valid_buffer b ->
  length (left b) = 1000%nat ->
  Forall is_fin (StereoToMonoConverter.extractHarmonicContent b).
Proof.
  intros (Hlen & Hn & Hl & Hr) H1000.
  unfold StereoToMonoConverter.extractHarmonicContent.
  rewrite H1000. change (Nat.min 512 1000) with 512%nat.
  set (harmonic := map _ (seq 0 1000)).
  assert (H0 : Forall is_fin harmonic /\ length harmonic = 1000%nat).
  { split.
    - apply Forall_map_seq. intros i Hi.
      destruct (valid_get _ i Hl ltac:(lia)) as [-> _].
      destruct (valid_get _ i Hr ltac:(lia)) as [-> _]. exact I.
    - unfold harmonic. now rewrite length_map, length_seq. }
  apply (for_step_inv_index
           (fun i2 => (i2 mod 512 = 0)%nat)
           (fun h => Forall is_fin h /\ length h = 1000%nat));
    [| | reflexivity | exact H0].
  - intros i Hi.
    rewrite <- Nat.Div0.add_mod_idemp_l, Hi. reflexivity.
  - intros i2 h Hi2 Hmod [Hfin Hh].
    unfold StereoToMonoConverter.windowStep.
    assert (Hi : (i2 <= 1536)%nat).
    { pose proof (Nat.div_mod_eq i2 512) as E. rewrite Hmod in E. lia. }
    assert (Hstart : (i2 / 2 <= 768)%nat)
      by (apply Nat.Div0.div_le_upper_bound; lia).
    assert (Hstop : (i2 / 2 + 2 <= Nat.min ((i2 + 2 * 512) / 2) 1000)%nat).
    { assert ((i2 + 2 * 512) / 2 = i2 / 2 + 512)%nat.
      { replace (i2 + 2 * 512)%nat with (i2 + 512 * 2)%nat by lia.
        now rewrite Nat.div_add by lia. }
      lia. }
    set (stop := Nat.min ((i2 + 2 * 512) / 2) 1000) in *.
    assert (Hsl : length (slice h (i2 / 2) stop) = (stop - i2 / 2)%nat).
    { rewrite length_slice, Hh. unfold stop. lia. }
    split.
    + apply set_array_fin; [assumption |].
      apply applyHannWindow_fin; [apply Forall_slice, Hfin | lia].
    + rewrite length_set_array; [assumption |].
      rewrite length_applyHannWindow, Hsl, Hh. unfold stop. lia.
Qed.

Lemma enhanceHighFrequencies_fin this samples ratio :
  is_fin (preserveRichness (StereoToMonoConverter.options this)) ->
  is_fin ratio ->
  Forall is_fin samples ->
  Forall is_fin
    (StereoToMonoConverter.enhanceHighFrequencies this samples ratio).
Proof.
  intros Hpr Hratio Hs.
  unfold StereoToMonoConverter.enhanceHighFrequencies.
  destruct (Nat.le_gt_cases 1 (length samples)) as [Hle | Hgt].
  - enough (H : Forall is_fin
                  (for_loop 1 (length samples)
                     (fun samples0 i =>
                        set samples0 i
                          (get samples0 i
                           + (get samples0 i - get samples0 (i - 1)) * 0.5%R
                             * (1%R + ratio * 0.2%R
                                      * preserveRichness
                                          (StereoToMonoConverter.options this)
                                - 1%R)))
                     samples) /\
                length
                  (for_loop 1 (length samples)
                     (fun samples0 i =>
                        set samples0 i
                          (get samples0 i
                           + (get samples0 i - get samples0 (i - 1)) * 0.5%R
                             * (1%R + ratio * 0.2%R
                                      * preserveRichness
                                          (StereoToMonoConverter.options this)
                                - 1%R)))
                     samples) = length samples) by apply H.
    apply (for_loop_inv
             (fun _ a => Forall is_fin a /\ length a = length samples));
      [assumption | split; [assumption | reflexivity] |].
    intros i a Hi [Ha Hl]. split; [| now rewrite length_set].
    apply Forall_set; [assumption |].
    assert (Hgi : is_fin (get a i))
      by (apply Forall_get; [assumption | lia]).
    assert (Hgp : is_fin (get a (i - 1)))
      by (apply Forall_get; [assumption | lia]).
    repeat first [ assumption | exact I | apply is_fin_sub
                 | apply is_fin_mul | apply is_fin_add ].
  - now rewrite for_loop_nil by lia.
Qed.

Lemma calculateRMS_fin (samples : Float32Array) :
  Forall is_fin samples ->
  (0 < length samples)%nat ->
  is_fin (AudioUtils.calculateRMS samples).
Proof.
  intros Hfin Hlen. unfold AudioUtils.calculateRMS.
  assert (H : exists e : R,
             for_loop 0 (length samples)
               (fun sum i => sum + get samples i * get samples i) (Fin 0)
             = Fin e /\ (0 <= e)%R).
  { apply (for_loop_inv
             (fun _ s => exists e : R, s = Fin e /\ (0 <= e)%R)); [lia | |].
    - exists 0%R. split; [reflexivity | lra].
    - intros i s Hi (e & -> & He).
      assert (Hi' : (i < length samples)%nat) by lia.
      destruct (is_fin_inv _ (Forall_get _ _ _ Hfin Hi')) as [a ->].
      cbn [mul add]. pose proof (Rle_0_sqr a) as Hsq. unfold Rsqr in Hsq.
      eexists. split; [reflexivity | lra]. }
  destruct H as (e & -> & He).
  assert (Hn : (0 < INR (length samples))%R) by (apply lt_0_INR; assumption).
  unfold of_nat. rewrite div_fin by lra.
  rewrite sqrt_fin; [exact I |].
  apply Rmult_le_pos; [assumption |].
  apply Rlt_le, Rinv_0_lt_compat, Hn.
Qed.

Lemma normalize_fin (samples : Float32Array) (target : num) :
  Forall is_fin samples ->
  is_fin target ->
  Forall is_fin (AudioUtils.normalize samples target).
Proof.
  intros Hfin Ht. unfold AudioUtils.normalize.
  destruct samples as [| x samples'] eqn:E; [now destruct (_ =? _) |].
  rewrite <- E in *.
  assert (Hlen : (0 < length samples)%nat) by (rewrite E; simpl; lia).
  destruct (is_fin_inv _ (calculateRMS_fin samples Hfin Hlen)) as [c ->].
  cbn [eqb]. destruct (Reqb_spec c 0) as [_ | Hc]; [assumption |].
  destruct (is_fin_inv _ Ht) as [t ->]. rewrite div_fin by assumption.
  apply Forall_map_seq. intros i Hi.
  apply is_fin_max; [exact I |]. apply is_fin_min; [exact I |].
  apply is_fin_mul; [apply Forall_get; assumption | exact I].
Qed.

Lemma softClip_fin (samples : Float32Array) :
  Forall is_fin samples ->
  Forall is_fin (AudioUtils.softClip samples 0.95%R).
Proof.
  intros Hfin. unfold AudioUtils.softClip.
  apply Forall_map_seq. intros i Hi.
  destruct (is_fin_inv _ (Forall_get _ _ _ Hfin Hi)) as [a ->].
  unfold AudioUtils.softClipSample. cbn [abs le].
  destruct (Rleb _ _); [exact I |].
  unfold sub. cbn [opp add]. rewrite div_fin by lra.
  destruct (_ >=? _); exact I.
Qed.

Lemma preservation_fin this mono b analysis :
  Spec.valid_buffer b ->
  length (left b) = 1000%nat ->
  is_fin (preserveRichness (StereoToMonoConverter.options this)) ->
  is_fin (richness analysis) ->
  is_fin (high (frequencyDistribution analysis)) ->
  Forall is_fin mono ->
  length mono = 1000%nat ->
  Forall is_fin
    (StereoToMonoConverter.applyPreservationTechniques this mono b analysis).
Proof.
  intros Hb H1000 Hpr Hrich Hhigh Hmono Hlen.
  unfold StereoToMonoConverter.applyPreservationTechniques.
  destruct (_ =? _); [assumption |].
  assert (Henh :
    Forall is_fin
      (if spectralAnalysis (StereoToMonoConverter.options this)
          && (richness analysis >? 0.3%R)
       then
         map (fun i =>
                get mono i
                + get (StereoToMonoConverter.extractHarmonicContent b) i
                  * (preserveRichness (StereoToMonoConverter.options this)
                     * richness analysis)
                  * 0.15%R)
             (seq 0 (length mono))
       else mono)).
  { destruct (_ && _); [| assumption].
    pose proof (extractHarmonicContent_fin b Hb H1000) as Hh.
    assert (Hhl : length (StereoToMonoConverter.extractHarmonicContent b)
                  = 1000%nat).
    { unfold StereoToMonoConverter.extractHarmonicContent.
      rewrite H1000. change (Nat.min 512 1000) with 512%nat.
      apply (for_step_inv (fun h => length h = 1000%nat)).
      - intros i2 h Hi2 Hh'.
        unfold StereoToMonoConverter.windowStep.
        rewrite length_set_array; [assumption |].
        rewrite length_applyHannWindow, length_slice, Hh'.
        assert ((i2 + 2 * 512) / 2 = i2 / 2 + 512)%nat.
        { replace (i2 + 2 * 512)%nat with (i2 + 512 * 2)%nat by lia.
          now rewrite Nat.div_add by lia. }
        assert (i2 / 2 < 1000)%nat
          by (apply Nat.Div0.div_lt_upper_bound; lia).
        lia.
      - now rewrite length_map, length_seq. }
    apply Forall_map_seq. intros i Hi. rewrite Hlen in Hi.
    repeat first [ exact I | apply is_fin_add | apply is_fin_mul
                 | assumption
                 | apply Forall_get; [assumption | lia] ]. }
  destruct (_ >? 0.2%R); [| assumption].
  apply enhanceHighFrequencies_fin; assumption.
Qed.

(** Under the zero network and the default options a valid buffer of 1000
    samples is converted to finite samples. *)
Lemma convertSamples_zeroNet_fin (b : AudioBuffer) (w : R) :
  Spec.valid_buffer b ->
  length (left b) = 1000%nat ->
  Forall is_fin
    (StereoToMonoConverter.convertSamples
       {| StereoToMonoConverter.options :=
            StereoToMonoConverter.defaults (Scenario.withWidth w);
          StereoToMonoConverter.processor := Shape.zeroNet |} b).
Proof.
  intros Hb H1000.
  assert (Hnw : AudioUtils.numWindows
                  (Nat.min (length (left b)) (Z.to_nat 8192)) <> 0%Z)
    by (rewrite H1000; discriminate).
  pose proof (features_not_NaN b Hb Hnw) as Hfeat. cbv zeta in Hfeat.
  unfold StereoToMonoConverter.convertSamples.
  unfold StereoToMonoConverter.calculateMixingWeights.
  cbn [StereoToMonoConverter.processor].
  rewrite processFeatures_zeroNet; [| reflexivity | exact Hfeat].
  rewrite downmix_no_side by (assumption || exact I).
  set (analysis := AudioUtils.analyzeStereo b) in *.
  destruct (frequencyDistribution_valid b Hb)
    as (x & y & z & lo & mi & hi & _ & Hf & _).
  assert (Hfreq : frequencyDistribution analysis
                  = {| low := Fin lo; mid := Fin mi; high := Fin hi |}).
  { unfold analysis, AudioUtils.analyzeStereo.
    cbn [frequencyDistribution]. exact Hf. }
  assert (Hrich : is_fin (richness analysis))
    by (apply richness_fin; assumption).
  destruct Hb as (Hlen & Hn & Hl & Hr).
  destruct (stereoSums_valid _ _ Hlen Hl Hr (length (left b)) (le_n _))
    as (ws & m & p & Hs & Hw & Hm & Hp).
  assert (Hn0 : (0 < INR (length (left b)))%R) by (apply lt_0_INR; lia).
  assert (Hwidth : is_fin (width analysis)).
  { unfold analysis, AudioUtils.analyzeStereo. cbn [width].
    rewrite Hs. cbn [AudioUtils.widthSum]. unfold of_nat.
    rewrite div_fin by lra. simpl. destruct (Rltb _ _); exact I. }
  assert (Hrms : is_fin (rmsLevel analysis)).
  { unfold analysis, AudioUtils.analyzeStereo. cbn [rmsLevel].
    rewrite Hs. cbn [AudioUtils.rmsSum]. unfold of_nat.
    rewrite div_fin by lra. rewrite sqrt_fin; [exact I |].
    apply Rmult_le_pos; [assumption |].
    apply Rlt_le, Rinv_0_lt_compat, Hn0. }
  apply softClip_fin.
  unfold StereoToMonoConverter.applyVolumeCompensation.
  apply normalize_fin.
  - apply preservation_fin; try assumption.
    + repeat split; assumption.
    + exact I.
    + rewrite Hfreq. exact I.
    + apply Forall_map_seq. intros i Hi.
      destruct (valid_get _ i Hl ltac:(lia)) as [-> _].
      destruct (valid_get _ i Hr ltac:(lia)) as [-> _]. exact I.
    + now rewrite length_map, length_seq.
  - cbn [StereoToMonoConverter.options volumeCompensation
         StereoToMonoConverter.defaults Scenario.withWidth
         opt_volumeCompensation StereoToMonoConverter.nullish].
    repeat first [ exact I | assumption | apply is_fin_mul
                 | apply is_fin_add ].
Qed.

Lemma summedDifference_fin (mono : Float32Array) :
  Forall is_fin mono -> Scenario.summedDifference mono mono = Fin 0.
Proof.
  intros Hfin. unfold Scenario.summedDifference.
  apply (for_loop_inv (fun _ s => s = Fin 0)); [lia | reflexivity |].
  intros i s Hi ->.
  assert (Hi' : (i < length mono)%nat) by lia.
  destruct (is_fin_inv _ (Forall_get _ _ _ Hfin Hi')) as [r ->].
  unfold sub. cbn [opp add abs]. f_equal.
  replace (r + - r)%R with 0%R by lra. rewrite Rabs_R0. lra.
Qed.

(** On every valid buffer of 1000 samples the converters drawn from
    the constant generator agree, and the difference the test sums is 0. *)
Lemma preserveWidthTest_half (b : AudioBuffer) :
  Spec.valid_buffer b ->
  length (left b) = 1000%nat ->
  StereoToMonoConverter.calculateMixingWeights
    (Rand.run (StereoToMonoConverter.new (Scenario.withWidth 1))
       Scenario.half)
    (AudioUtils.analyzeStereo b)
  = [Fin 0.5; Fin 0.5; Fin 0; Fin 0] /\
  StereoToMonoConverter.convert
    (Rand.run (StereoToMonoConverter.new (Scenario.withWidth 1))
       Scenario.half) b
  = StereoToMonoConverter.convert
      (Rand.run (StereoToMonoConverter.new (Scenario.withWidth 0))
         Scenario.half) b /\
  Rand.run (Scenario.preserveWidthTest b) Scenario.half = Fin 0.
Proof.
  intros Hb H1000.
  assert (Hnw : AudioUtils.numWindows
                  (Nat.min (length (left b)) (Z.to_nat 8192)) <> 0%Z)
    by (rewrite H1000; discriminate).
  split; [| split].
  - unfold Rand.run. rewrite new_half.
    unfold StereoToMonoConverter.calculateMixingWeights.
    cbn [StereoToMonoConverter.processor].
    apply processFeatures_zeroNet;
      [reflexivity | apply features_not_NaN; assumption].
  - unfold Rand.run, StereoToMonoConverter.convert.
    rewrite !new_half.
    now rewrite (convertSamples_width_ignored b 1 Hb Hnw).
  - unfold Rand.run, Scenario.preserveWidthTest, Rand.bind.
    pose proof (new_half (Scenario.withWidth 0) 0) as H0.
    destruct (StereoToMonoConverter.new (Scenario.withWidth 0)
                Scenario.half 0%nat) as [c0 n0].
    pose proof (new_half (Scenario.withWidth 1) n0) as H1.
    destruct (StereoToMonoConverter.new (Scenario.withWidth 1)
                Scenario.half n0) as [c1 n1].
    cbn [fst] in H0, H1. subst c0 c1. unfold Rand.ret. cbn [fst].
    rewrite (convertSamples_width_ignored _ 1 Hb Hnw).
    apply summedDifference_fin, convertSamples_zeroNet_fin; assumption.
Qed.

Lemma length_quadrature : length (left Scenario.quadrature) = 1000%nat.
Proof.
  unfold Scenario.quadrature. cbn [left]. now rewrite length_map, length_seq.
Qed.

(** C9, at its failing input: when every draw of [Math.random] is 0.5
    (a value it may return) all weights of both networks are 0, the mapper answers side gain 0
    for the quadrature buffer, and the converters with [preserveWidth] 0
    and 1 return the same sequence; the summed absolute difference the
    test computes is 0, not greater than 0.5. *)
Theorem preserveWidth_test_half :
  Rand.valid Scenario.half /\
  Spec.valid_buffer Scenario.quadrature /\
  StereoToMonoConverter.calculateMixingWeights
    (Rand.run (StereoToMonoConverter.new (Scenario.withWidth 1))
       Scenario.half)
    (AudioUtils.analyzeStereo Scenario.quadrature)
  = [Fin 0.5; Fin 0.5; Fin 0; Fin 0] /\
  StereoToMonoConverter.convert
    (Rand.run (StereoToMonoConverter.new (Scenario.withWidth 1))
       Scenario.half) Scenario.quadrature
  = StereoToMonoConverter.convert
      (Rand.run (StereoToMonoConverter.new (Scenario.withWidth 0))
         Scenario.half) Scenario.quadrature /\
  Rand.run (Scenario.preserveWidthTest Scenario.quadrature) Scenario.half
  = Fin 0 /\
  (Rand.run (Scenario.preserveWidthTest Scenario.quadrature) Scenario.half
   >? 0.5%R) = false.
Proof.
  split; [intros n; unfold Scenario.half; lra |].
  split; [exact valid_quadrature |].
  destruct (preserveWidthTest_half Scenario.quadrature valid_quadrature
              length_quadrature) as (Hw & Hc & Hd).
  split; [exact Hw |]. split; [exact Hc |]. split; [exact Hd |].
  rewrite Hd. unfold gt. cbn [lt]. now rewrite Rltb_false by lra.
Qed.

(* ================================================================== *)
(** * The loops with a stride end within their fuel *)
(* ================================================================== *)

Lemma calculateRichness_fuel (b : AudioBuffer) (fuel : nat) :
  let length := Nat.min (length (left b)) (Z.to_nat 8192) in
  (length <= fuel)%nat ->
  for_step fuel 0 (length - 256) 128
    (AudioUtils.richnessStep (left b) (right b)) (Fin 0)
  = for_step length 0 (length - 256) 128
      (AudioUtils.richnessStep (left b) (right b)) (Fin 0).
Proof.
  intros len H. apply for_step_fuel; lia.
Qed.

Lemma extractHarmonicContent_fuel (b : AudioBuffer) (fuel : nat)
  (harmonic : Float32Array) :
  let length := length (left b) in
  (2 * length <= fuel)%nat ->
  for_step fuel 0 (2 * length) (Nat.min 512 length)
    (StereoToMonoConverter.windowStep (Nat.min 512 length) length) harmonic
  = for_step (2 * length) 0 (2 * length) (Nat.min 512 length)
      (StereoToMonoConverter.windowStep (Nat.min 512 length) length)
      harmonic.
Proof.
  intros len H. destruct (Nat.eq_dec len 0) as [E | E].
  - rewrite E. simpl. now rewrite for_step_done by lia.
  - apply for_step_fuel; lia.
Qed.

(* ================================================================== *)
(** * The theorems at a short buffer *)
(* ================================================================== *)

Lemma valid_short : Spec.valid_buffer Scenario.short.
Proof.
  unfold Spec.valid_buffer, Scenario.short. cbn [left right length].
  split; [reflexivity |]. split; [lia |].
  split; repeat constructor; eexists; (split; [reflexivity | lra]).
Qed.

Lemma short_buffer_analysis_witness :
  AudioUtils.numWindows
    (Nat.min (length (left Scenario.short)) (Z.to_nat 8192)) <> 0%Z /\
  for_step (Nat.min (length (left Scenario.short)) (Z.to_nat 8192)) 0
    (Nat.min (length (left Scenario.short)) (Z.to_nat 8192) - 256) 128
    (AudioUtils.richnessStep (left Scenario.short) (right Scenario.short))
    (Fin 0) = Fin 0 /\
  exists (analysis : StereoAnalysis) (lo mi hi : R),
    StereoToMonoConverter.analyze
      (Rand.run (StereoToMonoConverter.new StereoToMonoConverter.noOptions)
         Scenario.half)
      Scenario.short = Normal analysis /\
    richness analysis = Fin 0 /\
    frequencyDistribution analysis
    = {| low := Fin lo; mid := Fin mi; high := Fin hi |}.
Proof.
  apply (short_buffer_analysis
           (Rand.run
              (StereoToMonoConverter.new StereoToMonoConverter.noOptions)
              Scenario.half)
           Scenario.short).
  - exact valid_short.
  - simpl. lia.
Defined.

Lemma phaseCorrelation_spec_witness :
  exists (analysis : StereoAnalysis) (pc : R),
    StereoToMonoConverter.analyze
      (Rand.run (StereoToMonoConverter.new StereoToMonoConverter.noOptions)
         Scenario.half)
      Scenario.short = Normal analysis /\
    phaseCorrelation analysis = Fin pc /\
    ((0 < Spec.rms (left Scenario.short)
            (length (left Scenario.short)))%R ->
     (0 < Spec.rms (right Scenario.short)
            (length (left Scenario.short)))%R ->
     pc = (Spec.meanProduct (left Scenario.short) (right Scenario.short)
             (length (left Scenario.short))
           / (Spec.rms (left Scenario.short) (length (left Scenario.short))
              * Spec.rms (right Scenario.short)
                  (length (left Scenario.short))))%R) /\
    (Spec.rms (left Scenario.short) (length (left Scenario.short)) = 0%R \/
     Spec.rms (right Scenario.short) (length (left Scenario.short)) = 0%R ->
     pc = 0%R) /\
    (-1 <= pc <= 1)%R.
Proof.
  apply (phaseCorrelation_spec
           (Rand.run
              (StereoToMonoConverter.new StereoToMonoConverter.noOptions)
              Scenario.half)
           Scenario.short).
  exact valid_short.
Defined.

Lemma frequencyDistribution_spec_witness :
  exists (analysis : StereoAnalysis) (lowE midE highE lo mi hi : R),
    StereoToMonoConverter.analyze
      (Rand.run (StereoToMonoConverter.new StereoToMonoConverter.noOptions)
         Scenario.half)
      Scenario.short = Normal analysis /\
    AudioUtils.bandEnergies Scenario.short
    = (Fin lowE, Fin midE, Fin highE) /\
    frequencyDistribution analysis
    = {| low := Fin lo; mid := Fin mi; high := Fin hi |} /\
    (0 <= lowE + midE + highE)%R /\
    (0 <= lo)%R /\ (0 <= mi)%R /\ (0 <= hi)%R /\
    ((0 < lowE + midE + highE)%R -> (lo + mi + hi = 1)%R) /\
    ((lowE + midE + highE = 0)%R -> lo = 0%R /\ mi = 0%R /\ hi = 0%R).
Proof.
  apply (frequencyDistribution_spec
           (Rand.run
              (StereoToMonoConverter.new StereoToMonoConverter.noOptions)
              Scenario.half)
           Scenario.short).
  exact valid_short.
Defined.

(* ================================================================== *)
(** * More of the code: the soft clipper and the output range *)
(* ================================================================== *)

Lemma cosh_gt_0 (x : R) : (0 < Rtrigo_def.cosh x)%R.
Proof.
  unfold Rtrigo_def.cosh.
  pose proof (exp_pos x). pose proof (exp_pos (- x)). lra.
Qed.

Lemma tanh_lt_1 (x : R) : (Rtrigo_def.tanh x < 1)%R.
Proof.
  unfold Rtrigo_def.tanh. pose proof (cosh_gt_0 x) as Hc.
  assert (Hs : (Rtrigo_def.sinh x < Rtrigo_def.cosh x)%R).
  { unfold Rtrigo_def.sinh, Rtrigo_def.cosh.
    pose proof (exp_pos (- x)). lra. }
  assert (Hinv : (0 < / Rtrigo_def.cosh x)%R)
    by (apply Rinv_0_lt_compat, Hc).
  unfold Rdiv.
  replace 1%R with (Rtrigo_def.cosh x * / Rtrigo_def.cosh x)%R
    by (apply Rinv_r; lra).
  apply Rmult_lt_compat_r; assumption.
Qed.

Lemma tanh_gt_0 (x : R) : (0 < x)%R -> (0 < Rtrigo_def.tanh x)%R.
Proof.
  intros Hx. unfold Rtrigo_def.tanh.
  pose proof (cosh_gt_0 x) as Hc.
  assert (Hs : (0 < Rtrigo_def.sinh x)%R).
  { rewrite <- sinh_0. apply sinh_lt, Hx. }
  apply Rdiv_lt_0_compat; assumption.
Qed.

(** One finite sample through the clipper: above the threshold it lands
    strictly between the threshold and 1, with the sign it had. *)
Lemma softClipSample_fin (r t : R) :
  (0 < t < 1)%R ->
  exists y : R,
    AudioUtils.softClipSample (Fin r) t = Fin y /\
    (Rabs y < 1)%R /\
    ((Rabs r <= t)%R -> y = r) /\
    ((t < Rabs r)%R -> (t < Rabs y)%R) /\
    (0 <= r * y)%R.
Proof.
  intros Ht. unfold AudioUtils.softClipSample. cbn [abs le].
  destruct (Rleb_spec (Rabs r) t) as [Hle | Hgt].
  - exists r. split; [reflexivity |]. split; [lra |].
    split; [reflexivity |]. split; [lra |].
    pose proof (Rle_0_sqr r) as H. unfold Rsqr in H. exact H.
  - assert (Hr : (t < Rabs r)%R) by lra.
    set (u := ((Rabs r + - t) / (1 + - t))%R).
    assert (Hu : (0 < u)%R) by (apply Rdiv_lt_0_compat; lra).
    pose proof (tanh_gt_0 u Hu) as H0. pose proof (tanh_lt_1 u) as H1.
    set (m := (t + (1 + - t) * Rtrigo_def.tanh u)%R).
    assert (Hm : (t < m < 1)%R).
    { unfold m. split.
      - assert (0 < (1 + - t) * Rtrigo_def.tanh u)%R
          by (apply Rmult_lt_0_compat; lra).
        lra.
      - assert ((1 + - t) * Rtrigo_def.tanh u < (1 + - t) * 1)%R
          by (apply Rmult_lt_compat_l; lra).
        lra. }
    unfold sub, ge. cbn [opp add le]. rewrite div_fin by lra.
    cbn [tanh mul add]. fold u. fold m.
    unfold Rabs in Hr. destruct (Rcase_abs r) as [Hneg | Hpos].
    + rewrite (@Rleb_false 0 r) by lra. cbn [mul].
      exists (-1 * m)%R. split; [reflexivity |].
      assert (Ha : Rabs (-1 * m) = m).
      { replace (-1 * m)%R with (- m)%R by lra.
        rewrite Rabs_Ropp. apply Rabs_pos_eq. lra. }
      rewrite Ha. split; [lra |].
      split; [intros Hc; unfold Rabs in Hc; destruct (Rcase_abs r); lra |].
      split; [lra |].
      replace (r * (-1 * m))%R with ((- r) * m)%R by ring.
      apply Rmult_le_pos; lra.
    + rewrite (@Rleb_true 0 r) by lra. cbn [mul].
      exists (1 * m)%R. split; [reflexivity |].
      assert (Ha : Rabs (1 * m) = m).
      { replace (1 * m)%R with m by lra. apply Rabs_pos_eq. lra. }
      rewrite Ha. split; [lra |].
      split; [intros Hc; unfold Rabs in Hc; destruct (Rcase_abs r); lra |].
      split; [lra |].
      replace (r * (1 * m))%R with (r * m)%R by ring.
      apply Rmult_le_pos; lra.
Qed.

(** X1: for a threshold in (0,1), [softClip] maps every finite sample to
    a finite sample of magnitude at most 1 and of the same sign; a sample
    above the threshold stays above it; plus and minus infinity go to 1
    and -1, and NaN stays NaN. *)
Theorem softClip_bounded (samples : Float32Array) (t : R) (i : nat) :
  (0 < t < 1)%R ->
  (i < length samples)%nat ->
  (forall r : R, get samples i = Fin r ->
     exists y : R,
       get (AudioUtils.softClip samples t) i = Fin y /\
       (Rabs y <= 1)%R /\
       ((t < Rabs r)%R -> (t < Rabs y)%R) /\
       (0 <= r * y)%R) /\
  (get samples i = PosInf -> get (AudioUtils.softClip samples t) i = Fin 1) /\
  (get samples i = NegInf ->
   get (AudioUtils.softClip samples t) i = Fin (-1)) /\
  (get samples i = NaN -> get (AudioUtils.softClip samples t) i = NaN).
Proof.
  intros Ht Hi. unfold AudioUtils.softClip.
  rewrite get_map_seq by assumption.
  split; [| split; [| split]].
  - intros r ->.
    destruct (softClipSample_fin r t Ht) as (y & Hy & H1 & _ & H3 & H4).
    exists y. split; [exact Hy |]. split; [lra |]. split; assumption.
  - intros ->. unfold AudioUtils.softClipSample, sub, ge.
    cbn [abs le opp add div]. rewrite Rltb_false by lra.
    cbn [tanh mul add]. f_equal. lra.
  - intros ->. unfold AudioUtils.softClipSample, sub, ge.
    cbn [abs le opp add div]. rewrite Rltb_false by lra.
    cbn [tanh mul add]. f_equal. lra.
  - intros ->. reflexivity.
Qed.

Lemma softClip_bounded_witness :
  (forall r : R, get [Fin 3; Fin (1 / 2)] 0 = Fin r ->
     exists y : R,
       get (AudioUtils.softClip [Fin 3; Fin (1 / 2)] (9 / 10)%R) 0 = Fin y /\
       (Rabs y <= 1)%R /\
       ((9 / 10 < Rabs r)%R -> (9 / 10 < Rabs y)%R) /\
       (0 <= r * y)%R) /\
  (get [Fin 3; Fin (1 / 2)] 0 = PosInf ->
   get (AudioUtils.softClip [Fin 3; Fin (1 / 2)] (9 / 10)%R) 0 = Fin 1) /\
  (get [Fin 3; Fin (1 / 2)] 0 = NegInf ->
   get (AudioUtils.softClip [Fin 3; Fin (1 / 2)] (9 / 10)%R) 0
   = Fin (-1)) /\
  (get [Fin 3; Fin (1 / 2)] 0 = NaN ->
   get (AudioUtils.softClip [Fin 3; Fin (1 / 2)] (9 / 10)%R) 0 = NaN).
Proof.
  apply (softClip_bounded [Fin 3; Fin (1 / 2)] (9 / 10)%R 0%nat).
  - lra.
  - simpl. lia.
Defined.

(* ================================================================== *)
(** * More of the code: RMS and normalization *)
(* ================================================================== *)

Lemma Rsum_ext (f g : nat -> R) (n : nat) :
  (forall i, (i < n)%nat -> f i = g i) -> Spec.Rsum f n = Spec.Rsum g n.
Proof.
  induction n; intros H; simpl; [reflexivity |].
  rewrite IHn by (intros; apply H; lia). rewrite (H n) by lia. reflexivity.
Qed.

Lemma Rsum_scal (c : R) (f : nat -> R) (n : nat) :
  Spec.Rsum (fun i => (c * f i)%R) n = (c * Spec.Rsum f n)%R.
Proof. induction n; simpl; [lra |]. rewrite IHn. lra. Qed.

Lemma Rsum_le (f g : nat -> R) (n : nat) :
  (forall i, (i < n)%nat -> (f i <= g i)%R) ->
  (Spec.Rsum f n <= Spec.Rsum g n)%R.
Proof.
  induction n; intros H; simpl; [lra |].
  assert (Spec.Rsum f n <= Spec.Rsum g n)%R
    by (apply IHn; intros; apply H; lia).
  assert (f n <= g n)%R by (apply H; lia). lra.
Qed.

Lemma Rsum_nonneg_all (f : nat -> R) (n : nat) :
  (forall i, (0 <= f i)%R) -> (0 <= Spec.Rsum f n)%R.
Proof.
  intros H. induction n; simpl; [lra |]. pose proof (H n). lra.
Qed.

Lemma Rsum_const (c : R) (n : nat) :
  Spec.Rsum (fun _ => c) n = (INR n * c)%R.
Proof. induction n; [simpl; lra |]. simpl Spec.Rsum. rewrite IHn, S_INR. lra. Qed.

Lemma Rsum_sqr_zero (f : nat -> R) (n : nat) :
  Spec.Rsum (fun i => (f i * f i)%R) n = 0%R ->
  forall i, (i < n)%nat -> f i = 0%R.
Proof.
  induction n; intros H i Hi; [lia |]. simpl in H.
  pose proof (Rsum_sqr_nonneg f n) as Hs.
  pose proof (Rle_0_sqr (f n)) as Hq. unfold Rsqr in Hq.
  destruct (Nat.eq_dec i n) as [-> | Hne].
  - apply Rsqr_0_uniq. unfold Rsqr. lra.
  - apply IHn; [lra | lia].
Qed.

(** The sum of squares that [calculateRMS] accumulates. *)
Lemma sumSquares_fin (samples : Float32Array) (k : nat) :
  Forall is_fin samples ->
  (k <= length samples)%nat ->
  for_loop 0 k (fun sum i => sum + get samples i * get samples i) (Fin 0)
  = Fin (Spec.Rsum
           (fun i => (Spec.val (get samples i) * Spec.val (get samples i))%R)
           k).
Proof.
  intros Hfin. induction k; intros Hk; [reflexivity |].
  rewrite for_loop_S by lia. rewrite IHk by lia.
  assert (Hk' : (k < length samples)%nat) by lia.
  destruct (is_fin_inv _ (Forall_get _ _ _ Hfin Hk')) as [a Ea].
  cbn [Spec.Rsum]. rewrite Ea. reflexivity.
Qed.

(** A finite sum of squares has seen finite samples only. *)
Lemma sumSquares_inv (samples : Float32Array) (s : R) :
  for_loop 0 (length samples)
    (fun sum i => sum + get samples i * get samples i) (Fin 0) = Fin s ->
  Forall is_fin samples.
Proof.
  intros H.
  enough (Hinv : forall k, (k <= length samples)%nat ->
            let acc := for_loop 0 k
                         (fun sum i => sum + get samples i * get samples i)
                         (Fin 0) in
            acc = NaN \/ acc = PosInf \/
            (is_fin acc /\ forall i, (i < k)%nat -> is_fin (get samples i))).
  { destruct (Hinv (length samples) (le_n _)) as [E | [E | [_ Hall]]];
      try (rewrite H in E; discriminate).
    rewrite Forall_forall. intros x Hx.
    destruct (In_nth _ _ NaN Hx) as (i & Hi & <-). apply Hall, Hi. }
  induction k; intros Hk acc.
  - right. right. split; [exact I | intros; lia].
  - unfold acc. rewrite for_loop_S by lia.
    destruct (IHk ltac:(lia)) as [E | [E | [Hf Hall]]].
    + left. rewrite E. reflexivity.
    + rewrite E. destruct (get samples k); simpl; auto.
    + destruct (for_loop 0 k _ _) as [| | s' |]; try contradiction.
      destruct (get samples k) as [| | a |] eqn:Ek; simpl; auto.
      right. right. split; [exact I |].
      intros i Hi. destruct (Nat.eq_dec i k) as [-> | Hne].
      * rewrite Ek. exact I.
      * apply Hall. lia.
Qed.

(** The RMS of finite samples is the root of their mean square. *)
Lemma calculateRMS_value (samples : Float32Array) :
  Forall is_fin samples ->
  (0 < length samples)%nat ->
  AudioUtils.calculateRMS samples
  = Fin (Spec.rms samples (length samples)).
Proof.
  intros Hfin Hlen. unfold AudioUtils.calculateRMS.
  rewrite sumSquares_fin by (assumption || lia).
  assert (Hn : (0 < INR (length samples))%R) by (apply lt_0_INR; assumption).
  unfold of_nat. rewrite div_fin by lra.
  rewrite sqrt_fin; [reflexivity |].
  apply Rmult_le_pos; [apply Rsum_sqr_nonneg |].
  apply Rlt_le, Rinv_0_lt_compat, Hn.
Qed.

(** [currentRMS === 0] holds for the all-zero signals only. *)
Lemma calculateRMS_zero (samples : Float32Array) :
  AudioUtils.calculateRMS samples = Fin 0 ->
  samples = repeat (Fin 0) (length samples) /\ (0 < length samples)%nat.
Proof.
  intros H. unfold AudioUtils.calculateRMS in H.
  destruct (for_loop 0 (length samples) _ (Fin 0)) as [| | s |] eqn:Es;
    try discriminate.
  - unfold of_nat in H. simpl in H. destruct (Rltb _ _); discriminate.
  - pose proof (sumSquares_inv samples s Es) as Hfin.
    rewrite sumSquares_fin in Es by (assumption || lia).
    injection Es as Es.
    destruct (Nat.eq_dec (length samples) 0) as [E0 | Hne].
    + exfalso. rewrite E0 in H. unfold of_nat in H. simpl in H.
      rewrite Reqb_true in H by reflexivity.
      destruct (Rsign s); discriminate.
    + assert (Hn : (0 < INR (length samples))%R)
        by (apply lt_0_INR; lia).
      unfold of_nat in H. rewrite div_fin in H by lra.
      assert (Hq : (0 <= s / INR (length samples))%R).
      { rewrite <- Es. apply Rmult_le_pos; [apply Rsum_sqr_nonneg |].
        apply Rlt_le, Rinv_0_lt_compat, Hn. }
      rewrite sqrt_fin in H by assumption. injection H as H.
      apply sqrt_eq_0 in H; [| assumption].
      assert (Hs : s = 0%R).
      { apply Rmult_eq_reg_r with (/ INR (length samples))%R.
        - unfold Rdiv in H. lra.
        - apply Rinv_neq_0_compat. lra. }
      split; [| lia].
      apply Forall_eq_repeat. rewrite Forall_forall. intros x Hx.
      destruct (In_nth _ _ NaN Hx) as (i & Hi & <-).
      fold (get samples i).
      destruct (is_fin_inv _ (Forall_get _ _ _ Hfin Hi)) as [a Ea].
      rewrite Ea. f_equal. symmetry.
      rewrite Hs in Es.
      pose proof (Rsum_sqr_zero (fun i => Spec.val (get samples i))
                    (length samples) Es i Hi) as Hz.
      simpl in Hz. rewrite Ea in Hz. exact Hz.
  - unfold of_nat in H. simpl in H. destruct (Rltb _ _); discriminate.
Qed.

Lemma eqb_zero (x : num) : (x =? 0%R) = true -> x = Fin 0.
Proof.
  destruct x as [| | a |]; simpl; try discriminate.
  destruct (Reqb_spec a 0); [now subst | discriminate].
Qed.

(** Every sample [normalize] returns is NaN or lies in [-1, 1]. *)
Lemma normalize_range (samples : Float32Array) (target : num) :
  Forall (fun y => y = NaN \/ exists r : R, y = Fin r /\ (-1 <= r <= 1)%R)
         (AudioUtils.normalize samples target).
Proof.
  unfold AudioUtils.normalize.
  destruct (AudioUtils.calculateRMS samples =? 0%R) eqn:E.
  - apply eqb_zero, calculateRMS_zero in E. destruct E as [E _].
    rewrite E. rewrite Forall_forall. intros y Hy.
    apply repeat_spec in Hy. subst. right. exists 0%R.
    split; [reflexivity | lra].
  - apply Forall_map_seq. intros i _.
    destruct (get samples i * (target / AudioUtils.calculateRMS samples))
      as [| | z |] eqn:Ez.
    + left. reflexivity.
    + right. destruct (clamp_not_NaN (-1) 1 NegInf ltac:(lra)
                         ltac:(discriminate)) as (c & Hc & Hr).
      exists c. split; assumption.
    + right. destruct (clamp_not_NaN (-1) 1 (Fin z) ltac:(lra)
                         ltac:(discriminate)) as (c & Hc & Hr).
      exists c. split; assumption.
    + right. destruct (clamp_not_NaN (-1) 1 PosInf ltac:(lra)
                         ltac:(discriminate)) as (c & Hc & Hr).
      exists c. split; assumption.
Qed.

(** X2: whatever the converter, its options and the buffer, [convert]
    returns normally and every sample it returns is NaN or a finite
    number of magnitude below 1: [normalize] clamps to [-1, 1] (or passes
    an all-zero signal) and the soft clip at 0.95 stays below 1. *)
Theorem convert_output_range (this : StereoToMonoConverter.t)
  (b : AudioBuffer) :
  exists mono : Float32Array,
    StereoToMonoConverter.convert this b = Normal mono /\
    Forall (fun y => y = NaN \/ exists r : R, y = Fin r /\ (Rabs r < 1)%R)
           mono.
Proof.
  eexists. split; [reflexivity |].
  unfold StereoToMonoConverter.convertSamples,
    StereoToMonoConverter.applyVolumeCompensation.
  set (compensated := AudioUtils.normalize _ _).
  pose proof (normalize_range
                (StereoToMonoConverter.applyPreservationTechniques this
                   (StereoToMonoConverter.performIntelligentDownmix this b
                      (AudioUtils.analyzeStereo b)
                      (StereoToMonoConverter.calculateMixingWeights this
                         (AudioUtils.analyzeStereo b)))
                   b (AudioUtils.analyzeStereo b))
                (rmsLevel (AudioUtils.analyzeStereo b)
                 * volumeCompensation (StereoToMonoConverter.options this)
                 * (1%R + width (AudioUtils.analyzeStereo b) * 0.15%R)))
    as Hn.
  fold compensated in Hn.
  unfold AudioUtils.softClip. apply Forall_map_seq. intros i Hi.
  destruct (Forall_get _ _ _ Hn Hi) as [-> | (r & -> & _)].
  - left. reflexivity.
  - right.
    destruct (softClipSample_fin r 0.95 ltac:(lra)) as (y & Hy & Hb & _).
    exists y. split; assumption.
Qed.

(** X3: the RMS of a non-empty array of finite samples is a finite
    number, not negative, and it is 0 exactly when every sample is 0
    (the test [normalize] makes before it divides by it). *)
Theorem calculateRMS_bounds (samples : Float32Array) :
  Forall is_fin samples ->
  (0 < length samples)%nat ->
  exists v : R,
    AudioUtils.calculateRMS samples = Fin v /\
    (0 <= v)%R /\
    (v = 0%R <-> samples = repeat (Fin 0) (length samples)).
Proof.
  intros Hfin Hlen.
  rewrite (calculateRMS_value samples Hfin Hlen).
  exists (Spec.rms samples (length samples)).
  split; [reflexivity |].
  assert (Hn : (0 < INR (length samples))%R) by (apply lt_0_INR; assumption).
  unfold Spec.rms, Spec.meanProduct.
  set (S2 := Spec.Rsum _ (length samples)).
  assert (HS : (0 <= S2)%R) by apply Rsum_sqr_nonneg.
  assert (Hq : (0 <= S2 / INR (length samples))%R).
  { apply Rmult_le_pos; [assumption |].
    apply Rlt_le, Rinv_0_lt_compat, Hn. }
  split.
  - apply sqrt_pos.
  - split.
    + intros Hv. apply sqrt_eq_0 in Hv; [| assumption].
      assert (Hs : S2 = 0%R).
      { apply Rmult_eq_reg_r with (/ INR (length samples))%R.
        - unfold Rdiv in Hv. lra.
        - apply Rinv_neq_0_compat. lra. }
      apply Forall_eq_repeat. rewrite Forall_forall. intros x Hx.
      destruct (In_nth _ _ NaN Hx) as (i & Hi & <-).
      fold (get samples i).
      destruct (is_fin_inv _ (Forall_get _ _ _ Hfin Hi)) as [a Ea].
      rewrite Ea. f_equal. symmetry.
      pose proof (Rsum_sqr_zero (fun i => Spec.val (get samples i))
                    (length samples) Hs i Hi) as Hz.
      simpl in Hz. rewrite Ea in Hz. exact Hz.
    + intros Hz.
      assert (Hs : S2 = 0%R).
      { unfold S2. rewrite (Rsum_ext _ (fun _ => 0%R)).
        - rewrite Rsum_const. lra.
        - intros i Hi. rewrite Hz. rewrite get_repeat by assumption.
          simpl. lra. }
      rewrite Hs. unfold Rdiv. rewrite Rmult_0_l. apply sqrt_0.
Qed.

Lemma calculateRMS_bounds_witness :
  exists v : R,
    AudioUtils.calculateRMS [Fin (1 / 2); Fin (- (1 / 4))] = Fin v /\
    (0 <= v)%R /\
    (v = 0%R <->
     [Fin (1 / 2); Fin (- (1 / 4))]
     = repeat (Fin 0) (length [Fin (1 / 2); Fin (- (1 / 4))])).
Proof.
  apply (calculateRMS_bounds [Fin (1 / 2); Fin (- (1 / 4))]).
  - repeat constructor.
  - simpl. lia.
Defined.

(** X4: whatever the samples and the target, [normalize] returns as
    many samples as it is given, each of them NaN or within [-1, 1], and
    it returns an all-zero signal as it is. *)
Theorem normalize_clamps (samples : Float32Array) (target : num) :
  Forall (fun y => y = NaN \/ exists r : R, y = Fin r /\ (-1 <= r <= 1)%R)
         (AudioUtils.normalize samples target) /\
  length (AudioUtils.normalize samples target) = length samples /\
  (samples = repeat (Fin 0) (length samples) ->
   AudioUtils.normalize samples target = samples).
Proof.
  split; [apply normalize_range |]. split; [apply length_normalize |].
  intros E. destruct (length samples) as [| n] eqn:En.
  - apply length_zero_iff_nil in En. subst.
    unfold AudioUtils.normalize. now destruct (_ =? _).
  - rewrite E. apply normalize_silent. lia.
Qed.

Lemma Rabs_le_between (x a : R) : (Rabs x <= a)%R -> (- a <= x <= a)%R.
Proof. unfold Rabs. destruct (Rcase_abs x); lra. Qed.

Lemma clamp_inside (lo hi v : R) :
  (lo <= v <= hi)%R -> Spec.clamp lo hi v = v.
Proof.
  intros H. unfold Spec.clamp.
  rewrite Rmin_right by lra. apply Rmax_right. lra.
Qed.

Lemma stereoSums_exact (l r : Float32Array) :
  length l = length r ->
  Forall Spec.valid_sample l ->
  Forall Spec.valid_sample r ->
  forall k, (k <= length l)%nat ->
    exists p : R,
      for_loop 0 k (AudioUtils.analyzeStep l r) AudioUtils.stereoSums0
      = {| AudioUtils.widthSum :=
             Fin (Spec.Rsum
                    (fun i => Rabs (Spec.val (get l i)
                                    - Spec.val (get r i))) k);
           AudioUtils.correlationSum :=
             Fin (Spec.Rsum
                    (fun i => (Spec.val (get l i) * Spec.val (get r i))%R)
                    k);
           AudioUtils.leftPowerSum :=
             Fin (Spec.Rsum
                    (fun i => (Spec.val (get l i) * Spec.val (get l i))%R)
                    k);
           AudioUtils.rightPowerSum :=
             Fin (Spec.Rsum
                    (fun i => (Spec.val (get r i) * Spec.val (get r i))%R)
                    k);
           AudioUtils.rmsSum :=
             Fin (Spec.Rsum
                    (fun i => ((Spec.val (get l i) + Spec.val (get r i)) / 2
                               * ((Spec.val (get l i)
                                   + Spec.val (get r i)) / 2))%R) k);
           AudioUtils.peakAcc := Fin p |} /\
      (0 <= p <= 1)%R /\
      (forall i, (i < k)%nat ->
         (Rabs (Spec.val (get l i)) <= p)%R /\
         (Rabs (Spec.val (get r i)) <= p)%R) /\
      (p = 0%R \/
       exists i, (i < k)%nat /\
         (p = Rabs (Spec.val (get l i)) \/ p = Rabs (Spec.val (get r i)))).
Proof.
  intros Hlen Hl Hr. induction k; intros Hk.
  - exists 0%R. split; [reflexivity |]. split; [lra |].
    split; [intros; lia | now left].
  - destruct IHk as (p & Hs & Hp & Hall & Hatt); [lia |].
    rewrite for_loop_S, Hs by lia.
    destruct (valid_get l k Hl ltac:(lia)) as [El Bl].
    destruct (valid_get r k Hr ltac:(lia)) as [Er Br].
    unfold AudioUtils.analyzeStep.
    cbn [AudioUtils.widthSum AudioUtils.correlationSum
         AudioUtils.leftPowerSum AudioUtils.rightPowerSum
         AudioUtils.rmsSum AudioUtils.peakAcc Spec.Rsum].
    set (a := Spec.val (get l k)) in *. set (b := Spec.val (get r k)) in *.
    rewrite El, Er. unfold sub, gt. cbn [opp add mul abs div max lt].
    rewrite Reqb_false by lra. cbn [mul add].
    assert (Ha : (0 <= Rabs a <= 1)%R)
      by (split; [apply Rabs_pos | apply Rabs_le; lra]).
    assert (Hb : (0 <= Rabs b <= 1)%R)
      by (split; [apply Rabs_pos | apply Rabs_le; lra]).
    set (q := if Rltb (Rabs a) (Rabs b) then Rabs b else Rabs a).
    assert (Hq : (Rabs a <= q)%R /\ (Rabs b <= q)%R /\
                 (q = Rabs a \/ q = Rabs b)).
    { unfold q. destruct (Rltb_spec (Rabs a) (Rabs b)); lra. }
    exists (if Rltb p q then q else p).
    split; [| split; [| split]].
    + unfold q. destruct (Rltb (Rabs a) (Rabs b)); cbn [lt];
        destruct (Rltb p _); reflexivity.
    + destruct (Rltb_spec p q); lra.
    + intros i Hi. destruct (Nat.eq_dec i k) as [-> | Hne].
      * fold a b. destruct (Rltb_spec p q); lra.
      * destruct (Hall i ltac:(lia)) as [H1 H2].
        destruct (Rltb_spec p q); lra.
    + destruct (Rltb_spec p q) as [Hlt | Hge].
      * right. exists k. split; [lia |]. fold a b. tauto.
      * destruct Hatt as [-> | (i & Hi & Hatt)]; [now left |].
        right. exists i. split; [lia | assumption].
Qed.

(** X6: for a valid buffer the analysis returns a width that is the mean
    absolute difference of the channels capped at 1, a peak level that is
    the largest sample magnitude of either channel, and an RMS level
    between 0 and 1. *)
Theorem analysis_levels (b : AudioBuffer) :
  Spec.valid_buffer b ->
  exists w m p : R,
    width (AudioUtils.analyzeStereo b) = Fin w /\
    rmsLevel (AudioUtils.analyzeStereo b) = Fin m /\
    peakLevel (AudioUtils.analyzeStereo b) = Fin p /\
    w = Rmin 1
          (Spec.Rsum
             (fun i => Rabs (Spec.val (get (left b) i)
                             - Spec.val (get (right b) i)))
             (length (left b))
           / INR (length (left b))) /\
    (0 <= w <= 1)%R /\
    (0 <= m <= 1)%R /\ (p <= 1)%R /\
    (forall i, (i < length (left b))%nat ->
       (Rabs (Spec.val (get (left b) i)) <= p)%R /\
       (Rabs (Spec.val (get (right b) i)) <= p)%R) /\
    (exists i, (i < length (left b))%nat /\
       (p = Rabs (Spec.val (get (left b) i)) \/
        p = Rabs (Spec.val (get (right b) i)))).
Proof.
  intros (Hlen & Hn & Hl & Hr).
  destruct (stereoSums_exact _ _ Hlen Hl Hr (length (left b)) (le_n _))
    as (p & Hs & Hp & Hall & Hatt).
  set (n := length (left b)) in *.
  assert (Hn0 : (0 < INR n)%R) by (apply lt_0_INR; lia).
  assert (Hinv : (0 < / INR n)%R) by (apply Rinv_0_lt_compat, Hn0).
  set (W := Spec.Rsum
              (fun i => Rabs (Spec.val (get (left b) i)
                              - Spec.val (get (right b) i))) n) in *.
  set (M2 := Spec.Rsum
               (fun i => ((Spec.val (get (left b) i)
                           + Spec.val (get (right b) i)) / 2
                          * ((Spec.val (get (left b) i)
                              + Spec.val (get (right b) i)) / 2))%R) n)
    in *.
  assert (HW : (0 <= W)%R)
    by (apply Rsum_nonneg_all; intros; apply Rabs_pos).
  assert (HM : (0 <= M2)%R) by apply Rsum_sqr_nonneg.
  assert (HMp : (M2 <= INR n * (p * p))%R).
  { rewrite <- Rsum_const. apply Rsum_le. intros i Hi.
    destruct (Hall i Hi) as [H1 H2].
    apply Rabs_le_between in H1. apply Rabs_le_between in H2.
    set (x := Spec.val (get (left b) i)) in *.
    set (y := Spec.val (get (right b) i)) in *.
    assert (Hmid : (- p <= (x + y) / 2 <= p)%R) by lra.
    assert (Hsq : (((x + y) / 2) * ((x + y) / 2) <= p * p)%R).
    { destruct (Rle_lt_dec 0 ((x + y) / 2)).
      - apply Rmult_le_compat; lra.
      - replace ((x + y) / 2 * ((x + y) / 2))%R
          with ((- ((x + y) / 2)) * (- ((x + y) / 2)))%R by ring.
        apply Rmult_le_compat; lra. }
    exact Hsq. }
  exists (Rmin 1 (W / INR n)), (R_sqrt.sqrt (M2 / INR n)), p.
  unfold AudioUtils.analyzeStereo. cbn [width rmsLevel peakLevel].
  fold n. rewrite Hs.
  cbn [AudioUtils.widthSum AudioUtils.rmsSum AudioUtils.peakAcc].
  unfold of_nat. rewrite !div_fin by lra.
  assert (Hq : (0 <= M2 / INR n)%R) by (apply Rmult_le_pos; lra).
  rewrite sqrt_fin by assumption.
  split.
  { cbn [min lt]. destruct (Rltb_spec 1 (W / INR n)).
    - now rewrite Rmin_left by lra.
    - now rewrite Rmin_right by lra. }
  split; [reflexivity |]. split; [reflexivity |]. split; [reflexivity |].
  split.
  { split; [| apply Rmin_l].
    apply Rmin_glb; [lra | apply Rmult_le_pos; lra]. }
  split.
  { split; [apply sqrt_pos |].
    apply Rle_trans with p; [| lra].
    rewrite <- (sqrt_square p) by lra.
    apply sqrt_le_1; [assumption | apply Rle_0_sqr |].
    apply Rmult_le_reg_r with (INR n); [assumption |].
    unfold Rdiv. rewrite Rmult_assoc, Rinv_l by lra. lra. }
  split; [lra |]. split; [exact Hall |].
  destruct Hatt as [-> | Hatt]; [| exact Hatt].
  exists O. split; [lia |]. left.
  destruct (Hall O ltac:(lia)) as [H1 _].
  pose proof (Rabs_pos (Spec.val (get (left b) 0))). lra.
Qed.

Lemma analysis_levels_witness :
  exists w m p : R,
    width (AudioUtils.analyzeStereo Scenario.short) = Fin w /\
    rmsLevel (AudioUtils.analyzeStereo Scenario.short) = Fin m /\
    peakLevel (AudioUtils.analyzeStereo Scenario.short) = Fin p /\
    w = Rmin 1
          (Spec.Rsum
             (fun i => Rabs (Spec.val (get (left Scenario.short) i)
                             - Spec.val (get (right Scenario.short) i)))
             (length (left Scenario.short))
           / INR (length (left Scenario.short))) /\
    (0 <= w <= 1)%R /\
    (0 <= m <= 1)%R /\ (p <= 1)%R /\
    (forall i, (i < length (left Scenario.short))%nat ->
       (Rabs (Spec.val (get (left Scenario.short) i)) <= p)%R /\
       (Rabs (Spec.val (get (right Scenario.short) i)) <= p)%R) /\
    (exists i, (i < length (left Scenario.short))%nat /\
       (p = Rabs (Spec.val (get (left Scenario.short) i)) \/
        p = Rabs (Spec.val (get (right Scenario.short) i)))).
Proof.
  apply (analysis_levels Scenario.short). exact valid_short.
Defined.

Lemma rms_sqr (x : Float32Array) (n : nat) :
  (0 < n)%nat ->
  (Spec.rms x n * Spec.rms x n = Spec.meanProduct x x n)%R.
Proof.
  intros Hn. unfold Spec.rms. apply sqrt_sqrt.
  unfold Spec.meanProduct. apply Rmult_le_pos; [apply Rsum_sqr_nonneg |].
  apply Rlt_le, Rinv_0_lt_compat, lt_0_INR, Hn.
Qed.

(** X7: when both channels hold the same valid samples the analysis
    returns width 0, the RMS of the channel as RMS level, and a positive
    phase correlation unless the signal is silent (then 0). *)
Theorem identical_channels (l : Float32Array) (rate : num) :
  Forall Spec.valid_sample l ->
  (1 <= length l)%nat ->
  let analysis :=
    AudioUtils.analyzeStereo
      {| left := l; right := l; bufferSampleRate := rate |} in
  width analysis = Fin 0 /\
  rmsLevel analysis = Fin (Spec.rms l (length l)) /\
  ((0 < Spec.rms l (length l))%R ->
   exists c : R, phaseCorrelation analysis = Fin c /\ (0 < c)%R) /\
  (Spec.rms l (length l) = 0%R -> phaseCorrelation analysis = Fin 0).
Proof.
  intros Hl Hn analysis.
  set (b := {| left := l; right := l; bufferSampleRate := rate |}) in *.
  assert (Hb : Spec.valid_buffer b) by (repeat split; assumption).
  destruct (stereoSums_exact l l eq_refl Hl Hl (length l) (le_n _))
    as (p & Hs & _).
  assert (Hn0 : (0 < INR (length l))%R) by (apply lt_0_INR; lia).
  destruct (phaseCorrelation_valid b Hb) as (pc & Hpc & Hpos & Hzero & _).
  fold analysis in Hpc. cbn [left right b] in Hpos, Hzero.
  split; [| split; [| split]].
  - unfold analysis, AudioUtils.analyzeStereo. cbn [width left right b].
    rewrite Hs. cbn [AudioUtils.widthSum].
    rewrite (Rsum_ext _ (fun _ => 0%R)).
    + rewrite Rsum_const, Rmult_0_r. unfold of_nat.
      rewrite zero_div by lra. simpl. Rtests. reflexivity.
    + intros i _. unfold Rminus. rewrite Rplus_opp_r. apply Rabs_R0.
  - unfold analysis, AudioUtils.analyzeStereo. cbn [rmsLevel left right b].
    rewrite Hs. cbn [AudioUtils.rmsSum].
    rewrite (Rsum_ext _
               (fun i => (Spec.val (get l i) * Spec.val (get l i))%R))
      by (intros; field).
    unfold of_nat. rewrite div_fin by lra.
    rewrite sqrt_fin; [reflexivity |].
    apply Rmult_le_pos; [apply Rsum_sqr_nonneg |].
    apply Rlt_le, Rinv_0_lt_compat, Hn0.
  - intros Hr. exists 1%R. split; [| lra].
    rewrite Hpc, (Hpos Hr Hr). f_equal.
    rewrite rms_sqr by lia.
    apply Rinv_r. rewrite <- rms_sqr by lia.
    apply Rgt_not_eq, Rmult_lt_0_compat; assumption.
  - intros Hr. rewrite Hpc, Hzero; [reflexivity | now left].
Qed.

Lemma identical_channels_witness :
  let analysis :=
    AudioUtils.analyzeStereo
      {| left := [Fin (1 / 2); Fin (- (1 / 4))];
         right := [Fin (1 / 2); Fin (- (1 / 4))];
         bufferSampleRate := 44100%R |} in
  width analysis = Fin 0 /\
  rmsLevel analysis
  = Fin (Spec.rms [Fin (1 / 2); Fin (- (1 / 4))]
           (length [Fin (1 / 2); Fin (- (1 / 4))])) /\
  ((0 < Spec.rms [Fin (1 / 2); Fin (- (1 / 4))]
          (length [Fin (1 / 2); Fin (- (1 / 4))]))%R ->
   exists c : R, phaseCorrelation analysis = Fin c /\ (0 < c)%R) /\
  (Spec.rms [Fin (1 / 2); Fin (- (1 / 4))]
     (length [Fin (1 / 2); Fin (- (1 / 4))]) = 0%R ->
   phaseCorrelation analysis = Fin 0).
Proof.
  apply (identical_channels [Fin (1 / 2); Fin (- (1 / 4))] 44100%R).
  - repeat constructor; eexists; (split; [reflexivity | lra]).
  - simpl. lia.
Defined.

Lemma get_map_opp (l : Float32Array) (i : nat) :
  get (map opp l) i = opp (get l i).
Proof. unfold get. apply (map_nth opp l NaN i). Qed.

Lemma valid_opp (l : Float32Array) :
  Forall Spec.valid_sample l -> Forall Spec.valid_sample (map opp l).
Proof.
  intros H. rewrite Forall_map. eapply Forall_impl; [| exact H].
  intros x (r & -> & Hr). exists (- r)%R. split; [reflexivity | lra].
Qed.

Lemma val_opp_valid (l : Float32Array) (i : nat) :
  Forall Spec.valid_sample l -> (i < length l)%nat ->
  Spec.val (get (map opp l) i) = (- Spec.val (get l i))%R.
Proof.
  intros Hl Hi. rewrite get_map_opp.
  destruct (valid_get l i Hl Hi) as [-> _]. reflexivity.
Qed.

(** X8: when the right channel is the left one inverted, the analysis
    returns RMS level 0, a width of twice the mean magnitude capped at 1,
    and a negative phase correlation unless the signal is silent. *)
Theorem inverted_channels (l : Float32Array) (rate : num) :
  Forall Spec.valid_sample l ->
  (1 <= length l)%nat ->
  let analysis :=
    AudioUtils.analyzeStereo
      {| left := l; right := map opp l; bufferSampleRate := rate |} in
  rmsLevel analysis = Fin 0 /\
  width analysis
  = Fin (Rmin 1 (2 * (Spec.Rsum (fun i => Rabs (Spec.val (get l i)))
                        (length l) / INR (length l)))) /\
  ((0 < Spec.rms l (length l))%R ->
   exists c : R, phaseCorrelation analysis = Fin c /\ (c < 0)%R).
Proof.
  intros Hl Hn analysis.
  set (b := {| left := l; right := map opp l; bufferSampleRate := rate |})
    in *.
  assert (Hlen : length l = length (map opp l)) by now rewrite length_map.
  pose proof (valid_opp l Hl) as Hr.
  assert (Hb : Spec.valid_buffer b) by (repeat split; assumption).
  destruct (stereoSums_exact l (map opp l) Hlen Hl Hr (length l) (le_n _))
    as (p & Hs & _).
  assert (Hn0 : (0 < INR (length l))%R) by (apply lt_0_INR; lia).
  destruct (phaseCorrelation_valid b Hb) as (pc & Hpc & Hpos & _).
  fold analysis in Hpc. cbn [left right b] in Hpos.
  split; [| split].
  - unfold analysis, AudioUtils.analyzeStereo. cbn [rmsLevel left right b].
    rewrite Hs. cbn [AudioUtils.rmsSum].
    rewrite (Rsum_ext _ (fun _ => 0%R)).
    + rewrite Rsum_const, Rmult_0_r. unfold of_nat.
      rewrite zero_div by lra. apply zero_sqrt.
    + intros i Hi. rewrite val_opp_valid by assumption. field.
  - unfold analysis, AudioUtils.analyzeStereo. cbn [width left right b].
    rewrite Hs. cbn [AudioUtils.widthSum].
    rewrite (Rsum_ext _ (fun i => (2 * Rabs (Spec.val (get l i)))%R)).
    + rewrite Rsum_scal. unfold of_nat. rewrite div_fin by lra.
      replace (2 * Spec.Rsum (fun i => Rabs (Spec.val (get l i)))
                     (length l) / INR (length l))%R
        with (2 * (Spec.Rsum (fun i => Rabs (Spec.val (get l i)))
                     (length l) / INR (length l)))%R
        by (unfold Rdiv; ring).
      cbn [min lt].
      destruct (Rltb_spec 1
                  (2 * (Spec.Rsum (fun i => Rabs (Spec.val (get l i)))
                          (length l) / INR (length l)))).
      * now rewrite Rmin_left by lra.
      * now rewrite Rmin_right by lra.
    + intros i Hi. rewrite val_opp_valid by assumption.
      replace (Spec.val (get l i) - - Spec.val (get l i))%R
        with (2 * Spec.val (get l i))%R by ring.
      rewrite Rabs_mult. rewrite (Rabs_pos_eq 2) by lra. reflexivity.
  - intros Hrms.
    assert (Er : Spec.rms (map opp l) (length l) = Spec.rms l (length l)).
    { unfold Spec.rms, Spec.meanProduct. f_equal. f_equal.
      apply Rsum_ext. intros i Hi. rewrite val_opp_valid by assumption.
      ring. }
    assert (Em : Spec.meanProduct l (map opp l) (length l)
                 = (- Spec.meanProduct l l (length l))%R).
    { unfold Spec.meanProduct.
      rewrite (Rsum_ext _
                 (fun i => (-1 * (Spec.val (get l i)
                                  * Spec.val (get l i)))%R)).
      - rewrite Rsum_scal. unfold Rdiv. ring.
      - intros i Hi. rewrite val_opp_valid by assumption. ring. }
    exists (-1)%R. split; [| lra].
    rewrite Er in Hpos. rewrite Hpc, (Hpos Hrms Hrms), Em. f_equal.
    rewrite rms_sqr by lia.
    assert (Hm : Spec.meanProduct l l (length l) <> 0%R).
    { rewrite <- rms_sqr by lia.
      apply Rgt_not_eq, Rmult_lt_0_compat; assumption. }
    field. exact Hm.
Qed.

Lemma inverted_channels_witness :
  let analysis :=
    AudioUtils.analyzeStereo
      {| left := [Fin (1 / 2); Fin (- (1 / 4))];
         right := map opp [Fin (1 / 2); Fin (- (1 / 4))];
         bufferSampleRate := 44100%R |} in
  rmsLevel analysis = Fin 0 /\
  width analysis
  = Fin (Rmin 1
           (2 * (Spec.Rsum
                   (fun i =>
                      Rabs (Spec.val (get [Fin (1 / 2); Fin (- (1 / 4))] i)))
                   (length [Fin (1 / 2); Fin (- (1 / 4))])
                 / INR (length [Fin (1 / 2); Fin (- (1 / 4))])))) /\
  ((0 < Spec.rms [Fin (1 / 2); Fin (- (1 / 4))]
          (length [Fin (1 / 2); Fin (- (1 / 4))]))%R ->
   exists c : R, phaseCorrelation analysis = Fin c /\ (c < 0)%R).
Proof.
  apply (inverted_channels [Fin (1 / 2); Fin (- (1 / 4))] 44100%R).
  - repeat constructor; eexists; (split; [reflexivity | lra]).
  - simpl. lia.
Defined.

(** X9: over a valid buffer the three band energies are finite, not
    negative, and add up to the sum of |L[i]| + |R[i]| over the indices
    1 .. min(n, 4096) - 1: every transition is filed in exactly one band
    and the first sample is never counted. *)
Theorem bandEnergies_total (b : AudioBuffer) :
  Spec.valid_buffer b ->
  exists lowE midE highE : R,
    AudioUtils.bandEnergies b = (Fin lowE, Fin midE, Fin highE) /\
    (0 <= lowE)%R /\ (0 <= midE)%R /\ (0 <= highE)%R /\
    (lowE + midE + highE
     = Spec.Rsum
         (fun j => Rabs (Spec.val (get (left b) (S j)))
                   + Rabs (Spec.val (get (right b) (S j))))
         (Nat.min (length (left b)) (Z.to_nat 4096) - 1))%R.
Proof.
  intros (Hlen & Hn & Hl & Hr). unfold AudioUtils.bandEnergies.
  set (len := Nat.min (length (left b)) (Z.to_nat 4096)).
  assert (Hlen' : (len <= length (left b))%nat) by apply Nat.le_min_l.
  assert (H1 : (1 <= len)%nat) by (unfold len; lia).
  set (g := fun j => (Rabs (Spec.val (get (left b) (S j)))
                      + Rabs (Spec.val (get (right b) (S j))))%R).
  apply (for_loop_inv
           (fun i s => exists lowE midE highE : R,
              s = (Fin lowE, Fin midE, Fin highE) /\
              (0 <= lowE)%R /\ (0 <= midE)%R /\ (0 <= highE)%R /\
              (lowE + midE + highE = Spec.Rsum g (i - 1))%R));
    [assumption | |].
  - exists 0%R, 0%R, 0%R. split; [reflexivity |]. simpl. lra.
  - intros i s Hi (x & y & z & -> & Hx & Hy & Hz & Hsum).
    destruct (valid_get _ i Hl ltac:(lia)) as [El _].
    destruct (valid_get _ (i - 1) Hl ltac:(lia)) as [El' _].
    destruct (valid_get _ i Hr ltac:(lia)) as [Er _].
    destruct (valid_get _ (i - 1) Hr ltac:(lia)) as [Er' _].
    unfold AudioUtils.bandStep. rewrite El, El', Er, Er'.
    replace (S i - 1)%nat with (S (i - 1)) by lia.
    cbn [Spec.Rsum]. unfold g at 2.
    replace (S (i - 1)) with i by lia.
    set (li := Spec.val (get (left b) i)) in *.
    set (ri := Spec.val (get (right b) i)) in *.
    unfold sub. cbn [opp add abs div]. rewrite Reqb_false by lra.
    cbn [lt].
    pose proof (Rabs_pos li). pose proof (Rabs_pos ri).
    destruct (Rltb _ 0.1); [| destruct (Rltb _ 0.3)].
    + exists (x + (Rabs li + Rabs ri))%R, y, z.
      split; [reflexivity |]. repeat split; lra.
    + exists x, (y + (Rabs li + Rabs ri))%R, z.
      split; [reflexivity |]. repeat split; lra.
    + exists x, y, (z + (Rabs li + Rabs ri))%R.
      split; [reflexivity |]. repeat split; lra.
Qed.

Lemma bandEnergies_total_witness :
  exists lowE midE highE : R,
    AudioUtils.bandEnergies Scenario.short
    = (Fin lowE, Fin midE, Fin highE) /\
    (0 <= lowE)%R /\ (0 <= midE)%R /\ (0 <= highE)%R /\
    (lowE + midE + highE
     = Spec.Rsum
         (fun j => Rabs (Spec.val (get (left Scenario.short) (S j)))
                   + Rabs (Spec.val (get (right Scenario.short) (S j))))
         (Nat.min (length (left Scenario.short)) (Z.to_nat 4096) - 1))%R.
Proof.
  apply (bandEnergies_total Scenario.short). exact valid_short.
Defined.

Lemma harmonicContent_nonneg (window : Float32Array) :
  Forall is_fin window ->
  (0 < length window)%nat ->
  exists c : R,
    AudioUtils.calculateHarmonicContent window = Fin c /\ (0 <= c)%R.
Proof.
  intros Hw Hlen. unfold AudioUtils.calculateHarmonicContent.
  assert (H : exists (e : R) (z : nat),
             for_loop 0 (length window) (AudioUtils.harmonicStep window)
               (Fin 0, O) = (Fin e, z) /\ (0 <= e)%R).
  { apply (for_loop_inv
             (fun _ s => exists (e : R) (z : nat),
                s = (Fin e, z) /\ (0 <= e)%R)); [lia | |].
    - exists 0%R, O. split; [reflexivity | lra].
    - intros i s Hi (e & z & -> & He).
      assert (Hi' : (i < length window)%nat) by lia.
      destruct (is_fin_inv _ (Forall_get _ _ _ Hw Hi')) as [a Ea].
      unfold AudioUtils.harmonicStep. rewrite Ea. cbn [mul add].
      pose proof (Rle_0_sqr a) as Hsq. unfold Rsqr in Hsq.
      do 2 eexists. split; [reflexivity | lra]. }
  destruct H as (e & z & -> & He).
  assert (Hn : (0 < INR (length window))%R) by (apply lt_0_INR; assumption).
  assert (Hinv : (0 < / INR (length window))%R)
    by (apply Rinv_0_lt_compat, Hn).
  unfold of_nat. rewrite !div_fin by lra.
  assert (Hq : (0 <= e / INR (length window))%R)
    by (apply Rmult_le_pos; lra).
  rewrite sqrt_fin by assumption. cbn [mul].
  eexists. split; [reflexivity |].
  pose proof (sqrt_pos (e / INR (length window))).
  pose proof (pos_INR z).
  repeat apply Rmult_le_pos; lra.
Qed.

(** The harmonic sum of a valid buffer is finite and not negative. *)
Lemma harmonicSum_nonneg (b : AudioBuffer) :
  Spec.valid_buffer b ->
  exists h : R,
    for_step (Nat.min (length (left b)) (Z.to_nat 8192)) 0
      (Nat.min (length (left b)) (Z.to_nat 8192) - 256) 128
      (AudioUtils.richnessStep (left b) (right b)) (Fin 0) = Fin h /\
    (0 <= h)%R.
Proof.
  intros (Hlen & Hn & Hl & Hr).
  set (len := Nat.min (length (left b)) (Z.to_nat 8192)).
  assert (Hle : (len <= length (left b))%nat) by apply Nat.le_min_l.
  apply (for_step_inv (fun s => exists h : R, s = Fin h /\ (0 <= h)%R)).
  - intros i s Hi (h & -> & Hh). unfold AudioUtils.richnessStep.
    destruct (harmonicContent_nonneg (slice (left b) i (i + 256)))
      as (c1 & -> & Hc1).
    { apply Forall_slice, valid_is_fin, Hl. }
    { rewrite length_slice. lia. }
    destruct (harmonicContent_nonneg (slice (right b) i (i + 256)))
      as (c2 & -> & Hc2).
    { apply Forall_slice, valid_is_fin, Hr. }
    { rewrite length_slice. lia. }
    cbn [add]. eexists. split; [reflexivity | lra].
  - exists 0%R. split; [reflexivity | lra].
Qed.

(** X10: for a valid buffer of at least 384 samples the richness is a
    finite number in [0, 1]. *)
Theorem richness_range (b : AudioBuffer) :
  Spec.valid_buffer b ->
  (384 <= length (left b))%nat ->
  exists rho : R,
    richness (AudioUtils.analyzeStereo b) = Fin rho /\ (0 <= rho <= 1)%R.
Proof.
  intros Hb Hlen.
  destruct (harmonicSum_nonneg b Hb) as (h & Hh & Hh0).
  unfold AudioUtils.analyzeStereo. cbn [richness].
  unfold AudioUtils.calculateRichness. rewrite Hh.
  set (len := Nat.min (length (left b)) (Z.to_nat 8192)).
  assert (Hnw : (2 <= AudioUtils.numWindows len)%Z).
  { unfold AudioUtils.numWindows.
    assert (1 <= (Z.of_nat len - 256) / 128)%Z
      by (apply Z.div_le_lower_bound; unfold len; lia).
    lia. }
  assert (Hnw' : (2 <= IZR (AudioUtils.numWindows len))%R)
    by (apply IZR_le in Hnw; exact Hnw).
  unfold of_Z. rewrite div_fin by lra.
  assert (Hq : (0 <= h / IZR (AudioUtils.numWindows len))%R).
  { apply Rmult_le_pos; [assumption |].
    apply Rlt_le, Rinv_0_lt_compat. lra. }
  cbn [min lt].
  destruct (Rltb_spec 1 (h / IZR (AudioUtils.numWindows len))).
  - exists 1%R. split; [reflexivity | lra].
  - eexists. split; [reflexivity | lra].
Qed.

Lemma valid_silent_384 : Spec.valid_buffer (Scenario.silent 384).
Proof. apply valid_silent. lia. Qed.

Lemma richness_range_witness :
  exists rho : R,
    richness (AudioUtils.analyzeStereo (Scenario.silent 384)) = Fin rho /\
    (0 <= rho <= 1)%R.
Proof.
  apply (richness_range (Scenario.silent 384)).
  - exact valid_silent_384.
  - unfold Scenario.silent. cbn [left]. rewrite repeat_length. lia.
Defined.

(** X11: for a valid buffer of 256 to 383 samples the window count is 0
    and the richness is the harmonic sum divided by 0: NaN when the sum
    is 0, and 1 (the cap on infinity) when it is positive. *)
Theorem richness_zero_windows (b : AudioBuffer) :
  Spec.valid_buffer b ->
  (256 <= length (left b) <= 383)%nat ->
  AudioUtils.numWindows (Nat.min (length (left b)) (Z.to_nat 8192)) = 0%Z /\
  exists h : R,
    for_step (Nat.min (length (left b)) (Z.to_nat 8192)) 0
      (Nat.min (length (left b)) (Z.to_nat 8192) - 256) 128
      (AudioUtils.richnessStep (left b) (right b)) (Fin 0) = Fin h /\
    (0 <= h)%R /\
    (h = 0%R -> richness (AudioUtils.analyzeStereo b) = NaN) /\
    ((0 < h)%R -> richness (AudioUtils.analyzeStereo b) = Fin 1).
Proof.
  intros Hb Hlen.
  destruct (harmonicSum_nonneg b Hb) as (h & Hh & Hh0).
  set (len := Nat.min (length (left b)) (Z.to_nat 8192)) in *.
  assert (Hnw : AudioUtils.numWindows len = 0%Z).
  { unfold AudioUtils.numWindows.
    assert ((Z.of_nat len - 256) / 128 = 0)%Z
      by (apply Z.div_small; unfold len; lia).
    lia. }
  split; [exact Hnw |]. exists h. split; [exact Hh |].
  split; [exact Hh0 |].
  unfold AudioUtils.analyzeStereo. cbn [richness].
  unfold AudioUtils.calculateRichness. fold len. rewrite Hh, Hnw.
  unfold of_Z. cbn [div]. rewrite Reqb_true by reflexivity.
  split.
  - intros ->. now rewrite Rsign_0.
  - intros Hpos. unfold Rsign. rewrite Rltb_true by assumption. reflexivity.
Qed.

Lemma richness_zero_windows_witness :
  AudioUtils.numWindows
    (Nat.min (length (left (Scenario.silent 256))) (Z.to_nat 8192)) = 0%Z /\
  exists h : R,
    for_step (Nat.min (length (left (Scenario.silent 256))) (Z.to_nat 8192))
      0
      (Nat.min (length (left (Scenario.silent 256))) (Z.to_nat 8192) - 256)
      128
      (AudioUtils.richnessStep (left (Scenario.silent 256))
         (right (Scenario.silent 256))) (Fin 0) = Fin h /\
    (0 <= h)%R /\
    (h = 0%R ->
     richness (AudioUtils.analyzeStereo (Scenario.silent 256)) = NaN) /\
    ((0 < h)%R ->
     richness (AudioUtils.analyzeStereo (Scenario.silent 256)) = Fin 1).
Proof.
  apply (richness_zero_windows (Scenario.silent 256)).
  - apply valid_silent. lia.
  - unfold Scenario.silent. cbn [left]. rewrite repeat_length. lia.
Defined.

(** The value of one windowed sample, for a window of two samples or
    more. *)
Lemma applyHannWindow_value (samples : Float32Array) (i : nat) :
  Forall is_fin samples ->
  (2 <= length samples)%nat ->
  (i < length samples)%nat ->
  get (AudioUtils.applyHannWindow samples) i
  = Fin (Spec.val (get samples i)
         * (0.5 * (1 - Rtrigo_def.cos
                         (2 * PI * INR i / (INR (length samples) - 1))))).
Proof.
  intros Hfin Hlen Hi. unfold AudioUtils.applyHannWindow.
  rewrite get_map_seq by assumption.
  destruct (is_fin_inv _ (Forall_get _ _ _ Hfin Hi)) as [a ->].
  assert (H2 : (2 <= INR (length samples))%R).
  { change 2%R with (INR 2). apply le_INR. lia. }
  unfold of_nat, sub. cbn [opp add mul].
  rewrite div_fin by lra. cbn [cos opp add mul Spec.val].
  reflexivity.
Qed.

(** X12: a Hann window over two or more finite samples sets the first
    and the last sample to 0 and never raises the magnitude of a
    sample. *)
Theorem applyHannWindow_taper (samples : Float32Array) :
  Forall is_fin samples ->
  (2 <= length samples)%nat ->
  get (AudioUtils.applyHannWindow samples) 0 = Fin 0 /\
  get (AudioUtils.applyHannWindow samples) (length samples - 1) = Fin 0 /\
  forall i, (i < length samples)%nat ->
    exists y : R,
      get (AudioUtils.applyHannWindow samples) i = Fin y /\
      (Rabs y <= Rabs (Spec.val (get samples i)))%R.
Proof.
  intros Hfin Hlen.
  assert (H2 : (2 <= INR (length samples))%R).
  { change 2%R with (INR 2). apply le_INR. lia. }
  split; [| split].
  - rewrite applyHannWindow_value by (assumption || lia).
    apply (f_equal Fin). cbn [INR].
    replace (2 * PI * 0 / (INR (length samples) - 1))%R with 0%R
      by (unfold Rdiv; ring).
    rewrite cos_0. ring.
  - rewrite applyHannWindow_value by (assumption || lia).
    apply (f_equal Fin). rewrite minus_INR by lia. cbn [INR].
    replace (2 * PI * (INR (length samples) - 1)
             / (INR (length samples) - 1))%R with (2 * PI)%R
      by (field; lra).
    rewrite cos_2PI. ring.
  - intros i Hi. rewrite applyHannWindow_value by (assumption || lia).
    eexists. split; [reflexivity |].
    set (x := Spec.val (get samples i)).
    set (c := Rtrigo_def.cos _).
    pose proof (COS_bound (2 * PI * INR i / (INR (length samples) - 1)))
      as Hc. fold c in Hc.
    rewrite Rabs_mult.
    rewrite (Rabs_pos_eq (0.5 * (1 - c))) by lra.
    pose proof (Rabs_pos x).
    assert (Rabs x * (0.5 * (1 - c)) <= Rabs x * 1)%R
      by (apply Rmult_le_compat_l; lra).
    lra.
Qed.

Lemma applyHannWindow_taper_witness :
  get (AudioUtils.applyHannWindow [Fin 1; Fin 1]) 0 = Fin 0 /\
  get (AudioUtils.applyHannWindow [Fin 1; Fin 1])
      (length [Fin 1; Fin 1] - 1) = Fin 0 /\
  forall i, (i < length [Fin 1; Fin 1])%nat ->
    exists y : R,
      get (AudioUtils.applyHannWindow [Fin 1; Fin 1]) i = Fin y /\
      (Rabs y <= Rabs (Spec.val (get [Fin 1; Fin 1] i)))%R.
Proof.
  apply (applyHannWindow_taper [Fin 1; Fin 1]).
  - repeat constructor.
  - simpl. lia.
Defined.

(** The window value of a single sample is cos(0 / 0). *)
Lemma hann_single (x : num) :
  AudioUtils.applyHannWindow [x] = [NaN].
Proof.
  unfold AudioUtils.applyHannWindow. cbn [length seq map get nth].
  assert (E : (2%R * PI * of_nat 0) / (of_nat 1 - 1%R) = NaN).
  { unfold of_nat, sub. cbn [INR opp add mul].
    replace (2 * PI * 0)%R with 0%R by ring.
    replace (1 + - (1))%R with 0%R by ring.
    exact zero_div_zero. }
  rewrite E. cbn [cos]. unfold sub. cbn [opp]. rewrite add_NaN_r.
  now rewrite !mul_NaN_r.
Qed.

(** X13: a Hann window over a single sample turns it into NaN, whatever
    the sample, and so does it to an array of one sample taken as a
    slice of a longer one. *)
Theorem applyHannWindow_single (x : num) (a : Float32Array) (i : nat) :
  AudioUtils.applyHannWindow [x] = [NaN] /\
  (length a = S i ->
   AudioUtils.applyHannWindow (slice a i (S i)) = [NaN]).
Proof.
  split; [apply hann_single |].
  intros Hlen. unfold slice.
  replace (S i - i)%nat with 1%nat by lia.
  assert (Hs : length (skipn i a) = 1%nat) by (rewrite length_skipn; lia).
  destruct (skipn i a) as [| y [| z t]]; simpl in Hs; try discriminate.
  apply hann_single.
Qed.

(** A stepped loop with enough fuel ends with its counter at or past the
    bound, and carries an invariant that may mention the counter. *)
Lemma for_step_inv_dep {S : Type} (P : nat -> S -> Prop) (stop step : nat)
  (body : S -> nat -> S) :
  (0 < step)%nat ->
  (forall i x, (i < stop)%nat -> P i x -> P (i + step)%nat (body x i)) ->
  forall fuel i s,
    (stop - i <= fuel)%nat -> P i s ->
    exists j, (stop <= j)%nat /\ P j (for_step fuel i stop step body s).
Proof.
  intros Hstep Hbody. induction fuel; intros i s Hfuel Hs; simpl.
  - exists i. split; [lia | assumption].
  - destruct (Nat.ltb_spec i stop).
    + apply IHfuel; [lia | apply Hbody; assumption].
    + exists i. split; [lia | assumption].
Qed.

Lemma slice_last (a : Float32Array) (n : nat) :
  length a = S n -> slice a n (S n) = [get a n].
Proof.
  intros Hlen. unfold slice, get.
  replace (S n - n)%nat with 1%nat by lia.
  rewrite <- (firstn_skipn n a) at 2.
  assert (Hf : length (firstn n a) = n) by (rewrite length_firstn; lia).
  rewrite app_nth2 by lia. rewrite Hf, Nat.sub_diag.
  assert (Hs : length (skipn n a) = 1%nat) by (rewrite length_skipn; lia).
  destruct (skipn n a) as [| x [| y t]]; simpl in Hs; try discriminate.
  reflexivity.
Qed.

Lemma get_set_array_at (a src : Float32Array) (offset : nat) (v : num)
  (t : Float32Array) :
  (offset <= length a)%nat -> src = v :: t ->
  get (set_array a src offset) offset = v.
Proof.
  intros Hlen ->. unfold set_array, get.
  assert (Hf : length (firstn offset a) = offset)
    by (rewrite length_firstn; lia).
  rewrite app_nth2 by lia. rewrite Hf, Nat.sub_diag. reflexivity.
Qed.

(** X14: when the left channel has 256 m + 1 samples, m >= 2, the last
    half-overlapping window of [extractHarmonicContent] holds a single
    sample, and the last sample of the harmonic signal is NaN. *)
Theorem extractHarmonicContent_last_NaN (b : AudioBuffer) (m : nat) :
  (2 <= m)%nat ->
  length (left b) = (256 * m + 1)%nat ->
  length (StereoToMonoConverter.extractHarmonicContent b)
  = length (left b) /\
  get (StereoToMonoConverter.extractHarmonicContent b) (256 * m) = NaN.
Proof.
  intros Hm Hlen. unfold StereoToMonoConverter.extractHarmonicContent.
  set (n := length (left b)) in *.
  assert (Hws : Nat.min 512 n = 512%nat) by lia.
  rewrite Hws.
  set (harmonic := map _ (seq 0 n)).
  assert (Hh : length harmonic = n)
    by (unfold harmonic; now rewrite length_map, length_seq).
  destruct (for_step_inv_dep
              (fun i2 s =>
                 (exists k, i2 = 512 * k)%nat /\ length s = n /\
                 ((512 * m < i2)%nat -> get s (256 * m) = NaN))
              (2 * n) 512 (StereoToMonoConverter.windowStep 512 n)
              ltac:(lia))
    with (fuel := (2 * n)%nat) (i := 0%nat) (s := harmonic)
    as (j & Hj & _ & Hlast & HNaN).
  - intros i2 s Hi (Hk & Hs & Hnan). destruct Hk as [k ->].
    assert (Hk : (k <= m)%nat) by lia.
    unfold StereoToMonoConverter.windowStep.
    replace (512 * k / 2)%nat with (256 * k)%nat
      by (apply Nat.div_unique_exact; lia).
    replace ((512 * k + 2 * 512) / 2)%nat with (256 * k + 512)%nat
      by (apply Nat.div_unique_exact; lia).
    split; [exists (S k); lia |]. split.
    + rewrite length_set_array; [assumption |].
      rewrite length_applyHannWindow, length_slice. lia.
    + intros Hgt. assert (k = m) by lia. subst k.
      replace (Nat.min (256 * m + 512) n) with (S (256 * m)) by lia.
      rewrite (slice_last s (256 * m)) by lia.
      rewrite hann_single.
      apply (get_set_array_at s [NaN] (256 * m) NaN []); [lia | reflexivity].
  - lia.
  - split; [exists 0%nat; lia |]. split; [assumption | lia].
  - split; [assumption | apply HNaN; lia].
Qed.

Lemma extractHarmonicContent_last_NaN_witness :
  length (StereoToMonoConverter.extractHarmonicContent (Scenario.silent 513))
  = length (left (Scenario.silent 513)) /\
  get (StereoToMonoConverter.extractHarmonicContent (Scenario.silent 513))
      (256 * 2) = NaN.
Proof.
  apply (extractHarmonicContent_last_NaN (Scenario.silent 513) 2).
  - lia.
  - unfold Scenario.silent. cbn [left]. rewrite repeat_length. reflexivity.
Defined.

Lemma get_set_eq (a : Float32Array) (i : nat) (v : num) :
  (i < length a)%nat -> get (set a i v) i = v.
Proof.
  revert i. induction a as [| h t IH]; intros [| i] Hi; simpl in *;
    try lia; [reflexivity |].
  apply IH. lia.
Qed.

Lemma get_set_neq (a : Float32Array) (i j : nat) (v : num) :
  i <> j -> get (set a i v) j = get a j.
Proof.
  revert i j. induction a as [| h t IH]; intros [| i] [| j] Hij; simpl;
    try reflexivity; try congruence.
  apply IH. congruence.
Qed.

(** X15: [enhanceHighFrequencies] works in place, so it is a recursive
    filter: the first sample is kept, and every later output is computed
    from its input and the previous output (not the previous input):
    out[i] = in[i] + (in[i] - out[i-1]) * 0.5 * (factor - 1). *)
Theorem enhanceHighFrequencies_recursive (this : StereoToMonoConverter.t)
  (samples : Float32Array) (highFreqRatio : num) :
  let out :=
    StereoToMonoConverter.enhanceHighFrequencies this samples highFreqRatio in
  let enhancementFactor : num :=
    1%R + highFreqRatio * 0.2%R
          * preserveRichness (StereoToMonoConverter.options this) in
  length out = length samples /\
  get out 0 = get samples 0 /\
  forall i, (1 <= i < length samples)%nat ->
    get out i
    = get samples i
      + (get samples i - get out (i - 1)) * 0.5%R
        * (enhancementFactor - 1%R).
Proof.
  intros out f. unfold out, StereoToMonoConverter.enhanceHighFrequencies.
  fold f.
  set (body := fun (s : Float32Array) (i : nat) =>
                 set s i (get s i + (get s i - get s (i - 1)) * 0.5%R
                                    * (f - 1%R))).
  destruct (Nat.le_gt_cases 1 (length samples)) as [Hn | Hn].
  - assert (H : length (for_loop 1 (length samples) body samples)
                = length samples /\
                (forall i, (length samples <= i)%nat ->
                   get (for_loop 1 (length samples) body samples) i
                   = get samples i) /\
                get (for_loop 1 (length samples) body samples) 0
                = get samples 0 /\
                forall i, (1 <= i < length samples)%nat ->
                  get (for_loop 1 (length samples) body samples) i
                  = get samples i
                    + (get samples i
                       - get (for_loop 1 (length samples) body samples)
                           (i - 1)) * 0.5%R * (f - 1%R)).
    { apply (for_loop_inv
               (fun k s =>
                  length s = length samples /\
                  (forall i, (k <= i)%nat -> get s i = get samples i) /\
                  get s 0 = get samples 0 /\
                  forall i, (1 <= i < k)%nat ->
                    get s i
                    = get samples i
                      + (get samples i - get s (i - 1)) * 0.5%R
                        * (f - 1%R))); [assumption | |].
      - repeat split; try reflexivity. intros i Hi. lia.
      - intros k s Hk (Hlen & Hrest & H0 & Hrec). unfold body.
        split; [now rewrite length_set |]. split; [| split].
        + intros i Hi. rewrite get_set_neq by lia. apply Hrest. lia.
        + rewrite get_set_neq by lia. exact H0.
        + intros i Hi. destruct (Nat.eq_dec i k) as [-> | Hne].
          * rewrite get_set_eq by lia. rewrite get_set_neq by lia.
            now rewrite (Hrest k) by lia.
          * rewrite !get_set_neq by lia. apply Hrec. lia. }
    destruct H as (H1 & _ & H2 & H3). auto.
  - assert (E : for_loop 1 (length samples) body samples = samples).
    { unfold for_loop. replace (length samples - 1)%nat with 0%nat by lia.
      reflexivity. }
    rewrite E. split; [reflexivity |]. split; [reflexivity |].
    intros i Hi. lia.
Qed.

(** With the same finite samples on both channels the side signal is 0,
    and the downmix is the sample times the sum of the two weights. *)
Lemma downmix_identical (this : StereoToMonoConverter.t) (b : AudioBuffer)
  (analysis : StereoAnalysis) (lw rw sg : R) (rest : Float32Array) :
  Forall is_fin (left b) ->
  right b = left b ->
  is_fin (preserveWidth (StereoToMonoConverter.options this)) ->
  StereoToMonoConverter.performIntelligentDownmix this b analysis
    (Fin lw :: Fin rw :: Fin sg :: rest)
  = map (fun i => get (left b) i * Fin (lw + rw))
        (seq 0 (length (left b))).
Proof.
  intros Hl Hr Hpw.
  unfold StereoToMonoConverter.performIntelligentDownmix. rewrite Hr.
  apply map_ext_in. intros i Hi. apply in_seq in Hi.
  destruct (is_fin_inv _ (Forall_get _ _ i Hl ltac:(lia))) as [x ->].
  cbn [get nth].
  destruct (is_fin_inv _ Hpw) as [w ->].
  destruct (_ >? _); unfold sub; cbn [opp add mul];
    apply (f_equal Fin); ring.
Qed.

Lemma has_NaN_dec (a : Float32Array) :
  Shape.has_NaN a \/ Forall (fun x => x <> NaN) a.
Proof.
  induction a as [| x a IH].
  - right. constructor.
  - destruct x as [| | r |];
      try (left; exists 0%nat; split; [simpl; lia | reflexivity]);
      (destruct IH as [(j & Hj & Ej) | IH];
       [left; exists (S j); split; [simpl; lia | exact Ej]
       | right; constructor; [discriminate | exact IH]]).
Qed.

Lemma identical_channels_any_width (this : StereoToMonoConverter.t)
  (b : AudioBuffer) (w1 w2 : R) :
  Spec.valid_buffer b ->
  right b = left b ->
  Shape.net_ok 8 (StereoToMonoConverter.processor this) 4 ->
  StereoToMonoConverter.convertSamples
    (StereoToMonoConverter.setOptions this (Scenario.withWidth w1)) b
  = StereoToMonoConverter.convertSamples
      (StereoToMonoConverter.setOptions this (Scenario.withWidth w2)) b.
Proof.
  intros Hb Hr Hnet. unfold StereoToMonoConverter.convertSamples.
  unfold StereoToMonoConverter.calculateMixingWeights.
  cbn [StereoToMonoConverter.processor StereoToMonoConverter.setOptions].
  match goal with
  | |- context [AudioFeatureProcessor.processFeatures _ ?f] =>
      set (features := f)
  end.
  destruct (has_NaN_dec features) as [HN | HF].
  - assert (Hne : StereoToMonoConverter.processor this <> []).
    { destruct (StereoToMonoConverter.processor this); [| discriminate].
      simpl in Hnet. discriminate. }
    rewrite (processFeatures_NaN _ _ Hnet Hne HN).
    rewrite !downmix_NaN. reflexivity.
  - pose proof (fun H => processFeatures_range _ _ Hnet H HF) as Hw.
    destruct (Hw eq_refl) as (w0 & w1' & w2' & w3 & -> & _).
    assert (Hl : Forall is_fin (left b))
      by (apply valid_is_fin; apply Hb).
    rewrite !(downmix_identical _ b _ w0 w1' w2' [Fin w3])
      by (assumption || exact I).
    reflexivity.
Qed.

(** X16: a converter built by the constructor from draws in [0, 1)
    converts a valid buffer with the same samples on both channels to
    the same output whatever finite value [preserveWidth] is then set
    to, at every length of the buffer. *)
Theorem identical_channels_ignore_width (o : ConversionOptions)
  (rnd : Rand.source) (n : nat) (b : AudioBuffer) (w1 w2 : R) :
  Rand.valid rnd ->
  Spec.valid_buffer b ->
  right b = left b ->
  StereoToMonoConverter.convertSamples
    (StereoToMonoConverter.setOptions
       (fst (StereoToMonoConverter.new o rnd n)) (Scenario.withWidth w1)) b
  = StereoToMonoConverter.convertSamples
      (StereoToMonoConverter.setOptions
         (fst (StereoToMonoConverter.new o rnd n)) (Scenario.withWidth w2))
      b.
Proof.
  intros _ Hb Hr. apply identical_channels_any_width; try assumption.
  unfold StereoToMonoConverter.new, Rand.bind.
  destruct (AudioFeatureProcessor.new rnd n) as [p k] eqn:E.
  cbn [fst Rand.ret StereoToMonoConverter.processor].
  replace p with (fst (AudioFeatureProcessor.new rnd n)) by (rewrite E; reflexivity).
  apply processor_net_ok.
Qed.

Lemma valid_dual_short :
  Spec.valid_buffer (Example.dual (left Scenario.short) 44100%R).
Proof.
  destruct valid_short as (_ & Hn & Hl & _).
  unfold Example.dual, Spec.valid_buffer. cbn [left right].
  repeat split; assumption.
Qed.

Lemma identical_channels_ignore_width_witness :
  StereoToMonoConverter.convertSamples
    (StereoToMonoConverter.setOptions
       (fst (StereoToMonoConverter.new StereoToMonoConverter.noOptions
               Scenario.half 0%nat))
       (Scenario.withWidth 0))
    (Example.dual (left Scenario.short) 44100%R)
  = StereoToMonoConverter.convertSamples
      (StereoToMonoConverter.setOptions
         (fst (StereoToMonoConverter.new StereoToMonoConverter.noOptions
                 Scenario.half 0%nat))
         (Scenario.withWidth 1))
      (Example.dual (left Scenario.short) 44100%R).
Proof.
  apply (identical_channels_ignore_width StereoToMonoConverter.noOptions
           Scenario.half 0%nat
           (Example.dual (left Scenario.short) 44100%R) 0 1).
  - intros k. unfold Scenario.half. lra.
  - exact valid_dual_short.
  - reflexivity.
Defined.

(** ** The draws of [Math.random] *)

Lemma bind_run {A B : Type} (c : Rand.M A) (k : A -> Rand.M B)
  (rnd : Rand.source) (n : nat) :
  Rand.bind c k rnd n = k (fst (c rnd n)) rnd (snd (c rnd n)).
Proof. unfold Rand.bind. now destruct (c rnd n). Qed.

Lemma repeatM_draws {A : Type} (c : Rand.M A) (rnd : Rand.source)
  (d : nat) :
  (forall n, snd (c rnd n) = (n + d)%nat) ->
  forall count n,
    snd (Rand.repeatM count c rnd n) = (n + count * d)%nat.
Proof.
  intros Hc. induction count; intros n; cbn [Rand.repeatM].
  - unfold Rand.ret. simpl. lia.
  - rewrite !bind_run. unfold Rand.ret. cbn [snd].
    rewrite IHcount, Hc. lia.
Qed.

Lemma createLayer_draws (inputSize outputSize : nat) (isOutput : bool)
  (rnd : Rand.source) (n : nat) :
  snd (NeuralNetwork.createLayer inputSize outputSize isOutput rnd n)
  = (n + outputSize * (inputSize + 1))%nat.
Proof.
  assert (Hone : forall (f : num -> num) k,
             snd ((r <- Rand.random ;; Rand.ret (f r)) rnd k)
             = (k + 1)%nat).
  { intros f k. rewrite bind_run. unfold Rand.ret, Rand.random. simpl. lia. }
  unfold NeuralNetwork.createLayer.
  set (scale := sqrt _).
  rewrite bind_run.
  rewrite (repeatM_draws _ rnd (inputSize * 1))
    by (intros k; apply (repeatM_draws _ rnd 1);
        apply (Hone (fun r => (r * 2%R - 1%R) * scale))).
  rewrite bind_run.
  rewrite (repeatM_draws _ rnd 1)
    by (apply (Hone (fun r => (r * 2%R - 1%R) * 0.01%R))).
  unfold Rand.ret. cbn [snd]. lia.
Qed.

(** X17: building the processor, and so building a converter, draws
    exactly 316 random numbers (one per weight and bias of the 8-16-8-4
    network), whatever the options; two converters built one after the
    other draw 632 between them. *)
Theorem processor_draws (o1 o2 : ConversionOptions) (rnd : Rand.source)
  (n : nat) :
  snd (AudioFeatureProcessor.new rnd n) = (n + 316)%nat /\
  snd (StereoToMonoConverter.new o1 rnd n) = (n + 316)%nat /\
  snd ((c1 <- StereoToMonoConverter.new o1 ;;
        c2 <- StereoToMonoConverter.new o2 ;;
        Rand.ret (c1, c2)) rnd n) = (n + 632)%nat.
Proof.
  assert (H : forall k, snd (AudioFeatureProcessor.new rnd k)
                        = (k + 316)%nat).
  { intros k.
    unfold AudioFeatureProcessor.new,
      NeuralNetwork.createPretrainedAudioModel, NeuralNetwork.new.
    cbn [app NeuralNetwork.createLayers].
    rewrite !bind_run. unfold Rand.ret. cbn [snd].
    rewrite !createLayer_draws. lia. }
  assert (H' : forall o k, snd (StereoToMonoConverter.new o rnd k)
                           = (k + 316)%nat).
  { intros o k. unfold StereoToMonoConverter.new. rewrite bind_run.
    unfold Rand.ret. cbn [snd]. apply H. }
  split; [apply H |]. split; [apply H' |].
  rewrite !bind_run. unfold Rand.ret. cbn [snd]. rewrite !H'. lia.
Qed.

(** ** Resampling *)

Lemma Int_part_IZR (z : Z) : Int_part (IZR z) = z.
Proof. symmetry. apply Int_part_spec. lra. Qed.

Lemma truncZ_IZR (z : Z) : Resampler.truncZ (IZR z) = z.
Proof.
  unfold Resampler.truncZ. destruct (Rltb_spec (IZR z) 0).
  - rewrite <- opp_IZR, Int_part_IZR. lia.
  - apply Int_part_IZR.
Qed.

Lemma Int_part_nonneg (r : R) : (0 <= r)%R -> (0 <= Int_part r)%Z.
Proof.
  intros Hr. destruct (base_Int_part r) as [_ H].
  assert (-1 < IZR (Int_part r))%R by lra.
  apply lt_IZR in H0. lia.
Qed.

Lemma Int_part_le (r : R) (z : Z) :
  (r <= IZR z)%R -> (Int_part r <= z)%Z.
Proof.
  intros Hr. destruct (base_Int_part r) as [H _].
  apply le_IZR. lra.
Qed.

Lemma Int_part_lt (r : R) (z : Z) :
  (r < IZR z)%R -> (Int_part r < z)%Z.
Proof.
  intros Hr. destruct (base_Int_part r) as [H _].
  apply lt_IZR. lra.
Qed.

Lemma item_int (a : Float32Array) (k : Z) :
  (0 <= k)%Z -> Resampler.item a (Fin (IZR k)) = get a (Z.to_nat k).
Proof.
  intros Hk. unfold Resampler.item. rewrite Int_part_IZR.
  rewrite Reqb_true by reflexivity.
  destruct (Z.leb_spec 0 k); [reflexivity | lia].
Qed.

Lemma toIndex_floor (q : R) :
  (0 <= q <= 9007199254740991)%R ->
  Resampler.toIndex (Resampler.floor (Fin q))
  = Some (Z.to_nat (Int_part q)).
Proof.
  intros [H0 H1]. unfold Resampler.floor, Resampler.toIndex.
  rewrite truncZ_IZR.
  pose proof (Int_part_nonneg q H0).
  pose proof (Int_part_le q 9007199254740991 H1).
  destruct (Z.ltb_spec (Int_part q) 0); [lia |].
  destruct (Z.ltb_spec 9007199254740991 (Int_part q)); [lia |].
  reflexivity.
Qed.

(** The two neighbours and the fraction used for an output whose source
    position [p] lies within the array. *)
Lemma resample_sample (samples : Float32Array) (p : R) :
  Forall Spec.valid_sample samples ->
  (0 <= p < INR (length samples))%R ->
  Spec.valid_sample
    (let sourceIndex := Fin p in
     let index0 := Resampler.floor sourceIndex in
     let index1 := min (index0 + 1%R) (of_nat (length samples) - 1%R) in
     let fraction := sourceIndex - index0 in
     Resampler.item samples index0 * (1%R - fraction)
     + Resampler.item samples index1 * fraction).
Proof.
  intros Hv [Hp0 Hpn]. cbv zeta. unfold Resampler.floor.
  set (k0 := Int_part p).
  assert (Hk0 : (0 <= k0)%Z) by (apply Int_part_nonneg; assumption).
  assert (Hk0n : (k0 < Z.of_nat (length samples))%Z).
  { apply Int_part_lt. rewrite <- INR_IZR_INZ. assumption. }
  destruct (base_Int_part p) as [Hlo Hhi]. fold k0 in Hlo, Hhi.
  assert (E1 : exists k1 : Z,
             min (Fin (IZR k0) + 1%R) (of_nat (length samples) - 1%R)
             = Fin (IZR k1) /\
             (0 <= k1 < Z.of_nat (length samples))%Z).
  { unfold of_nat, sub. cbn [opp add min lt].
    destruct (Rltb_spec (IZR k0 + 1) (INR (length samples) + - (1))).
    - exists (k0 + 1)%Z. rewrite plus_IZR. split; [reflexivity |].
      split; [lia |]. apply lt_IZR. rewrite plus_IZR, <- INR_IZR_INZ. lra.
    - exists (Z.of_nat (length samples) - 1)%Z.
      rewrite minus_IZR, <- INR_IZR_INZ. split; [reflexivity | lia]. }
  destruct E1 as (k1 & -> & Hk1).
  rewrite !item_int by lia.
  destruct (valid_get samples (Z.to_nat k0) Hv ltac:(lia)) as [E0 Hx0].
  destruct (valid_get samples (Z.to_nat k1) Hv ltac:(lia)) as [E1 Hx1].
  set (x0 := Spec.val (get samples (Z.to_nat k0))) in *.
  set (x1 := Spec.val (get samples (Z.to_nat k1))) in *.
  rewrite E0, E1. unfold sub. cbn [opp add mul].
  eexists. split; [reflexivity |].
  set (f := (p + - IZR k0)%R).
  assert (Hf : (0 <= f < 1)%R) by (unfold f; lra).
  assert (H1 : (- (1 + - f) <= x0 * (1 + - f) <= 1 + - f)%R) by nra.
  assert (H2 : (- f <= x1 * f <= f)%R) by nra.
  lra.
Qed.

(** X18: between two different positive rates, every array that
    [resample] returns for valid samples holds valid samples only: each
    output is an interpolation between two neighbouring samples of the
    input. *)
Theorem resample_valid (samples out : Float32Array) (s t : R) :
  Forall Spec.valid_sample samples ->
  (0 < s)%R -> (0 < t)%R -> s <> t ->
  Resampler.resample samples (Fin s) (Fin t) = Normal out ->
  Forall Spec.valid_sample out.
Proof.
  intros Hv Hs Ht Hne. unfold Resampler.resample.
  cbn [eqb]. rewrite Reqb_false by assumption.
  rewrite (div_fin s t) by lra.
  assert (Hr : (0 < s / t)%R) by (apply Rdiv_lt_0_compat; assumption).
  unfold of_nat at 1. rewrite div_fin by lra.
  set (n := length samples) in *.
  set (q := (INR n / (s / t))%R).
  assert (Hq0 : (0 <= q)%R).
  { unfold q. apply Rmult_le_pos; [apply pos_INR |].
    apply Rlt_le, Rinv_0_lt_compat, Hr. }
  pose proof (Int_part_nonneg q Hq0) as Hz.
  destruct (base_Int_part q) as [Hlo Hhi].
  destruct (Resampler.toIndex (Resampler.floor (Fin q))) as [m |] eqn:Em;
    [| discriminate].
  assert (Hm : m = Z.to_nat (Int_part q)).
  { unfold Resampler.floor, Resampler.toIndex in Em.
    rewrite truncZ_IZR in Em.
    destruct (_ || _); [discriminate |]. now inversion Em. }
  intros Hout. injection Hout as Eout. subst out.
  set (z := Int_part q) in *.
  assert (HINR : INR (Z.to_nat z) = IZR z)
    by (rewrite INR_IZR_INZ, Z2Nat.id by lia; reflexivity).
  apply Forall_map_seq. intros i Hi.
  assert (Hi' : (INR i + 1 <= IZR z)%R).
  { rewrite <- HINR. rewrite <- S_INR. apply le_INR. lia. }
  apply (resample_sample samples (INR i * (s / t))).
  - assumption.
  - fold n. split.
    + apply Rmult_le_pos; [apply pos_INR | lra].
    + assert (Hn : (q * (s / t) = INR n)%R) by (unfold q; field; lra).
      rewrite <- Hn.
      apply Rmult_lt_compat_r; lra.
Qed.

Lemma resample_sample_int (samples : Float32Array) (j : nat) :
  Forall is_fin samples ->
  (j < length samples)%nat ->
  (let sourceIndex := Fin (INR j) in
   let index0 := Resampler.floor sourceIndex in
   let index1 := min (index0 + 1%R) (of_nat (length samples) - 1%R) in
   let fraction := sourceIndex - index0 in
   Resampler.item samples index0 * (1%R - fraction)
   + Resampler.item samples index1 * fraction)
  = get samples j.
Proof.
  intros Hfin Hj. cbv zeta. unfold Resampler.floor.
  rewrite Int_part_INR.
  assert (E1 : exists k1 : Z,
             min (Fin (IZR (Z.of_nat j)) + 1%R)
                 (of_nat (length samples) - 1%R)
             = Fin (IZR k1) /\
             (0 <= k1 < Z.of_nat (length samples))%Z).
  { unfold of_nat, sub. cbn [opp add min lt].
    destruct (Rltb_spec (IZR (Z.of_nat j) + 1)
                        (INR (length samples) + - (1))).
    - exists (Z.of_nat j + 1)%Z. rewrite plus_IZR.
      split; [reflexivity |]. split; [lia |].
      apply lt_IZR. rewrite plus_IZR.
      rewrite (INR_IZR_INZ (length samples)) in r. lra.
    - exists (Z.of_nat (length samples) - 1)%Z.
      rewrite minus_IZR, <- (INR_IZR_INZ (length samples)).
      split; [reflexivity | lia]. }
  destruct E1 as (k1 & -> & Hk1).
  rewrite !item_int by lia. rewrite Nat2Z.id.
  destruct (is_fin_inv _ (Forall_get _ samples j Hfin Hj)) as [x0 ->].
  destruct (is_fin_inv _ (Forall_get _ samples (Z.to_nat k1) Hfin
                            ltac:(lia))) as [x1 ->].
  unfold sub. cbn [opp add mul]. rewrite <- INR_IZR_INZ.
  apply (f_equal Fin). ring.
Qed.

(** Resampling by a whole factor. *)
Lemma resample_whole_factor (samples : Float32Array) (k : nat) (t : R) :
  Forall is_fin samples ->
  (2 <= k)%nat -> (0 < t)%R ->
  (Z.of_nat (length samples) <= 9007199254740991)%Z ->
  Resampler.resample samples (Fin (INR k * t)) (Fin t)
  = Normal (map (fun i => get samples (i * k))
                (seq 0 (length samples / k))).
Proof.
  intros Hfin Hk Ht Hlim. unfold Resampler.resample.
  assert (Hk2 : (2 <= INR k)%R).
  { change 2%R with (INR 2). apply le_INR. assumption. }
  cbn [eqb]. rewrite Reqb_false by nra.
  rewrite (div_fin (INR k * t) t) by lra.
  replace (INR k * t / t)%R with (INR k) by (field; lra).
  unfold of_nat at 1. rewrite div_fin by lra.
  set (n := length samples) in *.
  pose proof (Nat.div_mod_eq n k) as Hdiv.
  pose proof (Nat.mod_upper_bound n k ltac:(lia)) as Hmod.
  assert (Hn : (INR n = INR k * INR (n / k) + INR (n mod k))%R).
  { rewrite <- mult_INR, <- plus_INR. now rewrite <- Hdiv. }
  assert (Hrem : (0 <= INR (n mod k) / INR k < 1)%R).
  { split.
    - apply Rmult_le_pos; [apply pos_INR |].
      apply Rlt_le, Rinv_0_lt_compat. lra.
    - apply (Rmult_lt_reg_r (INR k)); [lra |].
      replace (INR (n mod k) / INR k * INR k)%R with (INR (n mod k))
        by (field; lra).
      rewrite Rmult_1_l. apply lt_INR. assumption. }
  assert (Hq : (INR n / INR k = INR (n / k) + INR (n mod k) / INR k)%R)
    by (rewrite Hn; field; lra).
  assert (Hz : Int_part (INR n / INR k) = Z.of_nat (n / k)).
  { symmetry. apply Int_part_spec. rewrite Hq, <- INR_IZR_INZ. lra. }
  rewrite toIndex_floor.
  - rewrite Hz, Nat2Z.id. f_equal.
    apply map_ext_in. intros i Hi. apply in_seq in Hi.
    replace (of_nat i * Fin (INR k)) with (Fin (INR (i * k)))
      by (unfold of_nat; cbn [mul]; now rewrite mult_INR).
    apply (resample_sample_int samples (i * k)); [assumption |].
    fold n. nia.
  - rewrite Hq. split.
    + pose proof (pos_INR (n / k)). lra.
    + assert (INR (n / k) + 1 <= INR n + 1)%R.
      { apply Rplus_le_compat_r, le_INR.
        apply Nat.Div0.div_le_upper_bound. nia. }
      assert (INR n <= 9007199254740991)%R.
      { rewrite INR_IZR_INZ. apply IZR_le. assumption. }
      destruct (Nat.eq_dec (n / k) n) as [E | E].
      * assert (n = 0%nat) by nia.
        rewrite H1 in *. rewrite Nat.Div0.mod_0_l. simpl. 
        unfold Rdiv. rewrite Rmult_0_l. lra.
      * assert (INR (n / k) + 1 <= INR n)%R.
        { rewrite <- S_INR. apply le_INR.
          assert (n / k <= n)%nat
            by (apply Nat.Div0.div_le_upper_bound; nia).
          lia. }
        lra.
Qed.

(** X19: when the source rate is k times the target rate, k >= 2,
    [resample] of finite samples keeps every k-th sample,
    out[i] = samples[i * k], and returns floor(n / k) of them. *)
Theorem resample_decimates (samples : Float32Array) (k : nat) (t : R) :
  Forall is_fin samples ->
  (2 <= k)%nat -> (0 < t)%R ->
  (Z.of_nat (length samples) <= 9007199254740991)%Z ->
  exists out : Float32Array,
    Resampler.resample samples (Fin (INR k * t)) (Fin t) = Normal out /\
    length out = (length samples / k)%nat /\
    forall i, (i < length samples / k)%nat ->
      get out i = get samples (i * k).
Proof.
  intros Hfin Hk Ht Hlim.
  rewrite (resample_whole_factor samples k t Hfin Hk Ht Hlim).
  eexists. split; [reflexivity |]. split.
  - now rewrite length_map, length_seq.
  - intros i Hi. now rewrite get_map_seq.
Qed.

Lemma resample_decimates_witness :
  exists out : Float32Array,
    Resampler.resample (left Scenario.short) (Fin (INR 2 * 22050))
      (Fin 22050)
    = Normal out /\
    length out = (length (left Scenario.short) / 2)%nat /\
    forall i, (i < length (left Scenario.short) / 2)%nat ->
      get out i = get (left Scenario.short) (i * 2).
Proof.
  apply (resample_decimates (left Scenario.short) 2 22050).
  - apply valid_is_fin, valid_short.
  - lia.
  - lra.
  - simpl. lia.
Defined.

Lemma resample_valid_witness :
  Forall Spec.valid_sample
    (map (fun i => get (left Scenario.short) (i * 2))
         (seq 0 (length (left Scenario.short) / 2))).
Proof.
  apply (resample_valid (left Scenario.short)
           (map (fun i => get (left Scenario.short) (i * 2))
                (seq 0 (length (left Scenario.short) / 2)))
           (INR 2 * 22050) 22050).
  - apply valid_short.
  - simpl. lra.
  - lra.
  - simpl. lra.
  - apply resample_whole_factor.
    + apply valid_is_fin, valid_short.
    + lia.
    + lra.
    + simpl. lia.
Defined.

(** X20: [resample] returns an empty array, without an error, when a
    rate is NaN, and when the target rate is 0 and the source rate is
    not. *)
Theorem resample_empty_output (samples : Float32Array) :
  (forall t : num, Resampler.resample samples NaN t = Normal []) /\
  (forall s : num, Resampler.resample samples s NaN = Normal []) /\
  (forall s : R, s <> 0%R ->
     Resampler.resample samples (Fin s) (Fin 0) = Normal []).
Proof.
  split; [| split].
  - intros t. unfold Resampler.resample. cbn [eqb div].
    replace (of_nat (length samples) / NaN) with NaN
      by (unfold of_nat; reflexivity).
    reflexivity.
  - intros s. unfold Resampler.resample.
    replace (s =? NaN) with false by (now destruct s).
    replace (s / NaN) with NaN by (now destruct s).
    replace (of_nat (length samples) / NaN) with NaN
      by (unfold of_nat; reflexivity).
    reflexivity.
  - intros s Hs. unfold Resampler.resample.
    cbn [eqb]. rewrite Reqb_false by assumption.
    assert (E : of_nat (length samples) / (Fin s / Fin 0) = Fin 0).
    { cbn [div]. rewrite Reqb_true by reflexivity. unfold Rsign, of_nat.
      destruct (Rltb_spec 0 s); [reflexivity |].
      destruct (Rltb_spec s 0); [reflexivity | lra]. }
    rewrite E. rewrite toIndex_floor by lra.
    replace (Int_part 0) with 0%Z by (symmetry; apply (Int_part_IZR 0)).
    reflexivity.
Qed.

Lemma resample_range_error (samples : Float32Array) (s t : R) :
  samples <> [] ->
  (s = 0%R /\ t <> 0%R) \/ (s * t < 0)%R ->
  Resampler.resample samples (Fin s) (Fin t) = Throw RangeError.
Proof.
  intros Hne Hrates. unfold Resampler.resample.
  assert (Hn : (0 < INR (length samples))%R).
  { apply lt_0_INR. destruct samples; [congruence | simpl; lia]. }
  destruct Hrates as [[-> Ht] | Hst].
  - cbn [eqb]. rewrite Reqb_false by (intros E; apply Ht; now rewrite E).
    rewrite (div_fin 0 t) by assumption.
    replace (0 / t)%R with 0%R by (unfold Rdiv; ring).
    unfold of_nat. cbn [div]. rewrite Reqb_true by reflexivity.
    unfold Rsign. rewrite Rltb_true by assumption. reflexivity.
  - assert (Ht : t <> 0%R) by (intros ->; lra).
    assert (Hs : s <> 0%R) by (intros ->; lra).
    cbn [eqb]. rewrite Reqb_false by (intros ->; nra).
    rewrite (div_fin s t) by assumption.
    assert (Hr : (s / t < 0)%R).
    { assert (Hinv : (0 < / t * / t)%R).
      { pose proof (Rinv_neq_0_compat t Ht).
        pose proof (Rle_0_sqr (/ t)) as Hsq. unfold Rsqr in Hsq.
        destruct (Req_dec (/ t * / t) 0) as [E | E]; [| lra].
        apply Rmult_integral in E. tauto. }
      replace (s / t)%R with (s * t * (/ t * / t))%R by (field; assumption).
      assert (0 < - (s * t) * (/ t * / t))%R
        by (apply Rmult_lt_0_compat; lra).
      lra. }
    unfold of_nat. rewrite div_fin by lra.
    set (q := (INR (length samples) / (s / t))%R).
    assert (Hq : (q < 0)%R).
    { unfold q.
      assert (0 < INR (length samples) * / (- (s / t)))%R.
      { apply Rmult_lt_0_compat; [assumption |].
        apply Rinv_0_lt_compat. lra. }
      replace (INR (length samples) / (s / t))%R
        with (- (INR (length samples) * / (- (s / t))))%R
        by (field; split; lra).
      lra. }
    unfold Resampler.floor, Resampler.toIndex. rewrite truncZ_IZR.
    pose proof (Int_part_lt q 0 Hq).
    destruct (Z.ltb_spec (Int_part q) 0); [reflexivity | lia].
Qed.

(** X21: through the facade, a buffer with samples whose own rate is 0
    makes [convert] throw a RangeError when a finite rate other than 0
    is requested: the ratio is 0, the output length is infinite, and the
    allocation inside [resample] refuses it. *)
Theorem convert_range_error (this : NeuroMono.t) (b : AudioBuffer)
  (t : R) (rnd : Rand.source) (n : nat) :
  opt_sampleRate (NeuroMono.options this) = Some (Fin t) ->
  t <> 0%R ->
  bufferSampleRate b = Fin 0 ->
  left b <> [] ->
  fst (fst (NeuroMono.convert this b rnd n)) = Throw RangeError.
Proof.
  intros Hopt Ht Hrate Hne.
  unfold NeuroMono.convert. rewrite bind_run. unfold Rand.ret. cbn [fst].
  assert (Ho : opt_sampleRate
                 (NeuroMono.options
                    (snd (fst (NeuroMono.ensureConverter this rnd n))))
               = Some (Fin t)).
  { unfold NeuroMono.ensureConverter. destruct (NeuroMono.converter this).
    - unfold Rand.ret. cbn [fst snd]. assumption.
    - rewrite bind_run. unfold Rand.ret. cbn [fst snd NeuroMono.options].
      assumption. }
  unfold NeuroMono.processedBuffer. rewrite Ho, Hrate.
  cbn [NeuroMono.truthy eqb]. rewrite !Reqb_false by assumption.
  cbn [negb andb].
  rewrite (resample_range_error (left b) 0 t Hne); [reflexivity |].
  left. split; [reflexivity | assumption].
Qed.

Lemma convert_range_error_witness :
  fst (fst (NeuroMono.convert
              (NeuroMono.createConverter
                 (Some (Example.withRate (Fin 44100))))
              (Example.dual (left Scenario.short) (Fin 0))
              Scenario.half 0%nat))
  = Throw RangeError.
Proof.
  apply (convert_range_error
           (NeuroMono.createConverter (Some (Example.withRate (Fin 44100))))
           (Example.dual (left Scenario.short) (Fin 0))
           44100 Scenario.half 0%nat).
  - reflexivity.
  - lra.
  - reflexivity.
  - discriminate.
Defined.

(** ** The facade *)

Lemma ensureConverter_options (this : NeuroMono.t) (rnd : Rand.source)
  (n : nat) :
  NeuroMono.options (snd (fst (NeuroMono.ensureConverter this rnd n)))
  = NeuroMono.options this.
Proof.
  unfold NeuroMono.ensureConverter. destruct (NeuroMono.converter this).
  - reflexivity.
  - rewrite bind_run. reflexivity.
Qed.

Lemma ensureConverter_started (this : NeuroMono.t)
  (c : StereoToMonoConverter.t) (rnd : Rand.source) (n : nat) :
  NeuroMono.converter this = Some c ->
  NeuroMono.ensureConverter this rnd n = ((c, this), n).
Proof. intros H. unfold NeuroMono.ensureConverter. now rewrite H. Qed.

Lemma ensureConverter_creates (this : NeuroMono.t) (rnd : Rand.source)
  (n : nat) :
  exists c : StereoToMonoConverter.t,
    NeuroMono.converter (snd (fst (NeuroMono.ensureConverter this rnd n)))
    = Some c /\
    fst (fst (NeuroMono.ensureConverter this rnd n)) = c.
Proof.
  unfold NeuroMono.ensureConverter.
  destruct (NeuroMono.converter this) as [c |] eqn:E.
  - exists c. split; [exact E | reflexivity].
  - rewrite bind_run. eexists. split; reflexivity.
Qed.

(** X22: through the facade, asking for a rate that divides the rate of
    a finite buffer by k >= 2 makes [convert] return floor(n / k)
    samples. *)
Theorem convert_decimated_length (this : NeuroMono.t) (b : AudioBuffer)
  (k : nat) (t : R) (rnd : Rand.source) (n : nat) :
  opt_sampleRate (NeuroMono.options this) = Some (Fin t) ->
  bufferSampleRate b = Fin (INR k * t) ->
  (2 <= k)%nat -> (0 < t)%R ->
  Forall is_fin (left b) -> Forall is_fin (right b) ->
  (Z.of_nat (length (left b)) <= 9007199254740991)%Z ->
  (Z.of_nat (length (right b)) <= 9007199254740991)%Z ->
  exists mono : Float32Array,
    fst (fst (NeuroMono.convert this b rnd n)) = Normal mono /\
    length mono = (length (left b) / k)%nat.
Proof.
  intros Hopt Hrate Hk Ht Hl Hr Hll Hlr.
  assert (Hk2 : (2 <= INR k)%R).
  { change 2%R with (INR 2). apply le_INR. assumption. }
  unfold NeuroMono.convert. rewrite bind_run. unfold Rand.ret. cbn [fst snd].
  unfold NeuroMono.processedBuffer.
  rewrite ensureConverter_options, Hopt, Hrate.
  cbn [NeuroMono.truthy eqb]. rewrite !Reqb_false by nra.
  cbn [negb andb].
  rewrite (resample_whole_factor (left b) k t) by assumption.
  rewrite (resample_whole_factor (right b) k t) by assumption.
  unfold StereoToMonoConverter.convert.
  eexists. split; [reflexivity |].
  rewrite length_convertSamples. cbn [left].
  now rewrite length_map, length_seq.
Qed.

Lemma convert_decimated_length_witness :
  exists mono : Float32Array,
    fst (fst (NeuroMono.convert
                (NeuroMono.createConverter
                   (Some (Example.withRate (Fin 22050))))
                (Example.dual (left Scenario.short) (Fin (INR 2 * 22050)))
                Scenario.half 0%nat))
    = Normal mono /\
    length mono
    = (length (left (Example.dual (left Scenario.short)
                       (Fin (INR 2 * 22050)))) / 2)%nat.
Proof.
  apply (convert_decimated_length
           (NeuroMono.createConverter (Some (Example.withRate (Fin 22050))))
           (Example.dual (left Scenario.short) (Fin (INR 2 * 22050)))
           2 22050 Scenario.half 0%nat).
  - reflexivity.
  - reflexivity.
  - lia.
  - lra.
  - apply valid_is_fin, valid_short.
  - apply valid_is_fin, valid_short.
  - simpl. lia.
  - simpl. lia.
Defined.

(** X23: without a requested rate, or with a requested rate of 0, NaN or
    the buffer's own rate, the facade hands the buffer unchanged to its
    converter: [convert] returns what the converter returns for the
    buffer, one sample per left sample, and never throws. *)
Theorem convert_without_resampling (this : NeuroMono.t) (b : AudioBuffer)
  (rnd : Rand.source) (n : nat) :
  opt_sampleRate (NeuroMono.options this) = None \/
  opt_sampleRate (NeuroMono.options this) = Some NaN \/
  opt_sampleRate (NeuroMono.options this) = Some (Fin 0) \/
  (opt_sampleRate (NeuroMono.options this) = Some (bufferSampleRate b) /\
   bufferSampleRate b <> NaN) ->
  fst (fst (NeuroMono.convert this b rnd n))
  = StereoToMonoConverter.convert
      (fst (fst (NeuroMono.ensureConverter this rnd n))) b /\
  exists mono : Float32Array,
    fst (fst (NeuroMono.convert this b rnd n)) = Normal mono /\
    length mono = length (left b).
Proof.
  intros Hopt.
  assert (E : NeuroMono.processedBuffer
                (snd (fst (NeuroMono.ensureConverter this rnd n))) b
              = Normal b).
  { unfold NeuroMono.processedBuffer. rewrite ensureConverter_options.
    destruct Hopt as [-> | [-> | [-> | [-> Hrate]]]]; try reflexivity.
    - cbn [NeuroMono.truthy]. rewrite Reqb_true by reflexivity. reflexivity.
    - assert (Heq : (bufferSampleRate b =? bufferSampleRate b) = true).
      { destruct (bufferSampleRate b); try reflexivity; [congruence |].
        cbn [eqb]. now rewrite Reqb_true. }
      rewrite Heq. now rewrite Bool.andb_false_r. }
  assert (E' : fst (fst (NeuroMono.convert this b rnd n))
               = StereoToMonoConverter.convert
                   (fst (fst (NeuroMono.ensureConverter this rnd n))) b).
  { unfold NeuroMono.convert. rewrite bind_run. unfold Rand.ret.
    cbn [fst snd]. now rewrite E. }
  split; [exact E' |]. rewrite E'.
  unfold StereoToMonoConverter.convert. eexists. split; [reflexivity |].
  apply length_convertSamples.
Qed.

Lemma convert_without_resampling_witness :
  fst (fst (NeuroMono.convert
              (NeuroMono.sampleRate NeuroMono.new (Some (Fin 0)))
              Scenario.short Scenario.half 0%nat))
  = StereoToMonoConverter.convert
      (fst (fst (NeuroMono.ensureConverter
                   (NeuroMono.sampleRate NeuroMono.new (Some (Fin 0)))
                   Scenario.half 0%nat)))
      Scenario.short /\
  exists mono : Float32Array,
    fst (fst (NeuroMono.convert
                (NeuroMono.sampleRate NeuroMono.new (Some (Fin 0)))
                Scenario.short Scenario.half 0%nat))
    = Normal mono /\
    length mono = length (left Scenario.short).
Proof.
  apply (convert_without_resampling
           (NeuroMono.sampleRate NeuroMono.new (Some (Fin 0)))
           Scenario.short Scenario.half 0%nat).
  right. right. left. reflexivity.
Defined.

(** X24: the four numeric setters of the facade store a finite value
    within their range for every level that is not NaN (infinities
    included): [0, 1] for preserveWidth, preserveRichness and quality,
    [0.5, 2] for volumeCompensation. *)
Theorem setters_clamp (this : NeuroMono.t) (level : num) :
  level <> NaN ->
  exists w r v q : R,
    opt_preserveWidth
      (NeuroMono.getOptions (NeuroMono.preserveWidth this level))
    = Some (Fin w) /\
    opt_preserveRichness
      (NeuroMono.getOptions (NeuroMono.preserveRichness this level))
    = Some (Fin r) /\
    opt_volumeCompensation
      (NeuroMono.getOptions (NeuroMono.volumeCompensation this level))
    = Some (Fin v) /\
    opt_quality (NeuroMono.getOptions (NeuroMono.quality this level))
    = Some (Fin q) /\
    (0 <= w <= 1)%R /\ (0 <= r <= 1)%R /\ (0.5 <= v <= 2)%R /\
    (0 <= q <= 1)%R.
Proof.
  intros Hlevel.
  destruct (clamp_not_NaN 0 1 level ltac:(lra) Hlevel) as (c & Ec & Hc).
  destruct (clamp_not_NaN 0.5 2 level ltac:(lra) Hlevel) as (v & Ev & Hv).
  exists c, c, v, c.
  unfold NeuroMono.getOptions, NeuroMono.preserveWidth,
    NeuroMono.preserveRichness, NeuroMono.volumeCompensation,
    NeuroMono.quality.
  cbn [NeuroMono.options opt_preserveWidth opt_preserveRichness
       opt_volumeCompensation opt_quality].
  rewrite Ec, Ev. repeat split; try reflexivity; lra.
Qed.

Lemma setters_clamp_witness :
  exists w r v q : R,
    opt_preserveWidth
      (NeuroMono.getOptions (NeuroMono.preserveWidth NeuroMono.new PosInf))
    = Some (Fin w) /\
    opt_preserveRichness
      (NeuroMono.getOptions (NeuroMono.preserveRichness NeuroMono.new PosInf))
    = Some (Fin r) /\
    opt_volumeCompensation
      (NeuroMono.getOptions
         (NeuroMono.volumeCompensation NeuroMono.new PosInf))
    = Some (Fin v) /\
    opt_quality (NeuroMono.getOptions (NeuroMono.quality NeuroMono.new PosInf))
    = Some (Fin q) /\
    (0 <= w <= 1)%R /\ (0 <= r <= 1)%R /\ (0.5 <= v <= 2)%R /\
    (0 <= q <= 1)%R.
Proof.
  apply (setters_clamp NeuroMono.new PosInf). discriminate.
Defined.

(** X25: [createConverter(options)] and [setOptions] store the given
    values as they are, without the clamping of the setters:
    [getOptions] returns the options passed to [createConverter], and
    the converter built from them uses each given value in place of its
    default. *)
Theorem createConverter_keeps_options (o : ConversionOptions)
  (rnd : Rand.source) (n : nat) :
  NeuroMono.getOptions (NeuroMono.createConverter (Some o)) = o /\
  StereoToMonoConverter.options
    (fst (fst (NeuroMono.ensureConverter
                 (NeuroMono.createConverter (Some o)) rnd n)))
  = StereoToMonoConverter.defaults o.
Proof.
  assert (E : NeuroMono.options (NeuroMono.createConverter (Some o)) = o).
  { destruct o as [pw pr vc sr q sa].
    unfold NeuroMono.createConverter, NeuroMono.setOptions, NeuroMono.merge,
      NeuroMono.new, StereoToMonoConverter.noOptions.
    cbn. destruct pw, pr, vc, sr, q, sa; reflexivity. }
  split; [exact E |].
  unfold NeuroMono.ensureConverter.
  replace (NeuroMono.converter (NeuroMono.createConverter (Some o)))
    with (@None StereoToMonoConverter.t) by reflexivity.
  rewrite bind_run. unfold Rand.ret. cbn [fst].
  unfold StereoToMonoConverter.new. rewrite bind_run. unfold Rand.ret.
  cbn [fst StereoToMonoConverter.options]. now rewrite E.
Qed.

(** X26: once the facade has created its converter (by a first
    [convert] or [analyze]), the fluent setters other than [sampleRate]
    no longer change what [convert] returns: they write the facade's
    options, which the existing converter never reads again. *)
Theorem setters_after_creation (this : NeuroMono.t)
  (c : StereoToMonoConverter.t) (b : AudioBuffer) (level : num)
  (enabled : bool) (rnd : Rand.source) (n : nat) :
  NeuroMono.converter this = Some c ->
  let result := fst (fst (NeuroMono.convert this b rnd n)) in
  fst (fst (NeuroMono.convert (NeuroMono.preserveWidth this level) b rnd n))
  = result /\
  fst (fst (NeuroMono.convert (NeuroMono.preserveRichness this level)
              b rnd n))
  = result /\
  fst (fst (NeuroMono.convert (NeuroMono.volumeCompensation this level)
              b rnd n))
  = result /\
  fst (fst (NeuroMono.convert (NeuroMono.quality this level) b rnd n))
  = result /\
  fst (fst (NeuroMono.convert (NeuroMono.spectralAnalysis this enabled)
              b rnd n))
  = result.
Proof.
  intros Hc result. unfold result, NeuroMono.convert.
  rewrite !bind_run.
  rewrite (ensureConverter_started this c rnd n Hc).
  rewrite (ensureConverter_started (NeuroMono.preserveWidth this level)
             c rnd n Hc).
  rewrite (ensureConverter_started (NeuroMono.preserveRichness this level)
             c rnd n Hc).
  rewrite (ensureConverter_started (NeuroMono.volumeCompensation this level)
             c rnd n Hc).
  rewrite (ensureConverter_started (NeuroMono.quality this level)
             c rnd n Hc).
  rewrite (ensureConverter_started (NeuroMono.spectralAnalysis this enabled)
             c rnd n Hc).
  repeat split; reflexivity.
Qed.

Lemma setters_after_creation_witness :
  let this :=
    snd (fst (NeuroMono.analyze NeuroMono.new Scenario.short
                Scenario.half 0%nat)) in
  let result :=
    fst (fst (NeuroMono.convert this Scenario.short Scenario.half 316%nat)) in
  fst (fst (NeuroMono.convert (NeuroMono.preserveWidth this (Fin 0.9))
              Scenario.short Scenario.half 316%nat))
  = result /\
  fst (fst (NeuroMono.convert (NeuroMono.preserveRichness this (Fin 0.9))
              Scenario.short Scenario.half 316%nat))
  = result /\
  fst (fst (NeuroMono.convert (NeuroMono.volumeCompensation this (Fin 0.9))
              Scenario.short Scenario.half 316%nat))
  = result /\
  fst (fst (NeuroMono.convert (NeuroMono.quality this (Fin 0.9))
              Scenario.short Scenario.half 316%nat))
  = result /\
  fst (fst (NeuroMono.convert (NeuroMono.spectralAnalysis this false)
              Scenario.short Scenario.half 316%nat))
  = result.
Proof.
  intros this.
  apply (setters_after_creation this
           (fst (fst (NeuroMono.ensureConverter NeuroMono.new
                        Scenario.half 0%nat)))
           Scenario.short (Fin 0.9) false Scenario.half 316%nat).
  unfold this, NeuroMono.analyze. rewrite bind_run. unfold Rand.ret.
  cbn [fst snd].
  destruct (ensureConverter_creates NeuroMono.new Scenario.half 0%nat)
    as (c & Hc & <-).
  exact Hc.
Defined.

(** ** Finite output of the whole conversion *)

(** The windows of [extractHarmonicContent] all hold two samples or more
    when the channel has at least 3 samples and, beyond 512 samples, a
    length that is not 1 more than a multiple of 256; the harmonic signal
    of a valid buffer is then finite. *)
Lemma extractHarmonicContent_finite (b : AudioBuffer) :
  Spec.valid_buffer b ->
  (3 <= length (left b))%nat ->
  (length (left b) <= 512 \/ length (left b) mod 256 <> 1)%nat ->
  Forall is_fin (StereoToMonoConverter.extractHarmonicContent b) /\
  length (StereoToMonoConverter.extractHarmonicContent b)
  = length (left b).
Proof.
  intros (Hlen & Hn & Hl & Hr) H3 Hsafe.
  unfold StereoToMonoConverter.extractHarmonicContent.
  set (n := length (left b)) in *.
  set (ws := Nat.min 512 n).
  set (harmonic := map _ (seq 0 n)).
  assert (H0 : Forall is_fin harmonic /\ length harmonic = n).
  { split.
    - apply Forall_map_seq. intros i Hi.
      destruct (valid_get _ i Hl ltac:(lia)) as [-> _].
      destruct (valid_get _ i Hr ltac:(lia)) as [-> _]. exact I.
    - unfold harmonic. now rewrite length_map, length_seq. }
  apply (for_step_inv_index
           (fun i2 => exists k, i2 = k * ws)%nat
           (fun h => Forall is_fin h /\ length h = n));
    [| | exists 0%nat; reflexivity | exact H0].
  - intros i [k ->]. exists (S k). simpl. lia.
  - intros i2 h Hi2 [k Hk] [Hfin Hh].
    unfold StereoToMonoConverter.windowStep.
    assert (Hstop : ((i2 + 2 * ws) / 2 = i2 / 2 + ws)%nat).
    { replace (i2 + 2 * ws)%nat with (i2 + ws * 2)%nat by lia.
      now rewrite Nat.div_add by lia. }
    rewrite Hstop.
    pose proof (Nat.div_mod_eq i2 2) as Ediv.
    pose proof (Nat.mod_upper_bound i2 2 ltac:(lia)) as Emod.
    assert (Hstart : (i2 / 2 < n)%nat) by lia.
    assert (Hsize : (2 <= Nat.min (i2 / 2 + ws) n - i2 / 2)%nat).
    { destruct (Nat.le_gt_cases n 512) as [Hsmall | Hbig].
      - assert (Hws : ws = n) by (unfold ws; lia).
        rewrite Hws in *.
        assert (Hk1 : (k <= 1)%nat) by nia.
        destruct k as [| [| k']]; [| | lia].
        + simpl in Hk. subst i2. simpl. lia.
        + assert (i2 = n) by lia. subst i2. lia.
      - assert (Hws : ws = 512%nat) by (unfold ws; lia).
        rewrite Hws in *.
        destruct Hsafe as [Hsafe | Hsafe]; [lia |].
        assert (i2 / 2 = 256 * k)%nat by lia.
        assert (n - 256 * k <> 1)%nat.
        { intros E. apply Hsafe.
          pose proof (Nat.div_mod_eq n 256).
          pose proof (Nat.mod_upper_bound n 256 ltac:(lia)).
          lia. }
        lia. }
    assert (Hsl : length (slice h (i2 / 2) (Nat.min (i2 / 2 + ws) n))
                  = (Nat.min (i2 / 2 + ws) n - i2 / 2)%nat).
    { rewrite length_slice, Hh. lia. }
    split.
    + apply set_array_fin; [assumption |].
      apply applyHannWindow_fin; [apply Forall_slice, Hfin | lia].
    + rewrite length_set_array; [assumption |].
      rewrite length_applyHannWindow, Hsl, Hh. lia.
Qed.

Lemma downmix_fin (this : StereoToMonoConverter.t) (b : AudioBuffer)
  (analysis : StereoAnalysis) (weights : Float32Array) :
  Spec.valid_buffer b ->
  Spec.mix_weights_ok weights ->
  is_fin (preserveWidth (StereoToMonoConverter.options this)) ->
  Forall is_fin
    (StereoToMonoConverter.performIntelligentDownmix this b analysis
       weights).
Proof.
  intros (Hlen & Hn & Hl & Hr) (w0 & w1 & w2 & w3 & -> & _) Hpw.
  unfold StereoToMonoConverter.performIntelligentDownmix.
  apply Forall_map_seq. intros i Hi.
  destruct (valid_get _ i Hl ltac:(lia)) as [-> _].
  destruct (valid_get _ i Hr ltac:(lia)) as [-> _].
  cbn [get nth]. destruct (is_fin_inv _ Hpw) as [w ->].
  destruct (_ >? _); exact I.
Qed.

Lemma preservation_finite this mono b analysis :
  Spec.valid_buffer b ->
  ((richness analysis >? 0.3%R) = true ->
   (3 <= length (left b))%nat /\
   (length (left b) <= 512 \/ length (left b) mod 256 <> 1)%nat) ->
  is_fin (preserveRichness (StereoToMonoConverter.options this)) ->
  is_fin (richness analysis) ->
  is_fin (high (frequencyDistribution analysis)) ->
  Forall is_fin mono ->
  length mono = length (left b) ->
  Forall is_fin
    (StereoToMonoConverter.applyPreservationTechniques this mono b analysis).
Proof.
  intros Hb Hsafe Hpr Hrich Hhigh Hmono Hlen.
  unfold StereoToMonoConverter.applyPreservationTechniques.
  destruct (_ =? _); [assumption |].
  assert (Henh :
    Forall is_fin
      (if spectralAnalysis (StereoToMonoConverter.options this)
          && (richness analysis >? 0.3%R)
       then
         map (fun i =>
                get mono i
                + get (StereoToMonoConverter.extractHarmonicContent b) i
                  * (preserveRichness (StereoToMonoConverter.options this)
                     * richness analysis)
                  * 0.15%R)
             (seq 0 (length mono))
       else mono)).
  { destruct (spectralAnalysis _); [| assumption].
    destruct (richness analysis >? 0.3%R) eqn:Er; [| assumption].
    cbn [andb]. destruct (Hsafe eq_refl) as [H3 Hmod].
    destruct (extractHarmonicContent_finite b Hb H3 Hmod) as [Hh Hhl].
    apply Forall_map_seq. intros i Hi. rewrite Hlen in Hi.
    repeat first [ exact I | apply is_fin_add | apply is_fin_mul
                 | assumption
                 | apply Forall_get; [assumption | lia] ]. }
  destruct (_ >? 0.2%R); [| assumption].
  apply enhanceHighFrequencies_fin; assumption.
Qed.

(** The core of the output range: every sample of [convertSamples] is
    NaN or of magnitude below 1. *)
Lemma convertSamples_range (this : StereoToMonoConverter.t)
  (b : AudioBuffer) :
  Forall (fun y => y = NaN \/ exists r : R, y = Fin r /\ (Rabs r < 1)%R)
         (StereoToMonoConverter.convertSamples this b).
Proof.
  unfold StereoToMonoConverter.convertSamples,
    StereoToMonoConverter.applyVolumeCompensation.
  set (compensated := AudioUtils.normalize _ _).
  pose proof (normalize_range
                (StereoToMonoConverter.applyPreservationTechniques this
                   (StereoToMonoConverter.performIntelligentDownmix this b
                      (AudioUtils.analyzeStereo b)
                      (StereoToMonoConverter.calculateMixingWeights this
                         (AudioUtils.analyzeStereo b)))
                   b (AudioUtils.analyzeStereo b))
                (rmsLevel (AudioUtils.analyzeStereo b)
                 * volumeCompensation (StereoToMonoConverter.options this)
                 * (1%R + width (AudioUtils.analyzeStereo b) * 0.15%R)))
    as Hn.
  fold compensated in Hn.
  unfold AudioUtils.softClip. apply Forall_map_seq. intros i Hi.
  destruct (Forall_get _ _ _ Hn Hi) as [-> | (r & -> & _)].
  - left. reflexivity.
  - right.
    destruct (softClipSample_fin r 0.95 ltac:(lra)) as (y & Hy & Hb & _).
    exists y. split; assumption.
Qed.

Lemma convertSamples_finite (this : StereoToMonoConverter.t)
  (b : AudioBuffer) :
  Spec.valid_buffer b ->
  (length (left b) < 256 \/
   (384 <= length (left b) /\
    (length (left b) <= 512 \/ length (left b) mod 256 <> 1)))%nat ->
  Shape.net_ok 8 (StereoToMonoConverter.processor this) 4 ->
  is_fin (preserveWidth (StereoToMonoConverter.options this)) ->
  is_fin (preserveRichness (StereoToMonoConverter.options this)) ->
  is_fin (volumeCompensation (StereoToMonoConverter.options this)) ->
  Forall is_fin (StereoToMonoConverter.convertSamples this b).
Proof.
  intros Hb Hsafe Hnet Hpw Hpr Hvc.
  assert (Hnw : AudioUtils.numWindows
                  (Nat.min (length (left b)) (Z.to_nat 8192)) <> 0%Z).
  { destruct Hsafe as [Hshort | [Hlong _]].
    - replace (Nat.min (length (left b)) (Z.to_nat 8192))
        with (length (left b)) by lia.
      apply numWindows_short, Hshort.
    - unfold AudioUtils.numWindows.
      assert (1 <= (Z.of_nat (Nat.min (length (left b)) (Z.to_nat 8192))
                    - 256) / 128)%Z
        by (apply Z.div_le_lower_bound; lia).
      lia. }
  pose proof (features_not_NaN b Hb Hnw) as Hfeat. cbv zeta in Hfeat.
  pose proof (fun H => processFeatures_range _ _ Hnet H Hfeat) as Hw.
  specialize (Hw eq_refl).
  unfold StereoToMonoConverter.convertSamples.
  unfold StereoToMonoConverter.calculateMixingWeights.
  set (analysis := AudioUtils.analyzeStereo b) in *.
  destruct (frequencyDistribution_valid b Hb)
    as (x & y & z & lo & mi & hi & _ & Hf & _).
  assert (Hfreq : frequencyDistribution analysis
                  = {| low := Fin lo; mid := Fin mi; high := Fin hi |}).
  { unfold analysis, AudioUtils.analyzeStereo.
    cbn [frequencyDistribution]. exact Hf. }
  assert (Hrich : is_fin (richness analysis))
    by (apply richness_fin; assumption).
  assert (Hwin : (richness analysis >? 0.3%R) = true ->
                 (3 <= length (left b))%nat /\
                 (length (left b) <= 512 \/
                  length (left b) mod 256 <> 1)%nat).
  { intros Hgt. destruct Hsafe as [Hshort | [Hlong Hmod]].
    - unfold analysis, AudioUtils.analyzeStereo in Hgt.
      cbn [richness] in Hgt. rewrite (richness_short b Hshort) in Hgt.
      unfold gt in Hgt. cbn [lt] in Hgt.
      rewrite Rltb_false in Hgt by lra. discriminate.
    - split; [lia | assumption]. }
  pose proof Hb as (Hlen & Hn & Hl & Hr).
  destruct (stereoSums_valid _ _ Hlen Hl Hr (length (left b)) (le_n _))
    as (ws & m & p & Hs & Hws & Hm & Hp).
  assert (Hn0 : (0 < INR (length (left b)))%R) by (apply lt_0_INR; lia).
  assert (Hwidth : is_fin (width analysis)).
  { unfold analysis, AudioUtils.analyzeStereo. cbn [width].
    rewrite Hs. cbn [AudioUtils.widthSum]. unfold of_nat.
    rewrite div_fin by lra. simpl. destruct (Rltb _ _); exact I. }
  assert (Hrms : is_fin (rmsLevel analysis)).
  { unfold analysis, AudioUtils.analyzeStereo. cbn [rmsLevel].
    rewrite Hs. cbn [AudioUtils.rmsSum]. unfold of_nat.
    rewrite div_fin by lra. rewrite sqrt_fin; [exact I |].
    apply Rmult_le_pos; [assumption |].
    apply Rlt_le, Rinv_0_lt_compat, Hn0. }
  apply softClip_fin.
  unfold StereoToMonoConverter.applyVolumeCompensation.
  apply normalize_fin.
  - apply preservation_finite; try assumption.
    + rewrite Hfreq. exact I.
    + apply downmix_fin; assumption.
    + apply length_performIntelligentDownmix.
  - repeat first [ exact I | assumption | apply is_fin_mul
                 | apply is_fin_add ].
Qed.

Lemma nullish_within (lo hi : R) (x : option num) (d : R) :
  Range.within lo hi x -> is_fin (StereoToMonoConverter.nullish x (Fin d)).
Proof.
  destruct x as [v |]; simpl; [| intros _; exact I].
  intros (r & -> & _). exact I.
Qed.

(** X27: a converter built by the constructor from options within their
    documented ranges (preserveWidth and preserveRichness in [0, 1],
    volumeCompensation in [0.5, 2], or left to their defaults) and from
    draws in [0, 1) converts a valid buffer to one finite sample of
    magnitude below 1 per input sample, provided the length is below
    256, or at least 384 and (beyond 512) not 1 more than a multiple of
    256. *)
Theorem convert_finite (o : ConversionOptions) (rnd : Rand.source)
  (n : nat) (b : AudioBuffer) :
  Rand.valid rnd ->
  Range.options_ok o ->
  Spec.valid_buffer b ->
  (length (left b) < 256 \/
   (384 <= length (left b) /\
    (length (left b) <= 512 \/ length (left b) mod 256 <> 1)))%nat ->
  exists mono : Float32Array,
    StereoToMonoConverter.convert
      (fst (StereoToMonoConverter.new o rnd n)) b = Normal mono /\
    length mono = length (left b) /\
    Forall (fun y => exists r : R, y = Fin r /\ (Rabs r < 1)%R) mono.
Proof.
  intros _ (Hpw & Hpr & Hvc) Hb Hsafe.
  set (this := fst (StereoToMonoConverter.new o rnd n)).
  assert (Ethis : this
                  = {| StereoToMonoConverter.options :=
                         StereoToMonoConverter.defaults o;
                       StereoToMonoConverter.processor :=
                         fst (AudioFeatureProcessor.new rnd n) |}).
  { unfold this, StereoToMonoConverter.new. rewrite bind_run.
    reflexivity. }
  eexists. split; [reflexivity |].
  split; [apply length_convertSamples |].
  assert (Hfin : Forall is_fin
                   (StereoToMonoConverter.convertSamples this b)).
  { apply convertSamples_finite; try assumption; rewrite Ethis;
      cbn [StereoToMonoConverter.options StereoToMonoConverter.processor
           StereoToMonoConverter.defaults preserveWidth preserveRichness
           volumeCompensation].
    - apply processor_net_ok.
    - apply (nullish_within 0 1 _ 0.7 Hpw).
    - apply (nullish_within 0 1 _ 0.8 Hpr).
    - apply (nullish_within 0.5 2 _ 1.1 Hvc). }
  pose proof (convertSamples_range this b) as Hrange.
  rewrite Forall_forall in *. intros y Hy.
  destruct (Hrange y Hy) as [-> | H]; [| exact H].
  destruct (Hfin NaN Hy).
Qed.

Lemma convert_finite_witness :
  exists mono : Float32Array,
    StereoToMonoConverter.convert
      (fst (StereoToMonoConverter.new StereoToMonoConverter.noOptions
              Scenario.half 0%nat))
      Scenario.short
    = Normal mono /\
    length mono = length (left Scenario.short) /\
    Forall (fun y => exists r : R, y = Fin r /\ (Rabs r < 1)%R) mono.
Proof.
  apply (convert_finite StereoToMonoConverter.noOptions Scenario.half
           0%nat Scenario.short).
  - intros k. unfold Scenario.half. lra.
  - repeat split.
  - exact valid_short.
  - left. simpl. lia.
Defined.

(** ** What is read of the right channel *)

Lemma fold_left_ext_in {S A : Type} (f g : S -> A -> S) (l : list A) :
  (forall x a, In a l -> f x a = g x a) ->
  forall s, fold_left f l s = fold_left g l s.
Proof.
  induction l as [| a l IH]; intros H s; simpl; [reflexivity |].
  rewrite (H s a) by (left; reflexivity).
  apply IH. intros x a' Ha. apply H. right. assumption.
Qed.

Lemma for_loop_ext {S : Type} (start stop : nat) (f g : S -> nat -> S)
  (s : S) :
  (forall i x, (start <= i < stop)%nat -> f x i = g x i) ->
  for_loop start stop f s = for_loop start stop g s.
Proof.
  intros H. unfold for_loop. apply fold_left_ext_in.
  intros x i Hi. apply in_seq in Hi. apply H. lia.
Qed.

Lemma for_step_ext {S : Type} (stop step : nat) (f g : S -> nat -> S) :
  (forall i x, (i < stop)%nat -> f x i = g x i) ->
  forall fuel i s,
    for_step fuel i stop step f s = for_step fuel i stop step g s.
Proof.
  intros H. induction fuel; intros i s; simpl; [reflexivity |].
  destruct (Nat.ltb_spec i stop); [| reflexivity].
  rewrite (H i s) by assumption. apply IHfuel.
Qed.

Lemma get_app_l (a extra : Float32Array) (i : nat) :
  (i < length a)%nat -> get (a ++ extra) i = get a i.
Proof. intros Hi. unfold get. now rewrite app_nth1. Qed.

Lemma slice_app_l (a extra : Float32Array) (start stop : nat) :
  (stop <= length a)%nat ->
  slice (a ++ extra) start stop = slice a start stop.
Proof.
  intros Hstop. unfold slice. rewrite skipn_app, firstn_app.
  rewrite length_skipn.
  replace (stop - start - (length a - start))%nat with 0%nat by lia.
  cbn [firstn]. now rewrite app_nil_r.
Qed.

Lemma stereoSums_pad (l r extra : Float32Array) :
  (length l <= length r)%nat ->
  for_loop 0 (length l) (AudioUtils.analyzeStep l (r ++ extra))
    AudioUtils.stereoSums0
  = for_loop 0 (length l) (AudioUtils.analyzeStep l r)
      AudioUtils.stereoSums0.
Proof.
  intros Hlen. apply for_loop_ext. intros i x Hi.
  unfold AudioUtils.analyzeStep. now rewrite get_app_l by lia.
Qed.

Lemma richness_pad (b : AudioBuffer) (extra : Float32Array) :
  (length (left b) <= length (right b))%nat ->
  AudioUtils.calculateRichness (Example.padRight b extra)
  = AudioUtils.calculateRichness b.
Proof.
  intros Hlen. unfold AudioUtils.calculateRichness.
  cbn [left right Example.padRight].
  rewrite (for_step_ext _ 128
             (AudioUtils.richnessStep (left b) (right b ++ extra))
             (AudioUtils.richnessStep (left b) (right b))); [reflexivity |].
  intros i x Hi. unfold AudioUtils.richnessStep.
  now rewrite slice_app_l by lia.
Qed.

Lemma frequencyDistribution_pad (b : AudioBuffer) (extra : Float32Array) :
  (length (left b) <= length (right b))%nat ->
  AudioUtils.analyzeFrequencyDistribution (Example.padRight b extra)
  = AudioUtils.analyzeFrequencyDistribution b.
Proof.
  intros Hlen. unfold AudioUtils.analyzeFrequencyDistribution.
  assert (E : AudioUtils.bandEnergies (Example.padRight b extra)
              = AudioUtils.bandEnergies b).
  { unfold AudioUtils.bandEnergies. cbn [left right Example.padRight].
    apply for_loop_ext. intros i x Hi. unfold AudioUtils.bandStep.
    now rewrite !get_app_l by lia. }
  now rewrite E.
Qed.

Lemma analyzeStereo_pad (b : AudioBuffer) (extra : Float32Array) :
  (length (left b) <= length (right b))%nat ->
  AudioUtils.analyzeStereo (Example.padRight b extra)
  = AudioUtils.analyzeStereo b.
Proof.
  intros Hlen. unfold AudioUtils.analyzeStereo.
  rewrite richness_pad, frequencyDistribution_pad by assumption.
  cbn [left right Example.padRight].
  now rewrite stereoSums_pad by assumption.
Qed.

Lemma extractHarmonicContent_pad (b : AudioBuffer) (extra : Float32Array) :
  (length (left b) <= length (right b))%nat ->
  StereoToMonoConverter.extractHarmonicContent (Example.padRight b extra)
  = StereoToMonoConverter.extractHarmonicContent b.
Proof.
  intros Hlen. unfold StereoToMonoConverter.extractHarmonicContent.
  cbn [left right Example.padRight].
  assert (E : map (fun i => (get (left b) i - get (right b ++ extra) i)
                            * 0.5%R)
                  (seq 0 (length (left b)))
              = map (fun i => (get (left b) i - get (right b) i) * 0.5%R)
                    (seq 0 (length (left b)))).
  { apply map_ext_in. intros i Hi. apply in_seq in Hi.
    now rewrite get_app_l by lia. }
  now rewrite E.
Qed.

Lemma downmix_pad (this : StereoToMonoConverter.t) (b : AudioBuffer)
  (extra : Float32Array) (analysis : StereoAnalysis)
  (weights : Float32Array) :
  (length (left b) <= length (right b))%nat ->
  StereoToMonoConverter.performIntelligentDownmix this
    (Example.padRight b extra) analysis weights
  = StereoToMonoConverter.performIntelligentDownmix this b analysis weights.
Proof.
  intros Hlen. unfold StereoToMonoConverter.performIntelligentDownmix.
  cbn [left right Example.padRight].
  apply map_ext_in. intros i Hi. apply in_seq in Hi.
  now rewrite get_app_l by lia.
Qed.

(** X28: samples of the right channel beyond the length of the left
    channel are never read: appending samples to a right channel that is
    at least as long as the left one changes neither the analysis nor
    the converted signal. *)
Theorem right_overrun_ignored (this : StereoToMonoConverter.t)
  (b : AudioBuffer) (extra : Float32Array) :
  (length (left b) <= length (right b))%nat ->
  StereoToMonoConverter.analyze this (Example.padRight b extra)
  = StereoToMonoConverter.analyze this b /\
  StereoToMonoConverter.convert this (Example.padRight b extra)
  = StereoToMonoConverter.convert this b.
Proof.
  intros Hlen. unfold StereoToMonoConverter.analyze,
    StereoToMonoConverter.convert.
  split; [now rewrite analyzeStereo_pad by assumption |].
  unfold StereoToMonoConverter.convertSamples.
  rewrite analyzeStereo_pad by assumption.
  rewrite downmix_pad by assumption.
  unfold StereoToMonoConverter.applyPreservationTechniques.
  now rewrite extractHarmonicContent_pad by assumption.
Qed.

Lemma right_overrun_ignored_witness :
  StereoToMonoConverter.analyze (Example.converterOver Shape.zeroNet)
    (Example.padRight Scenario.short [Fin 1])
  = StereoToMonoConverter.analyze (Example.converterOver Shape.zeroNet)
      Scenario.short /\
  StereoToMonoConverter.convert (Example.converterOver Shape.zeroNet)
    (Example.padRight Scenario.short [Fin 1])
  = StereoToMonoConverter.convert (Example.converterOver Shape.zeroNet)
      Scenario.short.
Proof.
  apply (right_overrun_ignored (Example.converterOver Shape.zeroNet)
           Scenario.short [Fin 1]).
  simpl. lia.
Defined.

(** ** The magnitudes of the initial weights *)

Lemma scale_bound (inputSize outputSize : nat) :
  (12 <= inputSize + outputSize)%nat ->
  exists sc : R,
    sqrt (2%R / (of_nat inputSize + of_nat outputSize)) = Fin sc /\
    (0 <= sc <= 5 / 12)%R.
Proof.
  intros Hsize. unfold of_nat. cbn [add]. rewrite <- plus_INR.
  assert (H12 : (12 <= INR (inputSize + outputSize))%R).
  { replace 12%R with (INR 12) by (simpl; lra). apply le_INR. assumption. }
  rewrite div_fin by lra.
  assert (Hx : (0 <= 2 / INR (inputSize + outputSize) <= 2 / 12)%R).
  { split.
    - apply Rmult_le_pos; [lra |]. apply Rlt_le, Rinv_0_lt_compat. lra.
    - apply Rmult_le_compat_l; [lra |]. apply Rinv_le_contravar; lra. }
  rewrite sqrt_fin by lra. eexists. split; [reflexivity |]. split.
  - apply sqrt_pos.
  - rewrite <- (sqrt_square (5 / 12)) by lra.
    apply sqrt_le_1_alt. lra.
Qed.

Lemma draw_bounded (rnd : Rand.source) (k : nat) (sc m : R) :
  Rand.valid rnd ->
  (0 <= sc <= m)%R ->
  Range.bounded m
    (fst ((r <- Rand.random ;; Rand.ret ((r * 2%R - 1%R) * Fin sc)) rnd k)).
Proof.
  intros Hrnd Hsc. rewrite bind_run. unfold Rand.random, Rand.ret.
  cbn [fst]. unfold sub. cbn [opp add mul].
  eexists. split; [reflexivity |].
  specialize (Hrnd k).
  rewrite Rabs_mult, (Rabs_pos_eq sc) by lra.
  assert (Ha : (Rabs (rnd k * 2 + - (1)) <= 1)%R)
    by (apply Rabs_le; lra).
  pose proof (Rabs_pos (rnd k * 2 + - (1))).
  assert (Rabs (rnd k * 2 + - (1)) * sc <= 1 * sc)%R
    by (apply Rmult_le_compat_r; lra).
  lra.
Qed.

Lemma createLayer_bounded (inputSize outputSize : nat) (isOutput : bool)
  (rnd : Rand.source) (n : nat) :
  Rand.valid rnd ->
  (12 <= inputSize + outputSize)%nat ->
  Forall (Forall (Range.bounded (5 / 12)))
    (weights
       (fst (NeuralNetwork.createLayer inputSize outputSize isOutput
               rnd n))) /\
  Forall (Range.bounded 0.01)
    (biases
       (fst (NeuralNetwork.createLayer inputSize outputSize isOutput
               rnd n))).
Proof.
  intros Hrnd Hsize. unfold NeuralNetwork.createLayer.
  destruct (scale_bound inputSize outputSize Hsize) as (sc & -> & Hsc).
  rewrite !bind_run. unfold Rand.ret at 3. cbn [fst weights biases].
  split.
  - apply (@repeatM_Forall _ _ rnd (Forall (Range.bounded (5 / 12)))).
    intros k.
    apply (@repeatM_Forall _ _ rnd (Range.bounded (5 / 12))).
    intros j. apply draw_bounded; assumption.
  - apply (@repeatM_Forall _ _ rnd (Range.bounded 0.01)).
    intros j. apply (draw_bounded rnd j 0.01 0.01); [assumption | lra].
Qed.

Lemma optimizeRow_bounded (row : Float32Array) :
  Forall (Range.bounded (5 / 12)) row ->
  Forall (Range.bounded 0.5) (NeuralNetwork.optimizeRow row).
Proof.
  intros Hrow. unfold NeuralNetwork.optimizeRow.
  apply Forall_map_seq. intros j Hj.
  destruct (Forall_get _ _ _ Hrow Hj) as (r & -> & Hr).
  destruct (j <? 5)%nat.
  - cbn [mul]. eexists. split; [reflexivity |].
    rewrite Rabs_mult, (Rabs_pos_eq 1.2) by lra. lra.
  - exists r. split; [reflexivity | lra].
Qed.

Lemma optimize_layer_bounded (layer : NeuralLayer) :
  Forall (Forall (Range.bounded (5 / 12))) (weights layer) /\
  Forall (Range.bounded 0.01) (biases layer) ->
  Range.layer_bounded
    {| weights := map NeuralNetwork.optimizeRow (weights layer);
       biases := biases layer;
       activation := activation layer |}.
Proof.
  intros [Hw Hb]. split; cbn [weights biases]; [| assumption].
  rewrite Forall_map. eapply Forall_impl; [| exact Hw].
  intros row. apply optimizeRow_bounded.
Qed.

(** X29: with draws in [0, 1), as [Math.random] gives them, every
    weight of the processor's network has magnitude at most 0.5 (the
    Xavier scale of its layer times the 1.2 of the audio adjustment) and
    every bias has magnitude at most 0.01. *)
Theorem processor_weights_bounded (rnd : Rand.source) (n : nat) :
  Rand.valid rnd ->
  length (fst (AudioFeatureProcessor.new rnd n)) = 3%nat /\
  Forall Range.layer_bounded (fst (AudioFeatureProcessor.new rnd n)).
Proof.
  intros Hrnd.
  unfold AudioFeatureProcessor.new, NeuralNetwork.createPretrainedAudioModel,
    NeuralNetwork.new.
  cbn [app NeuralNetwork.createLayers].
  rewrite !bind_run. unfold Rand.ret. cbn [fst].
  cbn [NeuralNetwork.optimizeForAudioPreservation map length].
  split; [reflexivity |].
  apply Forall_cons; [| apply Forall_cons; [| apply Forall_cons;
                                               [| apply Forall_nil]]];
    apply optimize_layer_bounded, createLayer_bounded;
    (assumption || (simpl; lia)).
Qed.

Lemma valid_half : Rand.valid Scenario.half.
Proof. intros k. unfold Scenario.half. lra. Qed.

Lemma processor_weights_bounded_witness :
  length (fst (AudioFeatureProcessor.new Scenario.half 0%nat)) = 3%nat /\
  Forall Range.layer_bounded
    (fst (AudioFeatureProcessor.new Scenario.half 0%nat)).
Proof.
  apply (processor_weights_bounded Scenario.half 0%nat). exact valid_half.
Defined.

(** X30: the quick functions are the converter with its default
    options: [analyze(buffer)] and [convert(buffer)] without options
    build one converter from the next 316 draws and return what its
    [analyze] and [convert] return; the analysis itself does not depend
    on the draws. *)
Theorem quick_functions (b : AudioBuffer) (rnd : Rand.source) (n : nat) :
  let c :=
    fst (StereoToMonoConverter.new StereoToMonoConverter.noOptions rnd n) in
  fst (NeuroMono.quickAnalyze b rnd n) = StereoToMonoConverter.analyze c b /\
  fst (NeuroMono.quickAnalyze b rnd n) = Normal (AudioUtils.analyzeStereo b) /\
  fst (NeuroMono.quickConvert b None rnd n)
  = StereoToMonoConverter.convert c b /\
  snd (NeuroMono.quickAnalyze b rnd n) = (n + 316)%nat /\
  snd (NeuroMono.quickConvert b None rnd n) = (n + 316)%nat.
Proof.
  intros c.
  assert (Hdraws : snd (StereoToMonoConverter.new
                          StereoToMonoConverter.noOptions rnd n)
                   = (n + 316)%nat).
  { unfold StereoToMonoConverter.new. rewrite bind_run.
    unfold Rand.ret. cbn [snd].
    unfold AudioFeatureProcessor.new,
      NeuralNetwork.createPretrainedAudioModel, NeuralNetwork.new.
    cbn [app NeuralNetwork.createLayers].
    rewrite !bind_run. unfold Rand.ret. cbn [snd].
    rewrite !createLayer_draws. lia. }
  assert (He : NeuroMono.ensureConverter (NeuroMono.createConverter None)
                 rnd n
               = ((c, {| NeuroMono.options := StereoToMonoConverter.noOptions;
                         NeuroMono.converter := Some c |}),
                  (n + 316)%nat)).
  { unfold NeuroMono.ensureConverter, NeuroMono.createConverter,
      NeuroMono.new. cbn [NeuroMono.converter NeuroMono.options].
    rewrite bind_run. unfold Rand.ret. fold c. now rewrite Hdraws. }
  unfold NeuroMono.quickAnalyze, NeuroMono.quickConvert,
    NeuroMono.analyze, NeuroMono.convert.
  rewrite !bind_run, He. unfold Rand.ret. cbn [fst snd].
  repeat split; reflexivity.
Qed.

(* ================================================================== *)
(** * Buffers between the richness window and the frequency prefix *)
(* ================================================================== *)

(** C4: a buffer of 256 to 383 samples of silence is valid and shorter
    than the 4096-sample frequency prefix, and [analyze] divides by
    zero on it: the window count of the richness is 0, the harmonic sum
    0 is divided by it, and the richness returned is NaN.  The frequency
    ratios, whose division is guarded, are 0. *)
Theorem short_prefix_richness_NaN (this : StereoToMonoConverter.t)
  (n : nat) :
  (256 <= n <= 383)%nat ->
  Spec.valid_buffer (Scenario.silent n) /\
  (length (left (Scenario.silent n)) < Z.to_nat 4096)%nat /\
  AudioUtils.numWindows
    (Nat.min (length (left (Scenario.silent n))) (Z.to_nat 8192)) = 0%Z /\
  exists analysis : StereoAnalysis,
    StereoToMonoConverter.analyze this (Scenario.silent n)
    = Normal analysis /\
    richness analysis = NaN /\
    frequencyDistribution analysis
    = {| low := Fin 0; mid := Fin 0; high := Fin 0 |}.
Proof.
  intros Hn.
  assert (Hlen : length (left (Scenario.silent n)) = n).
  { unfold Scenario.silent. cbn [left]. apply repeat_length. }
  assert (Hnw : AudioUtils.numWindows (Nat.min n (Z.to_nat 8192)) = 0%Z).
  { unfold AudioUtils.numWindows.
    assert ((Z.of_nat (Nat.min n (Z.to_nat 8192)) - 256) / 128 = 0)%Z
      by (apply Z.div_small; lia).
    lia. }
  split; [apply valid_silent; lia |].
  split; [rewrite Hlen; lia |].
  split; [rewrite Hlen; exact Hnw |].
  exists (AudioUtils.analyzeStereo (Scenario.silent n)).
  split; [reflexivity |].
  rewrite analyzeStereo_silent by lia. cbn [richness frequencyDistribution].
  split; [| reflexivity].
  rewrite richness_silent, Hnw. reflexivity.
Qed.

Lemma short_prefix_richness_NaN_witness :
  Spec.valid_buffer (Scenario.silent 300) /\
  (length (left (Scenario.silent 300)) < Z.to_nat 4096)%nat /\
  AudioUtils.numWindows
    (Nat.min (length (left (Scenario.silent 300))) (Z.to_nat 8192)) = 0%Z /\
  exists analysis : StereoAnalysis,
    StereoToMonoConverter.analyze (Example.converterOver Shape.zeroNet)
      (Scenario.silent 300)
    = Normal analysis /\
    richness analysis = NaN /\
    frequencyDistribution analysis
    = {| low := Fin 0; mid := Fin 0; high := Fin 0 |}.
Proof.
  apply (short_prefix_richness_NaN (Example.converterOver Shape.zeroNet) 300).
  lia.
Defined.

(* ================================================================== *)
(** * The code evaluated on binary64 numbers *)
(* ================================================================== *)

Module Rounding.

Import PrimFloat.
Set Warnings "-inexact-float".
Local Open Scope float_scope.

(** C5: on a valid buffer that holds the samples 0.5, 0.5, 0.25 on both
    channels, [analyzeStereo], computed on binary64 numbers as the code
    computes it, returns a phase correlation of 1.0000000000000002,
    above 1; with the right channel inverted it returns
    -1.0000000000000002, below -1.  The quotient is returned as it is
    rounded, without a clamp. *)
Theorem phaseCorrelation_outside_range :
  Double.left Double.Scenario.unison = [0.5; 0.5; 0.25] /\
  Double.right Double.Scenario.unison = [0.5; 0.5; 0.25] /\
  Double.phaseCorrelation
    (Double.AudioUtils.analyzeStereo Double.Scenario.unison)
  = 0x1.0000000000001p+0 /\
  (1 <? Double.phaseCorrelation
          (Double.AudioUtils.analyzeStereo Double.Scenario.unison)) = true /\
  Double.right Double.Scenario.inverted = [-0.5; -0.5; -0.25] /\
  Double.phaseCorrelation
    (Double.AudioUtils.analyzeStereo Double.Scenario.inverted)
  = -0x1.0000000000001p+0 /\
  (Double.phaseCorrelation
     (Double.AudioUtils.analyzeStereo Double.Scenario.inverted) <? -1)
  = true.
Proof. vm_compute. repeat split. Qed.

(** C7: the clamps of [processFeatures] do not keep the weights within
    their ranges.  A NaN feature (the richness of 256 samples of
    silence) passes [Math.max(0, Math.min(1, NaN))] and makes all four
    weights NaN; and the bound 0.3 of the fourth weight, stored into the
    [Float32Array] the mapper returns, reads back as
    0.30000001192092896, above 0.3.  The networks are the ones the
    constructor builds from draws that are all 0.5, and all 0.75. *)
Theorem processFeatures_outside_range :
  Double.AudioFeatureProcessor.processFeatures
    (fst (Double.AudioFeatureProcessor.new
            (Double.Scenario.constant 0.5) 0%nat))
    Double.Scenario.undefinedRichness
  = [nan; nan; nan; nan] /\
  Double.AudioFeatureProcessor.processFeatures
    (fst (Double.AudioFeatureProcessor.new
            (Double.Scenario.constant 0.75) 0%nat))
    Double.Scenario.saturated
  = [0x1.666666p-1; 0x1.666666p-1; 0.5; 0x1.333334p-2] /\
  (0.3 <? Double.get
            (Double.AudioFeatureProcessor.processFeatures
               (fst (Double.AudioFeatureProcessor.new
                       (Double.Scenario.constant 0.75) 0%nat))
               Double.Scenario.saturated) 3) = true.
Proof. vm_compute. repeat split. Qed.

End Rounding.
